(** * Ant3D map converter: [convert_map.py]

    A shallow embedding of the map converter of the Ant3D repository
    ([src/convert_map.py]) and the properties its specification states,
    followed by the two scripts that edit the Xcode project file
    ([src/add_files_to_xcode.py], [src/reorganize_xcode_folders.py]).

    Conventions of the embedding.
    - A Python [int] is a [Z]; [>>] and [&] are [Z.shiftr] and [Z.land]
      (both floor-based, as in Python, also on negative numbers).
    - A Python [str] is a [string]; a character of the string stands for
      the code point of the same number, so the texts of the model are the
      texts over U+0000..U+00FF.  On that range the only decimal digits are
      [0]..[9], and the white space of [str.strip()] is U+0009..U+000D,
      U+001C..U+0020, U+0085 and U+00A0.
    - An exception is a value of [exn]; code that can raise returns an
      [outcome]; code that also touches the file system runs in [IO], a
      state-and-exception monad over the files.
    - The file system is the content of each path, as the characters
      that decoding gives.  Files are opened in text mode: on reading, a
      carriage return, alone or followed by a line feed, becomes a line
      feed ([universal_newlines]); on writing nothing is translated, as on
      the POSIX systems the paths of the scripts belong to.  Reading a
      missing file raises, opening a file for writing always succeeds.
    - Standard output is not part of the model: a [print] is kept only for
      the exception its argument can raise.
    - [int] is modelled without the limit that CPython (3.11, and the
      security releases of 3.7 to 3.10) puts on the length of a decimal
      literal, 4300 digits unless configured otherwise; a property that
      reads back integers of any size states the limit as a hypothesis
      ([within_int_limit]).
    - [re.search], [json.dump] and [json.loads] belong to Python's library;
      they are modelled on what the converter uses of them: the one pattern
      of [parse_scad_map], the encoding with [indent=2] of dictionaries,
      lists, strings and integers, and the decoding of such texts. *)

From Stdlib Require Import ZArith List String Ascii Bool Lia.
From Stdlib Require Import Decimal DecimalString DecimalZ DecimalN DecimalPos.
From Stdlib Require Import Sorting.Sorted.
Import ListNotations.

Set Warnings "-register-all".

Local Open Scope string_scope.
Local Open Scope Z_scope.

(** ** Exceptions and the two monads *)

(** The exceptions the converter can raise, one constructor per raise site.
    The first two are both Python's [ValueError]; they differ in the
    message. *)
Inductive exn : Type :=
| ValueError_no_map_array
    (* raise ValueError("Could not find map array in file") *)
| ValueError_invalid_literal (token : string)
    (* int(token): invalid literal for int() with base 10 *)
| IndexError_list_index
    (* heightmap[0] on an empty list: list index out of range *)
| ZeroDivisionError_division
    (* n / 0: division by zero *)
| FileNotFoundError (path : string).
    (* open(path, "r") on a missing file *)

Inductive outcome (A : Type) : Type :=
| Returned (a : A)
| Raised (e : exn).
Arguments Returned {A} a.
Arguments Raised {A} e.

Definition obind {A B} (m : outcome A) (k : A -> outcome B) : outcome B :=
  match m with
  | Returned a => k a
  | Raised e => Raised e
  end.

Declare Scope outcome_scope.
Delimit Scope outcome_scope with O.
Notation "x <- m ;; k" := (obind m (fun x => k))
  (at level 61, m at next level, right associativity) : outcome_scope.

(** The file system: the content of each path, if the file exists. *)
Definition files : Type := string -> option string.

Definition IO (A : Type) : Type := files -> outcome A * files.

Definition io_ret {A} (a : A) : IO A := fun w => (Returned a, w).

Definition io_bind {A B} (m : IO A) (k : A -> IO B) : IO B :=
  fun w =>
    match m w with
    | (Returned a, w') => k a w'
    | (Raised e, w') => (Raised e, w')
    end.

Definition lift {A} (m : outcome A) : IO A := fun w => (m, w).

Declare Scope io_scope.
Delimit Scope io_scope with IO.
Notation "x <- m ;; k" := (io_bind m (fun x => k))
  (at level 61, m at next level, right associativity) : io_scope.
Notation "m ;; k" := (io_bind m (fun _ => k))
  (at level 61, right associativity) : io_scope.

(** What a file opened in text mode gives for its content: the line ends
    [\r\n] and [\r] are read as [\n]. *)
Fixpoint universal_newlines (s : string) : string :=
  match s with
  | EmptyString => EmptyString
  | String c s' =>
      if Ascii.eqb c "013" then
        match s' with
        | String "010" _ => universal_newlines s'
        | _ => String "010" (universal_newlines s')
        end
      else String c (universal_newlines s')
  end.

(** [open(path, "r").read()] *)
Definition read_file (path : string) : IO string :=
  fun w =>
    match w path with
    | Some content => (Returned (universal_newlines content), w)
    | None => (Raised (FileNotFoundError path), w)
    end.

(** [open(path, "w")] followed by writes that add up to [content]. *)
Definition write_file (path content : string) : IO unit :=
  fun w => (Returned tt, fun p => if String.eqb p path then Some content else w p).

(** ** Python's [str] methods *)

Definition LF : ascii := "010"%char.

(** [str.isspace] on one character. *)
Definition isspace (c : ascii) : bool :=
  let n := N_of_ascii c in
  (((9 <=? n) && (n <=? 13)) || ((28 <=? n) && (n <=? 32))
   || (n =? 133) || (n =? 160))%N.

Fixpoint mem_char (c : ascii) (chars : string) : bool :=
  match chars with
  | EmptyString => false
  | String d chars' => Ascii.eqb c d || mem_char c chars'
  end.

Fixpoint lstrip_by (p : ascii -> bool) (s : string) : string :=
  match s with
  | EmptyString => EmptyString
  | String c s' => if p c then lstrip_by p s' else s
  end.

Fixpoint rstrip_by (p : ascii -> bool) (s : string) : string :=
  match s with
  | EmptyString => EmptyString
  | String c s' =>
      match rstrip_by p s' with
      | EmptyString => if p c then EmptyString else String c EmptyString
      | r => String c r
      end
  end.

Definition strip_by (p : ascii -> bool) (s : string) : string :=
  rstrip_by p (lstrip_by p s).

(** [s.strip()] *)
Definition strip (s : string) : string := strip_by isspace s.

(** [s.strip(chars)] *)
Definition strip_chars (s chars : string) : string :=
  strip_by (fun c => mem_char c chars) s.

(** [s.startswith(pre)] *)
Definition startswith (s pre : string) : bool := String.prefix pre s.

(** [s.split(sep)] for a separator of one character. *)
Fixpoint split (sep : ascii) (s : string) : list string :=
  match s with
  | EmptyString => [EmptyString]
  | String c s' =>
      if Ascii.eqb c sep then EmptyString :: split sep s'
      else match split sep s' with
           | [] => [String c EmptyString]
           | w :: ws => String c w :: ws
           end
  end.

(** Truth value of a [str]: the empty string is false. *)
Definition truthy (s : string) : bool :=
  match s with
  | EmptyString => false
  | String _ _ => true
  end.

(** ** Python's [int(str)] and [repr(int)] *)

Definition digit_value (c : ascii) : option Z :=
  let n := N_of_ascii c in
  if ((48 <=? n) && (n <=? 57))%N then Some (Z.of_N (n - 48)) else None.

(** The digits after the first one: a digit, or one underscore followed by
    a digit. *)
Fixpoint int_digits (acc : Z) (s : string) : option Z :=
  match s with
  | EmptyString => Some acc
  | String c s' =>
      if Ascii.eqb c "_" then
        match s' with
        | EmptyString => None
        | String d s'' =>
            match digit_value d with
            | Some v => int_digits (acc * 10 + v) s''
            | None => None
            end
        end
      else
        match digit_value c with
        | Some v => int_digits (acc * 10 + v) s'
        | None => None
        end
  end.

Definition int_unsigned (s : string) : option Z :=
  match s with
  | EmptyString => None
  | String d s' =>
      match digit_value d with
      | Some v => int_digits v s'
      | None => None
      end
  end.

(** The value of [int(s)], [None] where it raises [ValueError]: white space
    around, an optional sign, then digits with single underscores between
    them. *)
Definition int_value (s : string) : option Z :=
  match strip s with
  | String "+" r => int_unsigned r
  | String "-" r => option_map Z.opp (int_unsigned r)
  | t => int_unsigned t
  end.

(** [int(s)] *)
Definition int (s : string) : outcome Z :=
  match int_value s with
  | Some z => Returned z
  | None => Raised (ValueError_invalid_literal s)
  end.

(** [repr(z)], which is also what [json] writes for an [int]. *)
Definition int_repr (z : Z) : string := NilZero.string_of_int (Z.to_int z).

(** [len(l)] *)
Definition len {A} (l : list A) : Z := Z.of_nat (List.length l).

(** [range(n)] *)
Definition range (n : nat) : list Z := map Z.of_nat (seq 0 n).

(** [l[0]] *)
Definition getitem0 {A} (l : list A) : outcome A :=
  match l with
  | [] => Raised IndexError_list_index
  | x :: _ => Returned x
  end.

(** [sum(l)] *)
Definition sum (l : list Z) : Z := fold_left Z.add l 0.

(** A [for] loop whose body can raise, over the loop's variables [s]. *)
Fixpoint for_each {A S} (body : S -> A -> outcome S) (xs : list A) (s : S)
  : outcome S :=
  match xs with
  | [] => Returned s
  | x :: xs' => (s' <- body s x ;; for_each body xs' s')%O
  end.

(** ** [re.search(r"map=\[(.*?)\];", content, re.DOTALL)] *)

(** A literal of the pattern at the head of [s]: what follows it. *)
Fixpoint match_literal (lit s : string) : option string :=
  match lit with
  | EmptyString => Some s
  | String a lit' =>
      match s with
      | EmptyString => None
      | String b s' => if Ascii.eqb a b then match_literal lit' s' else None
      end
  end.

(** [(.*?)] followed by the literal [lit]: the group takes no character if
    the literal is here, else one more character, and so on ([re.DOTALL]:
    a dot is any character). The result is the group. *)
Fixpoint match_lazy_group (lit s : string) : option string :=
  match match_literal lit s with
  | Some _ => Some EmptyString
  | None =>
      match s with
      | EmptyString => None
      | String c s' => option_map (String c) (match_lazy_group lit s')
      end
  end.

(** The whole pattern at the head of [s]. *)
Definition match_here (s : string) : option string :=
  match match_literal "map=[" s with
  | Some rest => match_lazy_group "];" rest
  | None => None
  end.

(** [re.search]: the pattern at the first position where it matches;
    the result is [match.group(1)]. *)
Fixpoint re_search (s : string) : option string :=
  match match_here s with
  | Some group => Some group
  | None =>
      match s with
      | EmptyString => None
      | String _ s' => re_search s'
      end
  end.

(** ** [parse_scad_map] *)

(** [[int(x.strip()) for x in xs if x.strip()]] *)
Fixpoint numbers_of (xs : list string) : outcome (list Z) :=
  match xs with
  | [] => Returned []
  | x :: xs' =>
      if truthy (strip x) then
        (n <- int (strip x) ;;
         ns <- numbers_of xs' ;;
         Returned (n :: ns))%O
      else numbers_of xs'
  end.

(** The body of the loop over the lines; [rows] is the loop's variable. *)
Definition parse_line (rows : list (list Z)) (line : string)
  : outcome (list (list Z)) :=
  let line := strip line in
  if startswith line "[" then
    let numbers_str := strip_chars line "[]," in
    if truthy numbers_str then
      (numbers <- numbers_of (split "," numbers_str) ;;
       Returned (rows ++ [numbers])%list)%O
    else Returned rows
  else Returned rows.

(** [parse_scad_map] after the file is read. *)
Definition parse_scad_text (content : string) : outcome (list (list Z)) :=
  match re_search content with
  | None => Raised ValueError_no_map_array
  | Some map_content => for_each parse_line (split LF map_content) []
  end.

Definition parse_scad_map (scad_file : string) : IO (list (list Z)) :=
  (content <- read_file scad_file ;;
   lift (parse_scad_text content))%IO.

(** ** The bitmap of a cell *)

(** The test [(val >> z) & 1] of both loops over the levels. *)
Definition bit_set (val z : Z) : bool :=
  negb (Z.land (Z.shiftr val z) 1 =? 0).

(** The decoding loop of [main]:
    [blocks = []; for z in range(9): if (val >> z) & 1: blocks.append(z)] *)
Definition decode (val : Z) : list Z :=
  fold_left (fun blocks z => if bit_set val z then (blocks ++ [z])%list else blocks)
            (range 9) [].

(** ** JSON values and [json.dump(obj, f, indent=2)] *)

Inductive json : Type :=
| JInt (z : Z)
| JStr (s : string)
| JList (items : list json)
| JDict (items : list (string * json)).

Definition DQUOTE : ascii := "034"%char.

Definition hex_digit (n : N) : ascii :=
  ascii_of_N (if (n <? 10)%N then 48 + n else 87 + n)%N.

(** One character inside a JSON string ([ensure_ascii=True]). *)
Definition escape_char (c : ascii) : string :=
  let n := N_of_ascii c in
  if (n =? 34)%N then String "\" (String DQUOTE EmptyString)
  else if (n =? 92)%N then "\\"
  else if (n =? 10)%N then "\n"
  else if (n =? 13)%N then "\r"
  else if (n =? 9)%N then "\t"
  else if (n =? 12)%N then "\f"
  else if (n =? 8)%N then "\b"
  else if ((32 <=? n) && (n <=? 126))%N then String c EmptyString
  else "\u00" ++ String (hex_digit (n / 16)) (String (hex_digit (n mod 16)) EmptyString).

Fixpoint escape (s : string) : string :=
  match s with
  | EmptyString => EmptyString
  | String c s' => escape_char c ++ escape s'
  end.

Definition encode_basestring_ascii (s : string) : string :=
  String DQUOTE (escape s ++ String DQUOTE EmptyString).

Fixpoint spaces (n : nat) : string :=
  match n with
  | O => EmptyString
  | S n' => String " " (spaces n')
  end.

(** ['\n' + indent * level], with [indent] two spaces. *)
Definition newline_indent (level : nat) : string :=
  String LF (spaces (2 * level)).

(** The text the encoder yields for [o] at nesting [level]: the items of a
    list or of a dictionary each on a line of its own, [',' + newline_indent]
    between them, [': '] between a key and its value. *)
Fixpoint encode (level : nat) (o : json) {struct o} : string :=
  match o with
  | JInt z => int_repr z
  | JStr s => encode_basestring_ascii s
  | JList [] => "[]"
  | JList items =>
      "[" ++ newline_indent (S level)
      ++ String.concat ("," ++ newline_indent (S level))
                       (map (encode (S level)) items)
      ++ newline_indent level ++ "]"
  | JDict [] => "{}"
  | JDict items =>
      "{" ++ newline_indent (S level)
      ++ String.concat ("," ++ newline_indent (S level))
           (map (fun kv => encode_basestring_ascii (fst kv) ++ ": "
                           ++ encode (S level) (snd kv)) items)
      ++ newline_indent level ++ "}"
  end.

(** [json.dump(obj, f, indent=2)] on a file just opened for writing. *)
Definition json_dump (obj : json) (path : string) : IO unit :=
  write_file path (encode 0 obj).

(** ** [json.loads] on the JSON that the converter writes

    The decoder is modelled on objects, arrays, strings without escape
    sequences and integers.  [None] stands both for a text [json.loads]
    rejects and for a text outside this fragment (a float, a literal such
    as [null], an escape sequence in a string). *)

(** The white space of JSON. *)
Definition json_ws (c : ascii) : bool :=
  Ascii.eqb c " " || Ascii.eqb c "009" || Ascii.eqb c LF || Ascii.eqb c "013".

Definition skip_ws (s : string) : string := lstrip_by json_ws s.

Definition is_digit (c : ascii) : bool :=
  match digit_value c with
  | Some _ => true
  | None => false
  end.

(** The longest run of digits at the head of [s], and what follows it. *)
Fixpoint span_digits (s : string) : string * string :=
  match s with
  | EmptyString => (EmptyString, EmptyString)
  | String c s' =>
      if is_digit c then
        let (digits, rest) := span_digits s' in (String c digits, rest)
      else (EmptyString, s)
  end.

(** The integer part of a number at the head of [s]: an optional minus
    sign, then either [0] or a digit from 1 to 9 and the digits after it. *)
Definition match_integer (s : string) : option (string * string) :=
  let (sign, s1) :=
    match s with
    | String c r => if Ascii.eqb c "-" then ("-", r) else (EmptyString, s)
    | EmptyString => (EmptyString, s)
    end in
  match s1 with
  | EmptyString => None
  | String c r =>
      if Ascii.eqb c "0" then Some (sign ++ "0", r)
      else if is_digit c then
        let (digits, rest) := span_digits r in Some (sign ++ String c digits, rest)
      else None
  end.

(** A number: the integer part, read by [int]; with a fraction or an
    exponent after it the number is a float. *)
Definition scan_number (s : string) : option (json * string) :=
  match match_integer s with
  | None => None
  | Some (integer, rest) =>
      let float :=
        match rest with
        | String c _ => Ascii.eqb c "." || Ascii.eqb c "e" || Ascii.eqb c "E"
        | EmptyString => false
        end in
      if float then None
      else option_map (fun z => (JInt z, rest)) (int_value integer)
  end.

(** The characters of a string up to its closing quote, after the opening
    one. *)
Fixpoint scan_string (s : string) : option (string * string) :=
  match s with
  | EmptyString => None
  | String c s' =>
      if Ascii.eqb c DQUOTE then Some (EmptyString, s')
      else if Ascii.eqb c "\" then None
      else if (N_of_ascii c <? 32)%N then None
      else option_map (fun '(t, rest) => (String c t, rest)) (scan_string s')
  end.

(** The items of an array from the first one on: a value, then [,] and the
    next value or [[]]] and the end. *)
Fixpoint parse_array_items (scan : string -> option (json * string))
    (fuel : nat) (s : string) : option (list json * string) :=
  match fuel with
  | O => None
  | S fuel' =>
      match scan s with
      | None => None
      | Some (value, rest) =>
          match skip_ws rest with
          | EmptyString => None
          | String c rest' =>
              if Ascii.eqb c "]" then Some ([value], rest')
              else if Ascii.eqb c "," then
                option_map (fun '(values, rest'') => (value :: values, rest''))
                           (parse_array_items scan fuel' (skip_ws rest'))
              else None
          end
      end
  end.

(** An array, after its opening bracket. *)
Definition parse_array (scan : string -> option (json * string)) (s : string)
  : option (json * string) :=
  match skip_ws s with
  | EmptyString => None
  | String c rest as s' =>
      if Ascii.eqb c "]" then Some (JList [], rest)
      else option_map (fun '(values, rest') => (JList values, rest'))
                      (parse_array_items scan (String.length s') s')
  end.

(** The pairs of an object from the first one on: a key, a colon, a value,
    then [,] and the next pair or [}] and the end. *)
Fixpoint parse_object_items (scan : string -> option (json * string))
    (fuel : nat) (s : string) : option (list (string * json) * string) :=
  match fuel with
  | O => None
  | S fuel' =>
      match s with
      | EmptyString => None
      | String q r =>
          if negb (Ascii.eqb q DQUOTE) then None
          else
            match scan_string r with
            | None => None
            | Some (key, r1) =>
                match skip_ws r1 with
                | EmptyString => None
                | String colon r2 =>
                    if negb (Ascii.eqb colon ":") then None
                    else
                      match scan (skip_ws r2) with
                      | None => None
                      | Some (value, r3) =>
                          match skip_ws r3 with
                          | EmptyString => None
                          | String c r4 =>
                              if Ascii.eqb c "}" then Some ([(key, value)], r4)
                              else if Ascii.eqb c "," then
                                option_map
                                  (fun '(pairs, r5) => ((key, value) :: pairs, r5))
                                  (parse_object_items scan fuel' (skip_ws r4))
                              else None
                          end
                      end
                end
            end
      end
  end.

(** [d[key] = value] on the items of a dictionary: a key keeps the place of
    its first insertion. *)
Fixpoint dict_set (key : string) (value : json) (items : list (string * json))
  : list (string * json) :=
  match items with
  | [] => [(key, value)]
  | (k, v) :: items' =>
      if String.eqb k key then (k, value) :: items'
      else (k, v) :: dict_set key value items'
  end.

Definition dict_of_pairs (pairs : list (string * json)) : list (string * json) :=
  fold_left (fun items kv => dict_set (fst kv) (snd kv) items) pairs [].

(** An object, after its opening brace. *)
Definition parse_object (scan : string -> option (json * string)) (s : string)
  : option (json * string) :=
  match skip_ws s with
  | EmptyString => None
  | String c rest as s' =>
      if Ascii.eqb c "}" then Some (JDict [], rest)
      else option_map (fun '(pairs, rest') => (JDict (dict_of_pairs pairs), rest'))
                      (parse_object_items scan (String.length s') s')
  end.

(** The value at the head of [s]; [depth] bounds the nesting. *)
Fixpoint scan_once (depth : nat) (s : string) : option (json * string) :=
  match depth with
  | O => None
  | S depth' =>
      match s with
      | EmptyString => None
      | String c r =>
          if Ascii.eqb c DQUOTE then
            option_map (fun '(t, rest) => (JStr t, rest)) (scan_string r)
          else if Ascii.eqb c "{" then parse_object (scan_once depth') r
          else if Ascii.eqb c "[" then parse_array (scan_once depth') r
          else scan_number s
      end
  end.

(** [json.loads(s)]: one value, white space around it, nothing else.  A
    text nests no deeper than it is long. *)
Definition json_loads (s : string) : option json :=
  let s0 := skip_ws s in
  match scan_once (String.length s0) s0 with
  | None => None
  | Some (obj, rest) =>
      match skip_ws rest with
      | EmptyString => Some obj
      | String _ _ => None
      end
  end.

(** ** [convert_to_json] *)

Record statistics : Type := {
  total_cells : Z;
  ground_only : Z;
  elevated : Z;
  total_blocks : Z
}.

(** [sum(1 for row in heightmap for val in row if val == 0)] *)
Definition count_ground_only (heightmap : list (list Z)) : Z :=
  sum (flat_map (fun row =>
         flat_map (fun val => if val =? 0 then [1] else []) row) heightmap).

(** The three nested loops that count the blocks. *)
Definition count_total_blocks (heightmap : list (list Z)) : Z :=
  fold_left (fun total row =>
    fold_left (fun total val =>
      fold_left (fun total z => if bit_set val z then total + 1 else total)
                (range 9) total)
      row total)
    heightmap 0.

(** The statistics part of [convert_to_json]. *)
Definition calculate_statistics (heightmap : list (list Z))
  : outcome statistics :=
  (row0 <- getitem0 heightmap ;;
   let total_cells := len heightmap * len row0 in
   let ground_only := count_ground_only heightmap in
   let elevated := total_cells - ground_only in
   let total_blocks := count_total_blocks heightmap in
   Returned {| total_cells := total_cells; ground_only := ground_only;
               elevated := elevated; total_blocks := total_blocks |})%O.

(** [100 * count / total_cells] inside a [print]: only the exception is
    kept. *)
Definition percentage (count total : Z) : outcome unit :=
  if total =? 0 then Raised ZeroDivisionError_division else Returned tt.

(** The [print] calls of the report. *)
Definition print_statistics (st : statistics) : outcome unit :=
  (_ <- percentage (ground_only st) (total_cells st) ;;
   _ <- percentage (elevated st) (total_cells st) ;;
   Returned tt)%O.

Definition grid_json (heightmap : list (list Z)) : json :=
  JList (map (fun row => JList (map JInt row)) heightmap).

(** The dictionary [map_data], keys in the order of the source. *)
Definition map_data (heightmap : list (list Z)) : outcome json :=
  (row0 <- getitem0 heightmap ;;
   Returned (JDict
     [ ("name", JStr "Ant Attack Original");
       ("width", JInt (len row0));
       ("height", JInt (len heightmap));
       ("maxLevels", JInt 9);
       ("heightMap", grid_json heightmap);
       ("blocks", JList []);
       ("ramps", JList []);
       ("createdAt", JStr "2025-01-01T00:00:00Z") ]))%O.

Definition convert_to_json (heightmap : list (list Z)) (output_file : string)
  : IO unit :=
  (st <- lift (calculate_statistics heightmap) ;;
   lift (print_statistics st) ;;
   data <- lift (map_data heightmap) ;;
   json_dump data output_file)%IO.

(** ** [main] *)

Definition scad_file : string := "AntAttack3D/map.scad".
Definition output_file : string := "AntAttack3D/ant_attack_original.json".
Definition test_values : list Z := [0; 15; 63; 59; 31].

(** What the last loop of [main] decodes and prints. *)
Definition sample_decoding : list (Z * list Z) :=
  map (fun val => (val, decode val)) test_values.

Definition main : IO unit :=
  (heightmap <- parse_scad_map scad_file ;;
   convert_to_json heightmap output_file ;;
   io_ret tt)%IO.

(** * The vocabulary of the specification *)

(** ** Grids *)

(** A non-empty grid has a first row, and that row has a cell: the grids for
    which [total_cells] is not 0, which section 4.3 of the specification
    asks of the caller ("zero rows or first row has zero columns" is what
    it excludes). *)
Definition non_empty (heightmap : list (list Z)) : Prop :=
  match heightmap with
  | [] => False
  | row0 :: _ => row0 <> []
  end.

(** All rows are as long as the first one. *)
Definition rectangular (heightmap : list (list Z)) : Prop :=
  forall row, In row heightmap -> len row = len (hd [] heightmap).

(** The cells of a grid, row after row. *)
Definition cells (heightmap : list (list Z)) : list Z :=
  List.concat heightmap.

(** ** Texts *)

(** Every character of [s] passes the test [p]. *)
Fixpoint all_chars (p : ascii -> bool) (s : string) : bool :=
  match s with
  | EmptyString => true
  | String c s' => p c && all_chars p s'
  end.

(** The characters of the decimal form of an integer. *)
Definition numeric_char (c : ascii) : bool := is_digit c || Ascii.eqb c "-".

(** What can follow a value in the text the encoder writes: nothing, a
    comma or a line feed. *)
Definition ends_value (rest : string) : Prop :=
  match rest with
  | EmptyString => True
  | String c _ => c = ","%char \/ c = LF
  end.

(** The decoder at nesting [depth] reads the encoding of [v] at [level]
    back as [v], whatever ends the value after it, and the encoding begins
    with no white space. *)
Definition reads_back (depth level : nat) (v : json) : Prop :=
  forall rest, ends_value rest ->
    scan_once depth (encode level v ++ rest) = Some (v, rest)
    /\ skip_ws (encode level v ++ rest) = encode level v ++ rest.

(** A string the encoder writes as it is, between quotes. *)
Definition plain_char (c : ascii) : bool :=
  let n := N_of_ascii c in
  ((32 <=? n) && (n <=? 126) && negb (n =? 34) && negb (n =? 92))%N.

(** ** Markers *)

(** The text has the start marker, and the end marker somewhere after it. *)
Definition has_marker_pair (content : string) : Prop :=
  exists a b c, content = a ++ "map=[" ++ b ++ "];" ++ c.

(** [lit] is at the head of [rest], and at no earlier position of
    [pre ++ rest]. *)
Fixpoint starts_first (lit pre rest : string) : bool :=
  match pre with
  | EmptyString => String.prefix lit rest
  | String _ pre' =>
      negb (String.prefix lit (pre ++ rest)) && starts_first lit pre' rest
  end.

(** In [pre ++ "map=[" ++ span ++ "];" ++ post] the start marker shown is
    the first one of the text, and the end marker shown is the first one
    after it. *)
Definition delimits (pre span post : string) : bool :=
  starts_first "map=[" pre ("map=[" ++ span ++ "];" ++ post)
  && starts_first "];" span ("];" ++ post).

(** ** Data rows, as the loop of the parser takes them *)

(** A line is a data row if, once trimmed, it begins with a bracket. *)
Definition is_data_row (line : string) : bool :=
  startswith (strip line) "[".

(** The line without the brackets and commas around it. *)
Definition row_text (line : string) : string :=
  strip_chars (strip line) "[],".

(** The tokens of a line: the pieces between commas, trimmed, the empty ones
    dropped. *)
Definition row_tokens (line : string) : list string :=
  filter truthy (map strip (split "," (row_text line))).

(** The token lists of the lines for which the loop appends a row, in the
    order of the lines: the data rows that have something between their
    brackets and commas. *)
Definition data_rows (span : string) : list (list string) :=
  map row_tokens
      (filter (fun line => is_data_row line && truthy (row_text line))
              (split LF span)).

Definition is_integer (token : string) : bool :=
  match int_value token with
  | Some _ => true
  | None => false
  end.

Definition integer_of (token : string) : Z :=
  match int_value token with
  | Some z => z
  | None => 0
  end.

(** The loop over the lines of the span in closed form: the tokens of
    those lines as integers, or the failure on the first token that is not
    one. *)
Definition expected_rows (span : string) : outcome (list (list Z)) :=
  match find (fun token => negb (is_integer token)) (List.concat (data_rows span)) with
  | Some token => Raised (ValueError_invalid_literal token)
  | None => Returned (map (map integer_of) (data_rows span))
  end.

(** The two line ends: a line feed, and a carriage return with a line
    feed. *)
Definition NL : string := String LF EmptyString.

Definition CRLF : string := String "013" NL.

(** The text of the specification's example: the two rows [[0,15],] and
    [[63,59]] on lines of their own between the markers. *)
Definition example_span : string :=
  NL ++ "[0,15]," ++ NL ++ "[63,59]" ++ NL.

Definition example_text : string := "map=[" ++ example_span ++ "];".

(** A text with one row of one cell, the integer [z] in decimal. *)
Definition single_cell_text (z : Z) : string :=
  "map=[" ++ NL ++ "[" ++ int_repr z ++ "]" ++ NL ++ "];".

(** A text with a negative cell, a cell above 511 and rows of different
    lengths. *)
Definition ragged_text : string :=
  "map=[" ++ NL ++ "[-5,600]," ++ NL ++ "[1]" ++ NL ++ "];".

(** ** Rows, in the words of the specification *)

(** The white space that trimming removes: the characters from the tab to
    the carriage return, the four separators, the blank, the next-line
    character and the no-break space. *)
Definition white_space : list ascii :=
  ["009"; "010"; "011"; "012"; "013"; "028"; "029"; "030"; "031"; "032";
   "133"; "160"]%char.

Definition brackets_and_commas : list ascii := ["["; "]"; ","]%char.

Definition one_of (chars : list ascii) (c : ascii) : bool :=
  existsb (Ascii.eqb c) chars.

Fixpoint reversed (s : string) : string :=
  match s with
  | EmptyString => EmptyString
  | String c s' => reversed s' ++ String c EmptyString
  end.

(** [s] from its first character that is not one of [chars]. *)
Fixpoint without_leading (chars : list ascii) (s : string) : string :=
  match s with
  | EmptyString => EmptyString
  | String c s' => if one_of chars c then without_leading chars s' else s
  end.

(** [s] up to its last character that is not one of [chars]. *)
Definition without_trailing (chars : list ascii) (s : string) : string :=
  reversed (without_leading chars (reversed s)).

(** [s] without the characters of [chars] at its two ends. *)
Definition trimmed (chars : list ascii) (s : string) : string :=
  without_trailing chars (without_leading chars s).

(** The pieces of [s] between the occurrences of [sep]; [piece] is what has
    been read of the current piece. *)
Fixpoint pieces_from (sep : ascii) (piece s : string) : list string :=
  match s with
  | EmptyString => [piece]
  | String c s' =>
      if Ascii.eqb c sep then piece :: pieces_from sep EmptyString s'
      else pieces_from sep (piece ++ String c EmptyString) s'
  end.

Definition pieces (sep : ascii) (s : string) : list string :=
  pieces_from sep EmptyString s.

(** The span, line by line. *)
Definition lines_of (span : string) : list string := pieces "010" span.

(** A line is a data row iff, after trimming white space, it begins with an
    opening bracket. *)
Definition is_row_line (line : string) : bool :=
  match trimmed white_space line with
  | String "[" _ => true
  | _ => false
  end.

(** The tokens of a data row: the line trimmed, without the brackets and
    commas at its ends, split on commas; each piece trimmed, the empty ones
    dropped. *)
Definition tokens_of (line : string) : list string :=
  filter (fun token => negb (String.eqb token EmptyString))
         (map (trimmed white_space)
              (pieces "," (trimmed brackets_and_commas
                                   (trimmed white_space line)))).

(** A token as a base-10 integer: decimal digits, after a minus sign for a
    negative one, read by the library of decimal numbers. *)
Definition base10 (token : string) : option Z :=
  option_map Z.of_int (NilZero.int_of_string token).

Fixpoint every {A} (l : list (option A)) : option (list A) :=
  match l with
  | [] => Some []
  | None :: _ => None
  | Some a :: l' =>
      match every l' with
      | Some r => Some (a :: r)
      | None => None
      end
  end.

(** The row of a data row: its tokens as base-10 integers, if they all are
    such. *)
Definition row_of (line : string) : option (list Z) :=
  every (map base10 (tokens_of line)).

(** The grid that the specification asks for: the rows of the data rows of
    the span, in the order of the lines; the other lines give nothing. *)
Definition claimed_rows (span : string) : option (list (list Z)) :=
  every (map row_of (filter is_row_line (lines_of span))).

(** Some row of the grid has no cell. *)
Definition has_empty_row (g : list (list Z)) : bool :=
  existsb (fun row => match row with [] => true | _ :: _ => false end) g.

(** ** Documents *)

Definition dict_keys (doc : json) : list string :=
  match doc with
  | JDict items => map fst items
  | _ => []
  end.

Fixpoint assoc (key : string) (items : list (string * json)) : option json :=
  match items with
  | [] => None
  | (k, v) :: items' => if String.eqb k key then Some v else assoc key items'
  end.

Definition dict_get (key : string) (doc : json) : option json :=
  match doc with
  | JDict items => assoc key items
  | _ => None
  end.

Definition two_digits (a b : ascii) : option Z :=
  match digit_value a, digit_value b with
  | Some x, Some y => Some (10 * x + y)
  | _, _ => None
  end.

Definition between (lo hi : Z) (v : option Z) : bool :=
  match v with
  | Some z => (lo <=? z) && (z <=? hi)
  | None => false
  end.

(** An ISO 8601 time stamp of the form [YYYY-MM-DDThh:mm:ssZ]. *)
Definition is_iso8601 (s : string) : bool :=
  match list_ascii_of_string s with
  | [y1; y2; y3; y4; d1; m1; m2; d2; a1; a2; t; h1; h2; c1; n1; n2; c2; s1; s2; z] =>
      between 0 99 (two_digits y1 y2) && between 0 99 (two_digits y3 y4)
      && Ascii.eqb d1 "-" && between 1 12 (two_digits m1 m2)
      && Ascii.eqb d2 "-" && between 1 31 (two_digits a1 a2)
      && Ascii.eqb t "T" && between 0 23 (two_digits h1 h2)
      && Ascii.eqb c1 ":" && between 0 59 (two_digits n1 n2)
      && Ascii.eqb c2 ":" && between 0 59 (two_digits s1 s2)
      && Ascii.eqb z "Z"
  | _ => false
  end.

(** The grid a JSON value stands for, if it is a list of lists of
    integers. *)
Definition as_int (o : json) : option Z :=
  match o with
  | JInt z => Some z
  | _ => None
  end.

Fixpoint all_some {A} (l : list (option A)) : option (list A) :=
  match l with
  | [] => Some []
  | Some a :: l' => option_map (cons a) (all_some l')
  | None :: _ => None
  end.

Definition as_row (o : json) : option (list Z) :=
  match o with
  | JList items => all_some (map as_int items)
  | _ => None
  end.

Definition as_grid (o : json) : option (list (list Z)) :=
  match o with
  | JList items => all_some (map as_row items)
  | _ => None
  end.

(** ** Cell codes and texts for the properties of the converter *)

(** The cell code that has a block at each of the [levels]: bit [z] set for
    each level [z]. *)
Definition levels_code (levels : list Z) : Z :=
  fold_left (fun code z => Z.lor code (Z.shiftl 1 z)) levels 0.

(** A row written as a line of the map array. *)
Definition render_row (row : list Z) : string :=
  "[" ++ String.concat "," (map int_repr row) ++ "],".

(** The number of digits of a decimal literal that [int] accepts since
    CPython 3.11, unless the interpreter is configured otherwise, and the
    integers whose decimal form is within it. *)
Definition int_max_str_digits : Z := 4300.

Definition within_int_limit (z : Z) : bool :=
  Z.abs z <? 10 ^ int_max_str_digits.

(** A grid written as a map array, one row per line. *)
Definition render_grid (heightmap : list (list Z)) : string :=
  "map=[" ++ NL
  ++ String.concat "" (map (fun row => render_row row ++ NL) heightmap)
  ++ "];".

(** * Xcode project scripts: [add_files_to_xcode.py]

    The project file is a text; the script looks markers up in it with
    [str.find] and splices new text in with slices.  The identifiers that
    [uuid.uuid4] draws are the environment's: [generate_uuid k] stands for
    the result of the [k]-th call of the function of that name.  Paths are
    POSIX paths.

    The scripts test that the project file exists apart from reading it,
    so the model of the file system tells a path that holds a text from
    one that exists and cannot be read as text. *)

(** ** The project file on disk *)

(** What reading a path that exists can fail with. *)
Inductive read_failure : Type :=
| IsADirectoryError
    (* open(path, "r") on a directory *)
| PermissionError
    (* open(path, "r") without the right to read *)
| UnicodeDecodeError.
    (* f.read() on bytes that do not decode *)

(** What a path holds: a text, or something that cannot be read as one. *)
Inductive node : Type :=
| Text (content : string)
| Unreadable (e : read_failure).

Definition disk : Type := string -> option node.

(** [open(path, "w")] followed by [f.write(content)]. *)
Definition write_text (path content : string) (w : disk) : disk :=
  fun p => if String.eqb p path then Some (Text content) else w p.

(** ** Python's slices and [str.find] *)

Fixpoint take (n : nat) (s : string) : string :=
  match n, s with
  | S n', String c s' => String c (take n' s')
  | _, _ => EmptyString
  end.

Fixpoint drop (n : nat) (s : string) : string :=
  match n, s with
  | S n', String _ s' => drop n' s'
  | _, _ => s
  end.

(** The place in [s] that a slice bound [i] stands for: a negative bound
    counts from the end, a bound outside of [s] is brought to the nearer
    end. *)
Definition slice_bound (s : string) (i : Z) : nat :=
  let n := Z.of_nat (String.length s) in
  Z.to_nat (if i <? 0 then Z.max 0 (i + n) else Z.min i n).

(** [s[:i]] *)
Definition slice_to (s : string) (i : Z) : string := take (slice_bound s i) s.

(** [s[i:]] *)
Definition slice_from (s : string) (i : Z) : string := drop (slice_bound s i) s.

(** [s.find(sub, start)]: the first index at or after [start] where [sub]
    occurs, -1 when there is none; a negative [start] counts from the
    end. *)
Definition str_find (s sub : string) (start : Z) : Z :=
  let n := Z.of_nat (String.length s) in
  let start' := if start <? 0 then Z.max 0 (start + n) else start in
  match String.index (Z.to_nat start') sub s with
  | Some i => Z.of_nat i
  | None => -1
  end.

(** [content[:pos] + text + content[pos:]] *)
Definition insert_at (content : string) (pos : Z) (text : string) : string :=
  slice_to content pos ++ text ++ slice_from content pos.

(** [os.path.basename(p)]: what follows the last slash of [p]. *)
Definition basename (p : string) : string := List.last (split "/" p) EmptyString.

(** ** Control flow of the script *)

(** How a block of [add_files_to_xcode] ends: it goes on with a value, it
    returns [False], or a dictionary lookup raises [KeyError]. *)
Inductive flow (A : Type) : Type :=
| Continue (a : A)
| ReturnFalse
| RaiseKeyError (key : string).
Arguments Continue {A} a.
Arguments ReturnFalse {A}.
Arguments RaiseKeyError {A} key.

Definition flow_bind {A B} (m : flow A) (k : A -> flow B) : flow B :=
  match m with
  | Continue a => k a
  | ReturnFalse => ReturnFalse
  | RaiseKeyError key => RaiseKeyError key
  end.

Declare Scope flow_scope.
Delimit Scope flow_scope with F.
Notation "x <- m ;; k" := (flow_bind m (fun x => k))
  (at level 61, m at next level, right associativity) : flow_scope.

(** ** The dictionaries of identifiers *)

(** A dictionary from file paths to identifiers, keys in the order of their
    first insertion. *)
Definition table : Type := list (string * string).

(** [d[key] = value] *)
Fixpoint table_set (key value : string) (d : table) : table :=
  match d with
  | [] => [(key, value)]
  | (k, v) :: d' =>
      if String.eqb k key then (k, value) :: d'
      else (k, v) :: table_set key value d'
  end.

(** [d[key]] *)
Fixpoint table_get (key : string) (d : table) : flow string :=
  match d with
  | [] => RaiseKeyError key
  | (k, v) :: d' => if String.eqb k key then Continue v else table_get key d'
  end.

(** The loop that draws two identifiers for each file, after [k] calls of
    [generate_uuid]:
    [file_refs[filepath] = generate_uuid()] and
    [build_files[filepath] = generate_uuid()]. *)
Fixpoint draw_ids (generate_uuid : nat -> string) (k : nat)
    (files_to_add : list string) (file_refs build_files : table)
  : table * table :=
  match files_to_add with
  | [] => (file_refs, build_files)
  | filepath :: rest =>
      draw_ids generate_uuid (S (S k)) rest
               (table_set filepath (generate_uuid k) file_refs)
               (table_set filepath (generate_uuid (S k)) build_files)
  end.

(** A loop [for filepath in files_to_add: text += line(filepath)]. *)
Fixpoint add_lines (line : string -> flow string) (files_to_add : list string)
    (text : string) : flow string :=
  match files_to_add with
  | [] => Continue text
  | filepath :: rest =>
      (l <- line filepath ;; add_lines line rest (text ++ l))%F
  end.

(** ** The texts the script writes *)

Definition TAB : string := String "009" EmptyString.

Definition QUOTED_GROUP : string :=
  String DQUOTE ("<group>" ++ String DQUOTE EmptyString).

(** The line of the new group among the children of the main group. *)
Definition new_group_ref (group_id group_name : string) : string :=
  TAB ++ TAB ++ TAB ++ TAB ++ group_id ++ " /* " ++ group_name ++ " */," ++ NL.

(** The lines of the files among the children of the new group. *)
Definition file_refs_str (file_refs : table) (files_to_add : list string)
  : flow string :=
  add_lines (fun filepath =>
      let filename := basename filepath in
      (ref <- table_get filepath file_refs ;;
       Continue (TAB ++ TAB ++ TAB ++ TAB ++ ref ++ " /* " ++ filename
                 ++ " */," ++ NL))%F)
    files_to_add EmptyString.

(** The entry of the new group in the [PBXGroup] section. *)
Definition new_group (group_id group_name children : string) : string :=
  NL ++ TAB ++ TAB ++ group_id ++ " /* " ++ group_name ++ " */ = {" ++ NL
  ++ TAB ++ TAB ++ TAB ++ "isa = PBXGroup;" ++ NL
  ++ TAB ++ TAB ++ TAB ++ "children = (" ++ NL
  ++ children ++ TAB ++ TAB ++ TAB ++ ");" ++ NL
  ++ TAB ++ TAB ++ TAB ++ "path = " ++ group_name ++ ";" ++ NL
  ++ TAB ++ TAB ++ TAB ++ "sourceTree = " ++ QUOTED_GROUP ++ ";" ++ NL
  ++ TAB ++ TAB ++ "};".

(** The entries of the files in the [PBXFileReference] section. *)
Definition file_refs_entries (file_refs : table) (files_to_add : list string)
  : flow string :=
  add_lines (fun filepath =>
      let filename := basename filepath in
      (ref <- table_get filepath file_refs ;;
       Continue (TAB ++ TAB ++ ref ++ " /* " ++ filename
                 ++ " */ = {isa = PBXFileReference; lastKnownFileType = sourcecode.swift; path = "
                 ++ filename ++ "; sourceTree = " ++ QUOTED_GROUP ++ "; };"
                 ++ NL))%F)
    files_to_add EmptyString.

(** The entries of the files in the [PBXBuildFile] section. *)
Definition build_files_entries (file_refs build_files : table)
    (files_to_add : list string) : flow string :=
  add_lines (fun filepath =>
      let filename := basename filepath in
      (build <- table_get filepath build_files ;;
       ref <- table_get filepath file_refs ;;
       Continue (TAB ++ TAB ++ build ++ " /* " ++ filename
                 ++ " in Sources */ = {isa = PBXBuildFile; fileRef = "
                 ++ ref ++ " /* " ++ filename ++ " */; };" ++ NL))%F)
    files_to_add EmptyString.

(** The lines of the files in the [Sources] build phase. *)
Definition sources_entries (build_files : table) (files_to_add : list string)
  : flow string :=
  add_lines (fun filepath =>
      let filename := basename filepath in
      (build <- table_get filepath build_files ;;
       Continue (TAB ++ TAB ++ TAB ++ TAB ++ build ++ " /* " ++ filename
                 ++ " in Sources */," ++ NL))%F)
    files_to_add EmptyString.

(** The lookups of the [print] calls that list the identifiers. *)
Definition print_ids (file_refs build_files : table)
    (files_to_add : list string) : flow string :=
  add_lines (fun filepath =>
      (ref <- table_get filepath file_refs ;;
       build <- table_get filepath build_files ;;
       Continue EmptyString)%F)
    files_to_add EmptyString.

(** ** The five blocks of [add_files_to_xcode] *)

(** The blocks for the main group and for the [Sources] build phase:
    [idx = content.find(marker)], [return False] when it is -1;
    [start = content.find(opener, idx)]; [end = content.find(");", start)];
    [content = content[:end] + text + content[end:]]. *)
Definition insert_before_closing (content marker opener : string)
    (text : flow string) : flow string :=
  let idx := str_find content marker 0 in
  if idx =? -1 then ReturnFalse
  else
    let list_start := str_find content opener idx in
    let list_end := str_find content ");" list_start in
    (t <- text ;; Continue (insert_at content list_end t))%F.

(** The blocks for the three sections:
    [idx = content.find(marker)], [return False] when it is -1;
    [insert_after = content.find("\n", idx) + 1];
    [content = content[:insert_after] + text + content[insert_after:]]. *)
Definition insert_after_line (content marker : string) (text : flow string)
  : flow string :=
  let idx := str_find content marker 0 in
  if idx =? -1 then ReturnFalse
  else
    (t <- text ;;
     let insert_after := str_find content NL idx + 1 in
     Continue (insert_at content insert_after t))%F.

(** What [add_files_to_xcode] makes of the content of the project file. *)
Definition updated_content (generate_uuid : nat -> string)
    (files_to_add : list string) (group_name content : string) : flow string :=
  let group_id := generate_uuid O in
  let (file_refs, build_files) := draw_ids generate_uuid 1 files_to_add [] [] in
  (_ <- print_ids file_refs build_files files_to_add ;;
   content <- insert_before_closing content "/* AntAttack3D */ = {" "children = ("
                (Continue (new_group_ref group_id group_name)) ;;
   content <- insert_after_line content "/* Begin PBXGroup section */"
                (children <- file_refs_str file_refs files_to_add ;;
                 Continue (new_group group_id group_name children)) ;;
   content <- insert_after_line content "/* Begin PBXFileReference section */"
                (file_refs_entries file_refs files_to_add) ;;
   content <- insert_after_line content "/* Begin PBXBuildFile section */"
                (build_files_entries file_refs build_files files_to_add) ;;
   insert_before_closing content "/* Sources */ = {" "files = ("
     (sources_entries build_files files_to_add))%F.

(** How a call of a script function ends. *)
Inductive call_result : Type :=
| Returns (b : bool)
| Raises_KeyError (key : string)
| Raises_FileNotFoundError (path : string)
| Raises_read_failure (e : read_failure).

(** [add_files_to_xcode(project_path, files_to_add, group_name)]: the test
    [os.path.exists(project_path)], the content read in text mode, the
    five blocks, the content written. *)
Definition add_files_to_xcode (generate_uuid : nat -> string)
    (project_path : string) (files_to_add : list string) (group_name : string)
    (w : disk) : call_result * disk :=
  match w project_path with
  | None => (Returns false, w)
  | Some (Unreadable e) => (Raises_read_failure e, w)
  | Some (Text stored) =>
      let content := universal_newlines stored in
      match updated_content generate_uuid files_to_add group_name content with
      | Continue content' => (Returns true, write_text project_path content' w)
      | ReturnFalse => (Returns false, w)
      | RaiseKeyError key => (Raises_KeyError key, w)
      end
  end.

(** [t] is [s] with characters inserted: [s] is what is left of [t] when
    the characters inserted are deleted. *)
Inductive inserted : string -> string -> Prop :=
| inserted_nil : inserted EmptyString EmptyString
| inserted_keep (c : ascii) (s t : string) :
    inserted s t -> inserted (String c s) (String c t)
| inserted_add (c : ascii) (s t : string) :
    inserted s t -> inserted s (String c t).

(** The key is in the dictionary. *)
Definition has_key (key : string) (d : table) : Prop :=
  exists v, table_get key d = Continue v.

(** * Xcode project scripts: [reorganize_xcode_folders.py]

    The script rewrites the path attribute of the entries of twelve files
    with [re.sub].  [re.escape] makes the file name a literal of the
    pattern; the names of the files and of the folders have no backslash,
    so the replacement template stands for group 1 followed by the folder,
    a slash, the file name and a semicolon. *)

(** The literal that begins the pattern: the comment with the file name,
    the equals sign and the opening brace. *)
Definition entry_head (filename : string) : string :=
  "/* " ++ filename ++ " */ = {".

(** The literal that ends the pattern: the path attribute with the file
    name.  Group 1 ends before the file name. *)
Definition path_attribute (filename : string) : string :=
  "path = " ++ filename ++ ";".

(** The middle of the pattern at the head of [s]: characters other than a
    closing brace, as many as possible, then the path attribute.  The
    result is what the class took and what follows the match. *)
Fixpoint match_attributes (filename s : string) : option (string * string) :=
  let here := option_map (pair EmptyString)
                         (match_literal (path_attribute filename) s) in
  match s with
  | EmptyString => here
  | String c s' =>
      if Ascii.eqb c "}" then here
      else
        match match_attributes filename s' with
        | Some (attrs, rest) => Some (String c attrs, rest)
        | None => here
        end
  end.

(** The whole pattern at the head of [s]: group 1 and what follows the
    match. *)
Definition match_entry (filename s : string) : option (string * string) :=
  match match_literal (entry_head filename) s with
  | None => None
  | Some s1 =>
      match match_attributes filename s1 with
      | Some (attrs, rest) => Some (entry_head filename ++ attrs ++ "path = ", rest)
      | None => None
      end
  end.

(** [re.sub(pattern, replacement, s)]: from left to right, a match is
    replaced and the search goes on after it; elsewhere a character is
    kept.  [fuel] bounds the number of steps; more than the length of [s]
    is enough. *)
Fixpoint re_sub (fuel : nat) (filename folder s : string) : string :=
  match fuel with
  | O => s
  | S fuel' =>
      match match_entry filename s with
      | Some (group1, rest) =>
          group1 ++ folder ++ "/" ++ filename ++ ";"
          ++ re_sub fuel' filename folder rest
      | None =>
          match s with
          | EmptyString => EmptyString
          | String c s' => String c (re_sub fuel' filename folder s')
          end
      end
  end.

(** The body of the loop over the mappings: the content after
    [content = re.sub(pattern, replacement, content)]. *)
Definition update_path (content : string) (mapping : string * string) : string :=
  re_sub (S (String.length content)) (fst mapping) (snd mapping) content.

Definition folder_mappings : list (string * string) :=
  [ ("AppDelegate3D.swift", "App");
    ("MainNavigationController.swift", "App");
    ("TitleScene3D.swift", "Scenes");
    ("GameScene3D.swift", "Scenes");
    ("AboutScene3D.swift", "Scenes");
    ("LeaderboardScene3D.swift", "Scenes");
    ("GameViewController3D.swift", "ViewControllers");
    ("EnemyBall.swift", "Entities");
    ("Hostage.swift", "Entities");
    ("CityMap3D.swift", "World");
    ("ConfigManager.swift", "Services");
    ("GameCenterManager.swift", "Services") ].

(** [reorganize_xcode_folders(project_path)]: the content read in text
    mode, the loop over the mappings, the content written. *)
Definition reorganize_xcode_folders (project_path : string) (w : disk)
  : call_result * disk :=
  match w project_path with
  | None => (Raises_FileNotFoundError project_path, w)
  | Some (Unreadable e) => (Raises_read_failure e, w)
  | Some (Text stored) =>
      let content := universal_newlines stored in
      let content' := fold_left update_path folder_mappings content in
      (Returns true, write_text project_path content' w)
  end.

(** ** Vocabulary for the properties of the scripts *)

(** [sub] occurs in [s]. *)
Definition occurs (sub s : string) : bool :=
  match String.index 0 sub s with
  | Some _ => true
  | None => false
  end.

(** A small project file with the five places the script looks for, a
    source of identifiers, and the files that hold the project. *)
Definition sample_project : string :=
  "/* Begin PBXBuildFile section */" ++ NL ++
  "/* End PBXBuildFile section */" ++ NL ++
  "/* Begin PBXFileReference section */" ++ NL ++
  "/* End PBXFileReference section */" ++ NL ++
  "/* Begin PBXGroup section */" ++ NL ++
  "AA /* AntAttack3D */ = {" ++ NL ++
  "children = (" ++ NL ++
  ");" ++ NL ++
  "};" ++ NL ++
  "/* End PBXGroup section */" ++ NL ++
  "BB /* Sources */ = {" ++ NL ++
  "files = (" ++ NL ++
  ");" ++ NL ++
  "};" ++ NL.

Definition sample_uuid (k : nat) : string :=
  "ID" ++ NilZero.string_of_uint (Nat.to_uint k).

Definition sample_files (content : string) : disk :=
  fun p => if String.eqb p "project.pbxproj" then Some (Text content) else None.

(** A disk where the path of the project is a directory. *)
Definition sample_bundle : disk :=
  fun p => if String.eqb p "project.pbxproj"
           then Some (Unreadable IsADirectoryError) else None.

(** * Properties *)

(** ** The bitmask decoder *)

Section Decoder.

Lemma append_loop_filter (p : Z -> bool) (l acc : list Z) :
  fold_left (fun blocks z => if p z then (blocks ++ [z])%list else blocks) l acc
  = (acc ++ filter p l)%list.
Proof.
  revert acc; induction l as [|z l IH]; intro acc; simpl.
  - now rewrite app_nil_r.
  - rewrite IH. destruct (p z); [now rewrite <- app_assoc | reflexivity].
Qed.

Lemma bit_set_testbit (val z : Z) : bit_set val z = Z.testbit val z.
Proof.
  unfold bit_set. rewrite Z.testbit_odd.
  change 1 with (Z.ones 1). rewrite Z.land_ones by lia.
  change (2 ^ 1) with 2. rewrite Zmod_odd.
  now destruct (Z.odd (Z.shiftr val z)).
Qed.

Lemma range_9 : range 9 = [0; 1; 2; 3; 4; 5; 6; 7; 8].
Proof. reflexivity. Qed.

Lemma in_range_9 (z : Z) : In z (range 9) <-> 0 <= z <= 8.
Proof. rewrite range_9; simpl; lia. Qed.

Lemma decode_filter (val : Z) : decode val = filter (Z.testbit val) (range 9).
Proof.
  unfold decode. rewrite append_loop_filter. simpl app.
  apply filter_ext. intro z. apply bit_set_testbit.
Qed.

Lemma in_decode (val z : Z) :
  In z (decode val) <-> 0 <= z <= 8 /\ Z.testbit val z = true.
Proof. now rewrite decode_filter, filter_In, in_range_9. Qed.

Lemma decode_low_bits (val : Z) : decode val = decode (val mod 512).
Proof.
  rewrite !decode_filter. apply filter_ext_in. intros z Hz.
  apply in_range_9 in Hz. change 512 with (2 ^ 9).
  rewrite Z.testbit_mod_pow2 by lia.
  replace (z <? 9) with true by (symmetry; apply Z.ltb_lt; lia).
  reflexivity.
Qed.

Lemma filter_strongly_sorted (p : Z -> bool) (l : list Z) :
  StronglySorted Z.lt l -> StronglySorted Z.lt (filter p l).
Proof.
  induction 1 as [|a l Hs IH Ha]; simpl; [constructor|].
  destruct (p a); [|assumption].
  constructor; [assumption|].
  rewrite Forall_forall in *. intros x Hx. apply Ha.
  now apply filter_In in Hx.
Qed.

Lemma decode_ascending (val : Z) : StronglySorted Z.lt (decode val).
Proof.
  rewrite decode_filter. apply filter_strongly_sorted. rewrite range_9.
  repeat (constructor; [|repeat constructor; lia]). constructor.
Qed.

Lemma high_bits_clear (c z : Z) :
  0 <= c <= 511 -> Z.testbit c z = true -> 0 <= z <= 8.
Proof.
  intros Hc Hz. split.
  - destruct (Z.neg_nonneg_cases z) as [Hn|]; [|assumption].
    now rewrite (Z.testbit_neg_r c z Hn) in Hz.
  - destruct (Z.le_gt_cases z 8) as [|Hgt]; [assumption|].
    rewrite <- (Z.mod_small c (2 ^ 9)) in Hz by (change (2 ^ 9) with 512; lia).
    rewrite Z.mod_pow2_bits_high in Hz by lia. discriminate.
Qed.

(** C1. For a cell code [c] in [0,511], [decode c] is the ascending list of
    the positions [z] in 0..8 whose bit is set in [c], and a position is in
    the list exactly when its bit is set; [decode] of 0, 511, 15, 63 and 59
    are the lists the specification gives.  [decode] is a function on all
    integers (it raises nothing), and on any integer [v] it looks at bits
    0..8 only: the result is that of [v mod 512]. *)
Theorem decode_bit_positions (c : Z) :
  0 <= c <= 511 ->
  decode c = filter (Z.testbit c) [0; 1; 2; 3; 4; 5; 6; 7; 8]
  /\ StronglySorted Z.lt (decode c)
  /\ (forall z, In z (decode c) <-> Z.testbit c z = true)
  /\ decode 0 = []
  /\ decode 511 = [0; 1; 2; 3; 4; 5; 6; 7; 8]
  /\ decode 15 = [0; 1; 2; 3]
  /\ decode 63 = [0; 1; 2; 3; 4; 5]
  /\ decode 59 = [0; 1; 3; 4; 5]
  /\ (forall v, decode v = filter (Z.testbit v) [0; 1; 2; 3; 4; 5; 6; 7; 8]
                /\ decode v = decode (v mod 512)
                /\ (forall z, In z (decode v)
                              <-> 0 <= z <= 8 /\ Z.testbit v z = true)).
Proof.
  intro Hc. rewrite <- range_9.
  split; [apply decode_filter|].
  split; [apply decode_ascending|].
  split.
  { intro z. rewrite in_decode. split; [tauto|].
    intro Hz. split; [eapply high_bits_clear; eassumption | assumption]. }
  repeat (split; [reflexivity|]).
  intro v. split; [apply decode_filter|].
  split; [apply decode_low_bits | intro z; apply in_decode].
Qed.

Lemma decode_bit_positions_witness :
  0 <= 59 <= 511 /\ decode 59 = filter (Z.testbit 59) [0; 1; 2; 3; 4; 5; 6; 7; 8].
Proof.
  split; [lia|]. apply (decode_bit_positions 59). lia.
Defined.

End Decoder.

(** ** The statistics *)

Section Statistics.

Lemma sum_from (l : list Z) (a : Z) : fold_left Z.add l a = a + sum l.
Proof.
  unfold sum. revert a. induction l as [|x l IH]; intro a; simpl; [lia|].
  rewrite IH, (IH x). lia.
Qed.

Lemma sum_cons (x : Z) (l : list Z) : sum (x :: l) = x + sum l.
Proof. unfold sum at 1. simpl. apply sum_from. Qed.

Lemma sum_app (l1 l2 : list Z) : sum (l1 ++ l2) = sum l1 + sum l2.
Proof.
  induction l1 as [|x l1 IH]; simpl; [reflexivity|].
  rewrite !sum_cons, IH. lia.
Qed.

Lemma len_cons {A} (x : A) (l : list A) : len (x :: l) = 1 + len l.
Proof. unfold len. cbn [List.length]. lia. Qed.

Lemma len_app {A} (l1 l2 : list A) : len (l1 ++ l2) = len l1 + len l2.
Proof. unfold len. rewrite List.length_app. lia. Qed.

Lemma len_nonneg {A} (l : list A) : 0 <= len l.
Proof. unfold len. lia. Qed.

Lemma flat_map_cells {B} (f : Z -> list B) (heightmap : list (list Z)) :
  flat_map (fun row => flat_map f row) heightmap = flat_map f (cells heightmap).
Proof.
  unfold cells. induction heightmap as [|row g IH]; simpl; [reflexivity|].
  now rewrite flat_map_app, IH.
Qed.

Lemma count_ground_only_cells (heightmap : list (list Z)) :
  count_ground_only heightmap
  = len (filter (fun val => val =? 0) (cells heightmap)).
Proof.
  unfold count_ground_only. rewrite flat_map_cells.
  induction (cells heightmap) as [|val l IH]; simpl; [reflexivity|].
  destruct (val =? 0); simpl; [|assumption].
  rewrite sum_cons, len_cons, IH. reflexivity.
Qed.

Lemma count_loop (p : Z -> bool) (l : list Z) (total : Z) :
  fold_left (fun total z => if p z then total + 1 else total) l total
  = total + len (filter p l).
Proof.
  revert total. induction l as [|z l IH]; intro total; simpl.
  - unfold len; simpl; lia.
  - rewrite IH. destruct (p z); [rewrite len_cons|]; lia.
Qed.

Lemma decode_bit_set (val : Z) : decode val = filter (bit_set val) (range 9).
Proof. unfold decode. now rewrite append_loop_filter. Qed.

Lemma count_row (row : list Z) (total : Z) :
  fold_left (fun total val =>
    fold_left (fun total z => if bit_set val z then total + 1 else total)
              (range 9) total) row total
  = total + sum (map (fun val => len (decode val)) row).
Proof.
  revert total. induction row as [|val row IH]; intro total.
  - simpl. unfold sum; simpl; lia.
  - cbn [fold_left map]. rewrite count_loop, IH, sum_cons, decode_bit_set. lia.
Qed.

Lemma count_total_blocks_cells (heightmap : list (list Z)) :
  count_total_blocks heightmap
  = sum (map (fun val => len (decode val)) (cells heightmap)).
Proof.
  unfold count_total_blocks, cells.
  enough (H : forall total,
    fold_left (fun total row =>
      fold_left (fun total val =>
        fold_left (fun total z => if bit_set val z then total + 1 else total)
                  (range 9) total) row total) heightmap total
    = total + sum (map (fun val => len (decode val)) (List.concat heightmap)))
    by (rewrite H; lia).
  induction heightmap as [|row g IH]; intro total.
  - simpl. unfold sum; simpl; lia.
  - cbn [fold_left List.concat]. rewrite IH, count_row, map_app, sum_app. lia.
Qed.

Lemma rectangular_cells (heightmap : list (list Z)) :
  rectangular heightmap ->
  len (cells heightmap) = len heightmap * len (hd [] heightmap).
Proof.
  unfold rectangular, cells. generalize (len (hd [] heightmap)) as n.
  intros n H. induction heightmap as [|row g IH]; [reflexivity|].
  cbn [List.concat]. rewrite len_app, len_cons, IH.
  - rewrite (H row) by now left. lia.
  - intros r Hr. apply H. now right.
Qed.

Lemma filter_partition_len {A} (p : A -> bool) (l : list A) :
  len (filter p l) + len (filter (fun x => negb (p x)) l) = len l.
Proof.
  induction l as [|x l IH]; [reflexivity|].
  cbn [filter]. destruct (p x); cbn [negb]; rewrite !len_cons; lia.
Qed.

Lemma total_cells_non_empty (row0 : list Z) (g : list (list Z)) :
  row0 <> [] -> (len (row0 :: g) * len row0 =? 0) = false.
Proof.
  intro Hrow. apply Z.eqb_neq. destruct row0 as [|c row0]; [congruence|].
  rewrite !len_cons. pose proof (len_nonneg row0). pose proof (len_nonneg g).
  nia.
Qed.

Lemma print_statistics_non_empty (row0 : list Z) (g : list (list Z))
    (st : statistics) :
  row0 <> [] -> total_cells st = len (row0 :: g) * len row0 ->
  print_statistics st = Returned tt.
Proof.
  intros Hrow Hst. unfold print_statistics, percentage.
  now rewrite Hst, (total_cells_non_empty _ _ Hrow).
Qed.

(** C4. On a non-empty rectangular grid the statistics are computed and
    reported without a failure, and: [total_blocks] is the sum over the
    cells of the length of [decode] of the cell; [ground_only] is the number
    of cells whose code is 0; [total_cells] is the number of rows times the
    length of the first row; [ground_only + elevated = total_cells].  (On
    such a grid [total_cells] is also the number of cells, and [elevated]
    the number of cells whose code is not 0.) *)
Theorem statistics_cross_check (heightmap : list (list Z)) :
  non_empty heightmap ->
  rectangular heightmap ->
  exists st,
    calculate_statistics heightmap = Returned st
    /\ print_statistics st = Returned tt
    /\ total_blocks st = sum (map (fun c => len (decode c)) (cells heightmap))
    /\ ground_only st = len (filter (fun c => c =? 0) (cells heightmap))
    /\ total_cells st = len heightmap * len (hd [] heightmap)
    /\ ground_only st + elevated st = total_cells st
    /\ total_cells st = len (cells heightmap)
    /\ elevated st = len (filter (fun c => negb (c =? 0)) (cells heightmap)).
Proof.
  intros Hne Hrect. destruct heightmap as [|row0 g]; [contradiction|].
  eexists. split; [reflexivity|].
  split; [apply (print_statistics_non_empty row0 g); [exact Hne | reflexivity]|].
  cbn [total_blocks ground_only total_cells elevated].
  split; [apply count_total_blocks_cells|].
  split; [apply count_ground_only_cells|].
  split; [reflexivity|].
  split; [lia|].
  pose proof (rectangular_cells _ Hrect) as Hcells. cbn [hd] in Hcells.
  split; [now rewrite Hcells|].
  rewrite count_ground_only_cells, <- Hcells.
  pose proof (filter_partition_len (fun c => c =? 0) (cells (row0 :: g))) as H.
  cbv beta in H. lia.
Qed.

Lemma statistics_cross_check_witness :
  exists st,
    calculate_statistics [[0; 15]; [63; 59]] = Returned st
    /\ total_blocks st = 15 /\ ground_only st = 1 /\ total_cells st = 4
    /\ ground_only st + elevated st = total_cells st.
Proof.
  destruct (statistics_cross_check [[0; 15]; [63; 59]]) as (st & H).
  - discriminate.
  - intros row [<-|[<-|[]]]; reflexivity.
  - exists st. intuition.
Defined.

End Statistics.

(** ** Texts *)

Section Texts.

Lemma sapp_assoc (a b c : string) : (a ++ b) ++ c = a ++ b ++ c.
Proof. induction a as [|x a IH]; simpl; [reflexivity | now rewrite IH]. Qed.

Lemma sapp_nil_r (a : string) : a ++ "" = a.
Proof. induction a as [|x a IH]; simpl; [reflexivity | now rewrite IH]. Qed.

Lemma match_literal_app (lit rest : string) :
  match_literal lit (lit ++ rest) = Some rest.
Proof.
  induction lit as [|a lit IH]; simpl; [reflexivity|].
  now rewrite Ascii.eqb_refl.
Qed.

Lemma match_literal_some (lit s rest : string) :
  match_literal lit s = Some rest -> s = lit ++ rest.
Proof.
  revert s. induction lit as [|a lit IH]; intros s H; simpl in *.
  - congruence.
  - destruct s as [|b s]; [discriminate|].
    destruct (Ascii.eqb_spec a b) as [->|]; [|discriminate].
    now rewrite (IH _ H).
Qed.

Lemma prefix_match_literal (lit s : string) :
  String.prefix lit s
  = match match_literal lit s with Some _ => true | None => false end.
Proof.
  revert s. induction lit as [|a lit IH]; intro s.
  - now destruct s.
  - destruct s as [|b s]; simpl; [reflexivity|].
    destruct (ascii_dec a b) as [->|Hab].
    + now rewrite Ascii.eqb_refl.
    + destruct (Ascii.eqb_spec a b); [contradiction | reflexivity].
Qed.

Lemma prefix_app (lit rest : string) : String.prefix lit (lit ++ rest) = true.
Proof. now rewrite prefix_match_literal, match_literal_app. Qed.

End Texts.

(** ** Reading in text mode *)

Section TextMode.

Lemma universal_newlines_other (c : ascii) (s : string) :
  Ascii.eqb c "013" = false ->
  universal_newlines (String c s) = String c (universal_newlines s).
Proof. intro H. cbn [universal_newlines]. now rewrite H. Qed.

(** A carriage return is read as a line feed; the line feed that follows
    it, if any, is taken with it. *)
Lemma universal_newlines_return (s : string) :
  (exists s', s = String "010" s'
              /\ universal_newlines (String "013" s)
                 = String "010" (universal_newlines s'))
  \/ universal_newlines (String "013" s) = String "010" (universal_newlines s).
Proof.
  destruct s as [|c s']; [now right|].
  destruct (Ascii.eqb_spec c "010") as [->|Hc]; [left; now exists s'|].
  right. destruct c as [[] [] [] [] [] [] [] []]; try reflexivity; now destruct Hc.
Qed.

(** A text without carriage returns is read as it is. *)
Lemma universal_newlines_plain (s : string) :
  all_chars (fun c => negb (Ascii.eqb c "013")) s = true ->
  universal_newlines s = s.
Proof.
  induction s as [|c s IH]; [reflexivity|].
  cbn [all_chars]. intros [Hc Hs]%andb_true_iff.
  apply negb_true_iff in Hc.
  now rewrite (universal_newlines_other _ _ Hc), (IH Hs).
Qed.

(** A literal without line feeds at the head of the text read is at the
    head of the text stored. *)
Lemma universal_newlines_head (lit s r' : string) :
  all_chars (fun c => negb (Ascii.eqb c "010")) lit = true ->
  universal_newlines s = lit ++ r' ->
  exists r, s = lit ++ r /\ universal_newlines r = r'.
Proof.
  revert s. induction lit as [|c lit IH]; intros s Hlit H.
  - now exists s.
  - cbn [all_chars] in Hlit. apply andb_true_iff in Hlit as [Hc Hlit].
    apply negb_true_iff in Hc.
    destruct s as [|d s]; [discriminate H|].
    destruct (Ascii.eqb d "013") eqn:Hd.
    + apply Ascii.eqb_eq in Hd. subst d. cbn [append] in H.
      destruct (universal_newlines_return s) as [(s' & _ & E) | E];
        rewrite E in H; injection H as <- _; discriminate Hc.
    + rewrite (universal_newlines_other _ _ Hd) in H. cbn [append] in H.
      injection H as -> H. destruct (IH s Hlit H) as (r & -> & Hr).
      now exists r.
Qed.

(** A literal without line feeds that occurs in the text read occurs in
    the text stored. *)
Lemma universal_newlines_occurs (lit a' r' s : string) :
  all_chars (fun c => negb (Ascii.eqb c "010")) lit = true ->
  universal_newlines s = a' ++ lit ++ r' ->
  exists a r, s = a ++ lit ++ r /\ universal_newlines r = r'.
Proof.
  intro Hlit. revert s. induction a' as [|x a' IH]; intros s H.
  - destruct (universal_newlines_head _ _ _ Hlit H) as (r & -> & Hr).
    now exists "", r.
  - destruct s as [|d s]; [discriminate H|].
    destruct (Ascii.eqb d "013") eqn:Hd.
    + apply Ascii.eqb_eq in Hd. subst d. cbn [append] in H.
      destruct (universal_newlines_return s) as [(s' & -> & E) | E];
        rewrite E in H; injection H as _ H;
        destruct (IH _ H) as (a & r & -> & Hr).
      * now exists (String "013" (String "010" a)), r.
      * now exists (String "013" a), r.
    + rewrite (universal_newlines_other _ _ Hd) in H. cbn [append] in H.
      injection H as _ H. destruct (IH s H) as (a & r & -> & Hr).
      now exists (String d a), r.
Qed.

(** The translation of the line ends makes no marker pair. *)
Lemma has_marker_pair_stored (content : string) :
  has_marker_pair (universal_newlines content) -> has_marker_pair content.
Proof.
  intros (a' & b' & c' & H).
  destruct (universal_newlines_occurs "map=[" _ _ _ eq_refl H)
    as (a & r & -> & Hr).
  destruct (universal_newlines_occurs "];" _ _ _ eq_refl Hr)
    as (b & c & -> & _).
  now exists a, b, c.
Qed.

End TextMode.

(** ** The regular expression *)

Section Markers.

Lemma lazy_group_sound (lit s g : string) :
  match_lazy_group lit s = Some g ->
  exists post, s = g ++ lit ++ post /\ starts_first lit g (lit ++ post) = true.
Proof.
  revert g. induction s as [|c s IH]; intros g H; cbn [match_lazy_group] in H.
  - destruct (match_literal lit "") as [rest|] eqn:Hlit; [|discriminate].
    injection H as <-. exists rest.
    split; [exact (match_literal_some _ _ _ Hlit) | apply prefix_app].
  - destruct (match_literal lit (String c s)) as [rest|] eqn:Hlit.
    + injection H as <-. exists rest.
      split; [exact (match_literal_some _ _ _ Hlit) | apply prefix_app].
    + destruct (match_lazy_group lit s) as [g'|]; [|discriminate].
      injection H as <-. destruct (IH g' eq_refl) as (post & -> & Hfirst).
      exists post. split; [reflexivity|].
      cbn [starts_first]. rewrite Hfirst, andb_true_r.
      change (String c g' ++ lit ++ post) with (String c (g' ++ lit ++ post)).
      now rewrite prefix_match_literal, Hlit.
Qed.

Lemma lazy_group_first (lit g post : string) :
  starts_first lit g (lit ++ post) = true ->
  match_lazy_group lit (g ++ lit ++ post) = Some g.
Proof.
  induction g as [|c g IH]; intro H.
  - cbn [append]. destruct (lit ++ post) as [|x r] eqn:E;
      simpl; rewrite <- E, match_literal_app; reflexivity.
  - cbn [starts_first] in H. apply andb_true_iff in H as [Hno Hfirst].
    change (String c g ++ lit ++ post) with (String c (g ++ lit ++ post)) in *.
    cbn [match_lazy_group]. rewrite prefix_match_literal in Hno.
    destruct (match_literal lit (String c (g ++ lit ++ post))); [discriminate|].
    now rewrite (IH Hfirst).
Qed.

Lemma lazy_group_complete (lit x y : string) :
  exists g, match_lazy_group lit (x ++ lit ++ y) = Some g.
Proof.
  induction x as [|c x [g IH]].
  - exists "". cbn [append]. destruct (lit ++ y) as [|a r] eqn:E;
      simpl; rewrite <- E, match_literal_app; reflexivity.
  - change (String c x ++ lit ++ y) with (String c (x ++ lit ++ y)).
    cbn [match_lazy_group].
    destruct (match_literal lit (String c (x ++ lit ++ y)));
      [now exists "" | rewrite IH; now eexists].
Qed.

Lemma match_here_app (span post : string) :
  starts_first "];" span ("];" ++ post) = true ->
  match_here ("map=[" ++ span ++ "];" ++ post) = Some span.
Proof.
  intro H. unfold match_here. rewrite match_literal_app.
  now apply lazy_group_first.
Qed.

(** After the first character of a start marker, an end marker further on
    lies after that start marker. *)
Lemma end_marker_after_start (rest pre g post : string) :
  "ap=[" ++ rest = pre ++ "map=[" ++ g ++ "];" ++ post ->
  exists x y, rest = x ++ "];" ++ y.
Proof.
  intro H.
  destruct pre as [|c1 [|c2 [|c3 [|c4 pre]]]]; simpl in H;
    try (injection H as; discriminate).
  injection H as _ _ _ _ ->.
  exists (pre ++ "map=[" ++ g), post. now rewrite sapp_assoc.
Qed.

Lemma re_search_here (s g : string) :
  match_here s = Some g -> re_search s = Some g.
Proof. intro H. destruct s; cbn [re_search]; now rewrite H. Qed.

Lemma re_search_sound (s g : string) :
  re_search s = Some g ->
  exists pre post,
    s = pre ++ "map=[" ++ g ++ "];" ++ post /\ delimits pre g post = true.
Proof.
  induction s as [|c s IH]; intro H.
  - discriminate.
  - cbn [re_search] in H.
    destruct (match_here (String c s)) as [g0|] eqn:Hhere.
    + injection H as ->. unfold match_here in Hhere.
      destruct (match_literal "map=[" (String c s)) as [rest|] eqn:Hlit;
        [|discriminate].
      apply match_literal_some in Hlit.
      destruct (lazy_group_sound _ _ _ Hhere) as (post & -> & Hfirst).
      exists "", post. split; [exact Hlit|].
      unfold delimits. cbn [starts_first]. now rewrite prefix_app, Hfirst.
    + destruct (IH H) as (pre & post & Hs & Hd).
      exists (String c pre), post. split; [now rewrite Hs|].
      unfold delimits in *. apply andb_true_iff in Hd as [Hstart Hend].
      rewrite Hend, andb_true_r. cbn [starts_first]. rewrite Hstart, andb_true_r.
      change (String c pre ++ ?r) with (String c (pre ++ r)). rewrite <- Hs.
      rewrite prefix_match_literal.
      destruct (match_literal "map=[" (String c s)) as [rest|] eqn:Hlit;
        [exfalso | reflexivity].
      unfold match_here in Hhere. rewrite Hlit in Hhere.
      apply match_literal_some in Hlit. injection Hlit as -> Hrest.
      rewrite Hs in Hrest.
      destruct (end_marker_after_start _ _ _ _ (eq_sym Hrest)) as (x & y & ->).
      destruct (lazy_group_complete "];" x y) as [g' Hg']. congruence.
Qed.

Lemma re_search_delimited (pre span post : string) :
  delimits pre span post = true ->
  re_search (pre ++ "map=[" ++ span ++ "];" ++ post) = Some span.
Proof.
  unfold delimits. intro H. apply andb_true_iff in H as [Hstart Hend].
  induction pre as [|c pre IH].
  - change ("" ++ ?r) with r. now apply re_search_here, match_here_app.
  - cbn [starts_first] in Hstart. apply andb_true_iff in Hstart as [Hno Hstart].
    change (String c pre ++ ?r) with (String c (pre ++ r)) in *.
    cbn [re_search]. unfold match_here at 1.
    rewrite prefix_match_literal in Hno.
    destruct (match_literal "map=[" _); [discriminate|].
    now apply IH.
Qed.

Lemma re_search_complete (content : string) :
  has_marker_pair content -> exists span, re_search content = Some span.
Proof.
  intros (a & b & c & ->). induction a as [|x a [span IH]].
  - destruct (lazy_group_complete "];" b c) as [g Hg].
    exists g. change ("" ++ ?r) with r. apply re_search_here.
    unfold match_here. now rewrite match_literal_app, Hg.
  - change (String x a ++ ?r) with (String x (a ++ r)).
    cbn [re_search]. destruct (match_here _); [now eexists|].
    now exists span.
Qed.

Lemma re_search_none (content : string) :
  ~ has_marker_pair content -> re_search content = None.
Proof.
  intro H. destruct (re_search content) as [g|] eqn:E; [|reflexivity].
  exfalso. apply H. destruct (re_search_sound _ _ E) as (pre & post & -> & _).
  now exists pre, g, post.
Qed.

End Markers.

(** ** The parser *)

Section Parser.

Lemma find_app {A} (f : A -> bool) (l1 l2 : list A) :
  find f (l1 ++ l2)
  = match find f l1 with Some x => Some x | None => find f l2 end.
Proof.
  induction l1 as [|x l1 IH]; simpl; [reflexivity|].
  now destruct (f x).
Qed.

Lemma numbers_of_tokens (xs : list string) :
  numbers_of xs
  = match find (fun token => negb (is_integer token))
               (filter truthy (map strip xs)) with
    | Some token => Raised (ValueError_invalid_literal token)
    | None => Returned (map integer_of (filter truthy (map strip xs)))
    end.
Proof.
  induction xs as [|x xs IH]; [reflexivity|].
  cbn [numbers_of map filter]. destruct (truthy (strip x)); [|exact IH].
  cbn [find map]. unfold int, is_integer, integer_of at 1.
  destruct (int_value (strip x)) as [z|]; [|reflexivity].
  cbn [negb obind]. rewrite IH.
  now destruct (find _ _).
Qed.

Lemma parse_lines_rows (lines : list string) (rows : list (list Z)) :
  let kept := filter (fun line => is_data_row line && truthy (row_text line))
                     lines in
  for_each parse_line lines rows
  = match find (fun token => negb (is_integer token))
               (List.concat (map row_tokens kept)) with
    | Some token => Raised (ValueError_invalid_literal token)
    | None => Returned (rows ++ map (map integer_of) (map row_tokens kept))%list
    end.
Proof.
  cbv zeta. revert rows. induction lines as [|line lines IH]; intro rows.
  - cbn. now rewrite app_nil_r.
  - cbn [for_each filter]. unfold parse_line at 1.
    fold (is_data_row line). fold (row_text line).
    destruct (is_data_row line); [|cbn [andb obind]; apply IH].
    destruct (truthy (row_text line)); [|cbn [andb obind]; apply IH].
    cbn [andb map List.concat]. rewrite find_app, numbers_of_tokens.
    fold (row_tokens line).
    destruct (find _ (row_tokens line)); [reflexivity|].
    cbn [obind]. rewrite IH. destruct (find _ _); [reflexivity|].
    now rewrite <- app_assoc.
Qed.

Lemma parse_scad_text_delimited (pre span post : string) :
  delimits pre span post = true ->
  parse_scad_text (pre ++ "map=[" ++ span ++ "];" ++ post) = expected_rows span.
Proof.
  intro H. unfold parse_scad_text. rewrite (re_search_delimited _ _ _ H).
  unfold expected_rows, data_rows. now rewrite parse_lines_rows.
Qed.

Lemma delimits_unique (pre span post pre' span' post' : string) :
  pre ++ "map=[" ++ span ++ "];" ++ post
  = pre' ++ "map=[" ++ span' ++ "];" ++ post' ->
  delimits pre span post = true -> delimits pre' span' post' = true ->
  span = span'.
Proof.
  intros E H H'. apply re_search_delimited in H, H'. congruence.
Qed.

Lemma main_parse_raises (w : files) (content : string) (e : exn) :
  w scad_file = Some content ->
  parse_scad_text (universal_newlines content) = Raised e ->
  main w = (Raised e, w).
Proof.
  intros Hfile Hparse.
  unfold main, parse_scad_map, io_bind, read_file, lift.
  now rewrite Hfile, Hparse.
Qed.

Lemma main_parse_returns (w : files) (content : string) (g : list (list Z)) :
  w scad_file = Some content ->
  parse_scad_text (universal_newlines content) = Returned g ->
  main w = convert_to_json g output_file w.
Proof.
  intros Hfile Hparse.
  unfold main, parse_scad_map, io_bind, read_file, lift at 1.
  rewrite Hfile, Hparse.
  destruct (convert_to_json g output_file w) as [[[]|e] w']; reflexivity.
Qed.

Lemma has_marker_pair_search (content : string) :
  has_marker_pair content <-> re_search content <> None.
Proof.
  split.
  - intros H. destruct (re_search_complete _ H) as [g ->]. discriminate.
  - intro H. destruct (re_search content) as [g|] eqn:E; [|congruence].
    destruct (re_search_sound _ _ E) as (pre & post & -> & _).
    now exists pre, g, post.
Qed.

Lemma example_span_delimited (pre post : string) :
  starts_first "map=[" pre (example_text ++ post) = true ->
  delimits pre example_span post = true.
Proof.
  intro H. unfold delimits. apply andb_true_iff. split; [exact H|].
  unfold example_span, NL. cbn [append starts_first].
  change (String "]" (String ";" post)) with ("];" ++ post).
  rewrite prefix_app. reflexivity.
Qed.

(** C5. When the text read from the input file does not have the start
    marker followed by the end marker (so, for one, when it has no end
    marker at all), parsing raises the [ValueError] of the missing map
    array, [main] stops there, and the files are what they were: nothing is
    written. *)
Theorem missing_markers (w : files) (content : string) :
  w scad_file = Some content ->
  ~ has_marker_pair content ->
  parse_scad_text content = Raised ValueError_no_map_array
  /\ main w = (Raised ValueError_no_map_array, w).
Proof.
  intros Hfile Hno.
  assert (Hparse : forall text, ~ has_marker_pair text ->
                     parse_scad_text text = Raised ValueError_no_map_array)
    by (intros text H; unfold parse_scad_text; now rewrite (re_search_none _ H)).
  split; [now apply Hparse|].
  apply main_parse_raises with content; [exact Hfile|].
  apply Hparse. intro H. now apply Hno, has_marker_pair_stored.
Qed.

Lemma missing_markers_witness :
  let w := fun p => if String.eqb p scad_file
                    then Some ("map=[" ++ example_span) else None in
  main w = (Raised ValueError_no_map_array, w).
Proof.
  intro w. apply (missing_markers w ("map=[" ++ example_span)).
  - reflexivity.
  - rewrite has_marker_pair_search. intro H. apply H. reflexivity.
Defined.

Lemma row_tokens_truthy (line token : string) :
  In token (row_tokens line) -> truthy (row_text line) = true.
Proof.
  unfold row_tokens. destruct (row_text line); [|reflexivity].
  cbn. tauto.
Qed.

(** C6. When a data row between the markers, in the text read from the
    input file (its content with the line ends as text mode gives them),
    has a token that is not a base-10 integer (one that [int] does not
    accept: a sign, then digits, single underscores allowed between them),
    parsing raises the [ValueError] of an invalid literal (for the first
    such token of the span), [main] stops there, and the files are what
    they were: nothing is written. *)
Theorem invalid_token (w : files) (content pre span post line token : string) :
  w scad_file = Some content ->
  universal_newlines content = pre ++ "map=[" ++ span ++ "];" ++ post ->
  delimits pre span post = true ->
  In line (split LF span) ->
  is_data_row line = true ->
  In token (row_tokens line) ->
  is_integer token = false ->
  exists bad,
    is_integer bad = false
    /\ parse_scad_text (universal_newlines content)
       = Raised (ValueError_invalid_literal bad)
    /\ main w = (Raised (ValueError_invalid_literal bad), w).
Proof.
  intros Hfile Hread Hd Hline Hrow Htoken Hbad.
  assert (Hin : In token (List.concat (data_rows span))).
  { apply in_concat. exists (row_tokens line). split; [|assumption].
    unfold data_rows. apply in_map, filter_In. split; [assumption|].
    now rewrite Hrow, (row_tokens_truthy _ _ Htoken). }
  destruct (find (fun t => negb (is_integer t)) (List.concat (data_rows span)))
    as [bad|] eqn:Hfind.
  - exists bad. pose proof (find_some _ _ Hfind) as [_ Hb].
    apply negb_true_iff in Hb.
    assert (Hparse : parse_scad_text (universal_newlines content)
                     = Raised (ValueError_invalid_literal bad)).
    { rewrite Hread, (parse_scad_text_delimited _ _ _ Hd). unfold expected_rows.
      now rewrite Hfind. }
    split; [assumption|]. split; [assumption|].
    now apply main_parse_raises with content.
  - apply (find_none _ _ Hfind) in Hin. now rewrite Hbad in Hin.
Qed.

Lemma invalid_token_witness :
  let content := "map=[" ++ CRLF ++ "[1,x,3]" ++ CRLF ++ "];" in
  let w := fun p => if String.eqb p scad_file then Some content else None in
  exists bad, main w = (Raised (ValueError_invalid_literal bad), w).
Proof.
  intros content w.
  destruct (invalid_token w content "" (NL ++ "[1,x,3]" ++ NL) "" "[1,x,3]" "x")
    as (bad & _ & _ & Hmain); try reflexivity.
  - right. left. reflexivity.
  - right. left. reflexivity.
  - exists bad. exact Hmain.
Defined.

(** C9, at the input on which the code breaks it. A line whose brackets hold
    only white space passes the test on [numbers_str] and is appended as an
    empty row, where the line [[]] is skipped; [main] then fails in the
    report with a division by zero. *)
Theorem blank_row_appended :
  parse_scad_text ("map=[" ++ NL ++ "[ ]" ++ NL ++ "];") = Returned [[]]
  /\ parse_scad_text ("map=[" ++ NL ++ "[]" ++ NL ++ "];") = Returned []
  /\ (let w := fun p => if String.eqb p scad_file
                        then Some ("map=[" ++ NL ++ "[ ]" ++ NL ++ "];")
                        else None in
      main w = (Raised ZeroDivisionError_division, w)).
Proof. repeat split; reflexivity. Qed.

End Parser.

(** ** Decimal forms *)

Section Decimals.

Lemma int_digits_step (c : ascii) (v acc : Z) (s : string) :
  Ascii.eqb c "_" = false -> digit_value c = Some v ->
  int_digits acc (String c s) = int_digits (acc * 10 + v) s.
Proof. intros Hc Hv. cbn [int_digits]. now rewrite Hc, Hv. Qed.

Lemma digits_from_positive (d : uint) (p : positive) :
  int_digits (Z.pos p) (NilEmpty.string_of_uint d)
  = Some (Z.pos (Pos.of_uint_acc d p)).
Proof.
  revert p. induction d; intro p; cbn [NilEmpty.string_of_uint Pos.of_uint_acc];
    [reflexivity | ..];
    (erewrite int_digits_step; [| reflexivity | vm_compute; reflexivity]);
    rewrite <- IHd; f_equal; lia.
Qed.

Lemma nzhead_not_zero_digit (u v : uint) : nzhead u <> D0 v.
Proof. induction u; cbn [nzhead]; try discriminate; assumption. Qed.

Lemma to_uint_head (p : positive) :
  match Pos.to_uint p with
  | Nil | D0 _ => False
  | _ => True
  end.
Proof.
  pose proof (DecimalPos.Unsigned.to_of (Pos.to_uint p)) as H.
  rewrite DecimalPos.Unsigned.of_to in H. cbn [N.to_uint] in H.
  pose proof (DecimalPos.Unsigned.to_uint_nonzero p) as Hz.
  destruct (Pos.to_uint p) as [|u| | | | | | | | |]; try exact I.
  - discriminate H.
  - unfold unorm in H. cbn [nzhead] in H.
    destruct (nzhead u) eqn:E; try discriminate H.
    + injection H as ->. now apply Hz.
    + now apply nzhead_not_zero_digit in E.
Qed.

Lemma int_unsigned_positive (p : positive) :
  int_unsigned (NilEmpty.string_of_uint (Pos.to_uint p)) = Some (Z.pos p).
Proof.
  pose proof (to_uint_head p) as Hh.
  pose proof (DecimalPos.Unsigned.of_to p) as Hv.
  destruct (Pos.to_uint p) as [|u|u|u|u|u|u|u|u|u|u]; try contradiction;
    cbn [Pos.of_uint] in Hv; injection Hv as <-;
    cbn [NilEmpty.string_of_uint int_unsigned];
    match goal with
    | |- context [digit_value ?c] =>
        let v := eval vm_compute in (digit_value c) in
        change (digit_value c) with v
    end;
    cbv iota; apply digits_from_positive.
Qed.

Lemma int_repr_positive (p : positive) :
  int_repr (Z.pos p) = NilEmpty.string_of_uint (Pos.to_uint p).
Proof.
  unfold int_repr. cbn [Z.to_int NilZero.string_of_int].
  pose proof (to_uint_head p). unfold NilZero.string_of_uint.
  now destruct (Pos.to_uint p).
Qed.

Lemma int_repr_negative (p : positive) :
  int_repr (Z.neg p) = String "-" (NilEmpty.string_of_uint (Pos.to_uint p)).
Proof.
  unfold int_repr. cbn [Z.to_int NilZero.string_of_int].
  pose proof (to_uint_head p). unfold NilZero.string_of_uint.
  now destruct (Pos.to_uint p).
Qed.

Lemma all_chars_uint (d : uint) :
  all_chars is_digit (NilEmpty.string_of_uint d) = true.
Proof. induction d; cbn; assumption || reflexivity. Qed.

Lemma all_chars_weaken (p q : ascii -> bool) (s : string) :
  (forall c, p c = true -> q c = true) ->
  all_chars p s = true -> all_chars q s = true.
Proof.
  intro Hpq. induction s as [|c s IH]; cbn; [reflexivity|].
  intro H. apply andb_true_iff in H as [Hc Hs].
  now rewrite (Hpq _ Hc), IH.
Qed.

Lemma all_chars_app (p : ascii -> bool) (s t : string) :
  all_chars p (s ++ t) = all_chars p s && all_chars p t.
Proof.
  induction s as [|c s IH]; cbn; [reflexivity|]. now rewrite IH, andb_assoc.
Qed.

Lemma all_chars_int_repr (z : Z) : all_chars numeric_char (int_repr z) = true.
Proof.
  assert (Hd : forall d, all_chars numeric_char (NilEmpty.string_of_uint d) = true).
  { intro d. apply all_chars_weaken with is_digit; [|apply all_chars_uint].
    intros c Hc. unfold numeric_char. now rewrite Hc. }
  destruct z as [|p|p].
  - reflexivity.
  - rewrite int_repr_positive. apply Hd.
  - rewrite int_repr_negative. cbn [all_chars]. now rewrite Hd.
Qed.

Lemma int_repr_truthy (z : Z) : truthy (int_repr z) = true.
Proof.
  destruct z as [|p|p]; [reflexivity | |].
  - rewrite int_repr_positive. pose proof (to_uint_head p).
    now destruct (Pos.to_uint p).
  - now rewrite int_repr_negative.
Qed.

(** What the tests of the parser and of the decoder say of a character of
    a decimal form. *)
Lemma numeric_char_tests (c : ascii) :
  numeric_char c = true ->
  isspace c = false /\ json_ws c = false /\ mem_char c "[]," = false
  /\ Ascii.eqb c "," = false /\ Ascii.eqb c LF = false
  /\ Ascii.eqb c "]" = false.
Proof.
  destruct c as [[|] [|] [|] [|] [|] [|] [|] [|]];
    intro H; try discriminate H; repeat split; reflexivity.
Qed.

Lemma lstrip_by_head (p : ascii -> bool) (c : ascii) (s : string) :
  p c = false -> lstrip_by p (String c s) = String c s.
Proof. intro H. cbn. now rewrite H. Qed.

Lemma rstrip_by_none (p : ascii -> bool) (s : string) :
  all_chars (fun c => negb (p c)) s = true -> rstrip_by p s = s.
Proof.
  induction s as [|c s IH]; cbn; [reflexivity|].
  intro H. apply andb_true_iff in H as [Hc Hs]. rewrite (IH Hs).
  apply negb_true_iff in Hc. rewrite Hc. now destruct s.
Qed.

Lemma strip_by_none (p : ascii -> bool) (s : string) :
  all_chars (fun c => negb (p c)) s = true -> strip_by p s = s.
Proof.
  intro H. unfold strip_by.
  destruct s as [|c s]; [reflexivity|].
  pose proof H as H'. cbn [all_chars] in H'. apply andb_true_iff in H' as [Hc _].
  apply negb_true_iff in Hc. rewrite (lstrip_by_head _ _ _ Hc).
  now apply rstrip_by_none.
Qed.

Lemma split_none (sep : ascii) (s : string) :
  all_chars (fun c => negb (Ascii.eqb c sep)) s = true -> split sep s = [s].
Proof.
  induction s as [|c s IH]; cbn; [reflexivity|].
  intro H. apply andb_true_iff in H as [Hc Hs].
  apply negb_true_iff in Hc. now rewrite Hc, (IH Hs).
Qed.

Lemma split_app (sep : ascii) (s t : string) :
  all_chars (fun c => negb (Ascii.eqb c sep)) s = true ->
  split sep (s ++ String sep t) = s :: split sep t.
Proof.
  induction s as [|c s IH]; cbn.
  - now rewrite Ascii.eqb_refl.
  - intro H. apply andb_true_iff in H as [Hc Hs].
    apply negb_true_iff in Hc. now rewrite Hc, (IH Hs).
Qed.

Lemma int_value_repr (z : Z) : int_value (int_repr z) = Some z.
Proof.
  unfold int_value, strip. rewrite strip_by_none.
  2:{ apply all_chars_weaken with numeric_char; [|apply all_chars_int_repr].
      intros c Hc. now rewrite (proj1 (numeric_char_tests c Hc)). }
  destruct z as [|p|p]; [reflexivity | |].
  - rewrite int_repr_positive. pose proof (int_unsigned_positive p) as Hv.
    pose proof (to_uint_head p) as Hh.
    destruct (Pos.to_uint p); try contradiction; exact Hv.
  - rewrite int_repr_negative. now rewrite int_unsigned_positive.
Qed.

End Decimals.

(** ** No validation of the values *)

Section Validation.

Lemma lazy_group_skip (s t : string) :
  all_chars (fun c => negb (Ascii.eqb c "]")) s = true ->
  match_lazy_group "];" (s ++ t)
  = option_map (append s) (match_lazy_group "];" t).
Proof.
  induction s as [|c s IH]; cbn [all_chars append].
  - intros _. now destruct (match_lazy_group "];" t).
  - intro H. apply andb_true_iff in H as [Hc Hs]. apply negb_true_iff in Hc.
    cbn [match_lazy_group match_literal]. rewrite Ascii.eqb_sym, Hc, (IH Hs).
    now destruct (match_lazy_group "];" t).
Qed.

Lemma rstrip_by_all (p : ascii -> bool) (t : string) :
  all_chars p t = true -> rstrip_by p t = EmptyString.
Proof.
  induction t as [|c t IH]; cbn [all_chars rstrip_by]; [reflexivity|].
  intro H. apply andb_true_iff in H as [Hc Ht]. now rewrite (IH Ht), Hc.
Qed.

Lemma rstrip_by_app (p : ascii -> bool) (s t : string) :
  all_chars (fun c => negb (p c)) s = true -> all_chars p t = true ->
  rstrip_by p (s ++ t) = s.
Proof.
  intros Hs Ht. induction s as [|c s IH]; cbn [append].
  - now apply rstrip_by_all.
  - cbn [all_chars] in Hs. apply andb_true_iff in Hs as [Hc Hs].
    apply negb_true_iff in Hc. cbn [rstrip_by]. rewrite (IH Hs), Hc.
    now destruct s.
Qed.

Lemma numeric_not (q : ascii -> bool) (s : string) :
  (forall c, numeric_char c = true -> q c = false) ->
  all_chars numeric_char s = true ->
  all_chars (fun c => negb (q c)) s = true.
Proof.
  intros Hq. apply all_chars_weaken. intros c Hc. now rewrite (Hq c Hc).
Qed.

Lemma parse_line_cell (z : Z) :
  parse_line [] ("[" ++ int_repr z ++ "]") = Returned [[z]].
Proof.
  pose proof (all_chars_int_repr z) as Hall.
  pose proof (int_repr_truthy z) as Hne.
  assert (Hstrip : strip ("[" ++ int_repr z ++ "]") = "[" ++ int_repr z ++ "]").
  { apply strip_by_none. cbn [append all_chars]. rewrite all_chars_app.
    rewrite (numeric_not isspace); [reflexivity | | assumption].
    intros c Hc. apply (numeric_char_tests c Hc). }
  assert (Hinner : strip_chars ("[" ++ int_repr z ++ "]") "[]," = int_repr z).
  { unfold strip_chars, strip_by. cbn [append lstrip_by].
    change (mem_char "[" "[],") with true. cbv iota.
    assert (Hl : lstrip_by (fun c => mem_char c "[],") (int_repr z ++ "]")
                 = int_repr z ++ "]").
    { destruct (int_repr z) as [|c s]; [discriminate|].
      cbn [all_chars] in Hall. apply andb_true_iff in Hall as [Hc _].
      apply lstrip_by_head. apply (numeric_char_tests c Hc). }
    rewrite Hl. apply rstrip_by_app; [|reflexivity].
    apply numeric_not; [|assumption].
    intros c Hc. apply (numeric_char_tests c Hc). }
  unfold parse_line, startswith. rewrite Hstrip, prefix_app.
  rewrite Hinner, Hne, split_none.
  2:{ apply numeric_not; [|assumption].
      intros c Hc. apply (numeric_char_tests c Hc). }
  cbn [numbers_of]. unfold strip. rewrite strip_by_none.
  2:{ apply numeric_not; [|assumption].
      intros c Hc. apply (numeric_char_tests c Hc). }
  unfold int. now rewrite Hne, int_value_repr.
Qed.

Lemma parse_single_cell (z : Z) :
  parse_scad_text (single_cell_text z) = Returned [[z]].
Proof.
  pose proof (all_chars_int_repr z) as Hall.
  assert (Hsearch : re_search (single_cell_text z)
                    = Some (NL ++ "[" ++ int_repr z ++ "]" ++ NL)).
  { apply re_search_here. unfold single_cell_text, match_here.
    rewrite match_literal_app. unfold NL. cbn [append].
    cbn [match_lazy_group match_literal].
    change (Ascii.eqb "]" LF) with false. change (Ascii.eqb "]" "[") with false.
    cbv iota. rewrite lazy_group_skip.
    - reflexivity.
    - apply numeric_not; [|assumption].
      intros c Hc. apply (numeric_char_tests c Hc). }
  unfold parse_scad_text. rewrite Hsearch. unfold NL. cbn [append split].
  rewrite Ascii.eqb_refl. change (Ascii.eqb "[" LF) with false. cbv iota.
  change (int_repr z ++ String "]" (String LF ""))
    with (int_repr z ++ "]" ++ String LF "").
  rewrite <- sapp_assoc, split_app.
  2:{ rewrite all_chars_app. rewrite (numeric_not (fun c => Ascii.eqb c LF));
        [reflexivity | | assumption].
      intros c Hc. apply (numeric_char_tests c Hc). }
  cbn [split for_each]. change (parse_line [] "") with (Returned (@nil (list Z))).
  cbn [obind].
  change (String "[" (int_repr z ++ "]")) with ("[" ++ int_repr z ++ "]").
  rewrite parse_line_cell. reflexivity.
Qed.

(** C10. The parser checks neither the range of the values nor the shape of
    the grid.  Whatever the integer [z], negative or above 511 as well, the
    text with the one row [[z]] has the marker pair and parses to the grid
    [[z]]; the text with the rows [[-5,600],] and [[1]] parses to a grid
    with a negative value, a value above 511 and rows of different lengths;
    and whenever the parser returns a grid, it is the tokens of the data
    rows as integers, unchanged. *)
Theorem no_validation :
  (forall z, has_marker_pair (single_cell_text z)
             /\ parse_scad_text (single_cell_text z) = Returned [[z]])
  /\ has_marker_pair ragged_text
  /\ parse_scad_text ragged_text = Returned [[-5; 600]; [1]]
  /\ (forall pre span post g,
        delimits pre span post = true ->
        parse_scad_text (pre ++ "map=[" ++ span ++ "];" ++ post) = Returned g ->
        g = map (map integer_of) (data_rows span)).
Proof.
  split; [|split; [|split]].
  - intro z. split; [|apply parse_single_cell].
    exists "", (NL ++ "[" ++ int_repr z ++ "]" ++ NL), "".
    unfold single_cell_text. now rewrite !sapp_assoc.
  - now exists "", (NL ++ "[-5,600]," ++ NL ++ "[1]" ++ NL), "".
  - reflexivity.
  - intros pre span post g Hd Hparse.
    rewrite (parse_scad_text_delimited _ _ _ Hd) in Hparse.
    unfold expected_rows in Hparse.
    destruct (find _ _); [discriminate | now injection Hparse].
Qed.

Lemma no_validation_witness :
  parse_scad_text (single_cell_text (-5)) = Returned [[-5]]
  /\ parse_scad_text (single_cell_text 600) = Returned [[600]]
  /\ [[-5; 600]; [1]] = map (map integer_of) (data_rows (NL ++ "[-5,600]," ++ NL ++ "[1]" ++ NL)).
Proof.
  destruct no_validation as (Hcell & _ & _ & Hrows).
  split; [apply Hcell | split; [apply Hcell|]].
  apply (Hrows "" _ ""); reflexivity.
Defined.

End Validation.

(** ** The rows of the specification *)

Section Rows.

Lemma white_space_isspace (c : ascii) : one_of white_space c = isspace c.
Proof. destruct c as [[] [] [] [] [] [] [] []]; reflexivity. Qed.

Lemma brackets_and_commas_chars (c : ascii) :
  one_of brackets_and_commas c = mem_char c "[],".
Proof. reflexivity. Qed.

Lemma lstrip_by_ext (p q : ascii -> bool) (s : string) :
  (forall c, p c = q c) -> lstrip_by p s = lstrip_by q s.
Proof.
  intro H. induction s as [|c s IH]; [reflexivity|].
  cbn [lstrip_by]. now rewrite H, IH.
Qed.

Lemma rstrip_by_ext (p q : ascii -> bool) (s : string) :
  (forall c, p c = q c) -> rstrip_by p s = rstrip_by q s.
Proof.
  intro H. induction s as [|c s IH]; [reflexivity|].
  cbn [rstrip_by]. now rewrite H, IH.
Qed.

Lemma without_leading_lstrip (chars : list ascii) (s : string) :
  without_leading chars s = lstrip_by (one_of chars) s.
Proof.
  induction s as [|c s IH]; [reflexivity|].
  cbn [without_leading lstrip_by]. now rewrite IH.
Qed.

Lemma reversed_app (s t : string) :
  reversed (s ++ t) = reversed t ++ reversed s.
Proof.
  induction s as [|c s IH]; cbn [append reversed].
  - now rewrite sapp_nil_r.
  - now rewrite IH, sapp_assoc.
Qed.

Lemma reversed_involutive (s : string) : reversed (reversed s) = s.
Proof.
  induction s as [|c s IH]; [reflexivity|].
  cbn [reversed]. now rewrite reversed_app, IH.
Qed.

Lemma rstrip_by_snoc (p : ascii -> bool) (s : string) (c : ascii) :
  rstrip_by p (s ++ String c EmptyString)
  = if p c then rstrip_by p s else s ++ String c EmptyString.
Proof.
  induction s as [|d s IH].
  - cbn [append rstrip_by]. now destruct (p c).
  - cbn [append rstrip_by]. rewrite IH. destruct (p c); [reflexivity|].
    now destruct s.
Qed.

Lemma rstrip_by_reversed (p : ascii -> bool) (r : string) :
  rstrip_by p (reversed r) = reversed (lstrip_by p r).
Proof.
  induction r as [|c r IH]; [reflexivity|].
  cbn [reversed lstrip_by]. rewrite rstrip_by_snoc.
  now destruct (p c).
Qed.

Lemma without_trailing_rstrip (chars : list ascii) (s : string) :
  without_trailing chars s = rstrip_by (one_of chars) s.
Proof.
  unfold without_trailing.
  now rewrite without_leading_lstrip, <- rstrip_by_reversed, reversed_involutive.
Qed.

Lemma trimmed_strip_by (chars : list ascii) (s : string) :
  trimmed chars s = strip_by (one_of chars) s.
Proof.
  unfold trimmed, strip_by.
  now rewrite without_trailing_rstrip, without_leading_lstrip.
Qed.

Lemma trimmed_strip (s : string) : trimmed white_space s = strip s.
Proof.
  rewrite trimmed_strip_by. unfold strip, strip_by.
  rewrite (lstrip_by_ext _ _ _ white_space_isspace).
  apply rstrip_by_ext, white_space_isspace.
Qed.

Lemma trimmed_strip_chars (s : string) :
  trimmed brackets_and_commas s = strip_chars s "[],".
Proof. apply trimmed_strip_by. Qed.

Lemma split_cons (sep : ascii) (s : string) :
  exists x xs, split sep s = x :: xs.
Proof.
  induction s as [|c s (x & xs & IH)]; [now exists "", []|].
  cbn [split]. destruct (Ascii.eqb c sep); [now eexists _, _|].
  rewrite IH. now eexists _, _.
Qed.

Lemma pieces_from_split (sep : ascii) (piece s : string) :
  pieces_from sep piece s
  = match split sep s with
    | x :: xs => (piece ++ x) :: xs
    | [] => [piece]
    end.
Proof.
  revert piece. induction s as [|c s IH]; intro piece.
  - cbn. now rewrite sapp_nil_r.
  - cbn [pieces_from split]. destruct (Ascii.eqb c sep).
    + rewrite IH, sapp_nil_r.
      destruct (split_cons sep s) as (x & xs & ->). reflexivity.
    + rewrite IH. destruct (split_cons sep s) as (x & xs & ->).
      now rewrite sapp_assoc.
Qed.

Lemma pieces_split (sep : ascii) (s : string) : pieces sep s = split sep s.
Proof.
  unfold pieces. rewrite pieces_from_split.
  now destruct (split_cons sep s) as (x & xs & ->).
Qed.

Lemma is_row_line_data_row (line : string) : is_row_line line = is_data_row line.
Proof.
  unfold is_row_line, is_data_row, startswith. rewrite trimmed_strip.
  destruct (strip line) as [|c r]; [reflexivity|].
  destruct (Ascii.eqb_spec c "[") as [->|Hc]; [now destruct r|].
  destruct c as [[] [] [] [] [] [] [] []]; try reflexivity; now destruct Hc.
Qed.

Lemma tokens_of_row_tokens (line : string) : tokens_of line = row_tokens line.
Proof.
  unfold tokens_of, row_tokens, row_text.
  rewrite trimmed_strip, trimmed_strip_chars, pieces_split.
  rewrite (map_ext _ _ trimmed_strip).
  apply filter_ext. now intros [|c t].
Qed.

Lemma int_digits_uint (d : uint) :
  int_digits 0 (NilEmpty.string_of_uint d) = Some (Z.of_uint d).
Proof.
  induction d; cbn [NilEmpty.string_of_uint];
    [reflexivity | exact IHd | ..];
    erewrite int_digits_step by reflexivity;
    cbn [Z.mul Z.add Z.of_N N.sub]; apply digits_from_positive.
Qed.

Lemma int_unsigned_uint (s : string) (d : uint) :
  NilZero.uint_of_string s = Some d ->
  int_unsigned s = Some (Z.of_uint d) /\ all_chars is_digit s = true.
Proof.
  intro H. destruct s as [|c s]; [discriminate H|].
  cbn [NilZero.uint_of_string] in H. apply NilEmpty.sus in H.
  split; [|rewrite <- H; apply all_chars_uint].
  rewrite <- (int_digits_uint d), H.
  assert (Hc : is_digit c = true).
  { pose proof (all_chars_uint d) as Hd. rewrite H in Hd.
    cbn [all_chars] in Hd. now apply andb_true_iff in Hd. }
  unfold int_unsigned.
  destruct c as [[] [] [] [] [] [] [] []]; try discriminate Hc; reflexivity.
Qed.

Lemma base10_int_value (token : string) (z : Z) :
  base10 token = Some z -> int_value token = Some z.
Proof.
  unfold base10, NilZero.int_of_string. intro H.
  destruct token as [|a s]; [discriminate H|].
  destruct (Ascii.eqb_spec a "-") as [->|Ha].
  - destruct (NilZero.uint_of_string s) as [d|] eqn:Hd; [|discriminate H].
    injection H as <-.
    destruct (int_unsigned_uint _ _ Hd) as [Hv Hall].
    unfold int_value, strip. rewrite strip_by_none.
    + now rewrite Hv.
    + cbn [all_chars]. apply andb_true_iff. split; [reflexivity|].
      apply (numeric_not isspace).
      * intros c Hc. apply (numeric_char_tests c Hc).
      * revert Hall. apply all_chars_weaken. intros c Hc.
        unfold numeric_char. now rewrite Hc.
  - destruct (NilZero.uint_of_string (String a s)) as [d|] eqn:Hd;
      [|discriminate H].
    injection H as <-.
    destruct (int_unsigned_uint _ _ Hd) as [Hv Hall].
    unfold int_value, strip. rewrite strip_by_none.
    + rewrite <- Hv. cbn [all_chars] in Hall.
      apply andb_true_iff in Hall as [Hdigit _].
      destruct a as [[] [] [] [] [] [] [] []]; try discriminate Hdigit;
        reflexivity.
    + apply (numeric_not isspace).
      * intros c Hc. apply (numeric_char_tests c Hc).
      * revert Hall. apply all_chars_weaken. intros c Hc.
        unfold numeric_char. now rewrite Hc.
Qed.

Lemma every_base10 (tokens : list string) (row : list Z) :
  every (map base10 tokens) = Some row ->
  find (fun token => negb (is_integer token)) tokens = None
  /\ map integer_of tokens = row.
Proof.
  revert row. induction tokens as [|t tokens IH]; intros row H.
  - injection H as <-. now split.
  - cbn [map every] in H.
    destruct (base10 t) as [z|] eqn:Ht; [|discriminate H].
    destruct (every (map base10 tokens)) as [r|]; [|discriminate H].
    injection H as <-. destruct (IH r eq_refl) as [Hfind Hmap].
    apply base10_int_value in Ht.
    cbn [find map]. unfold is_integer, integer_of at 1. rewrite Ht.
    cbn [negb]. split; [exact Hfind | now rewrite Hmap].
Qed.

Lemma claimed_rows_expected (lines : list string) (g : list (list Z)) :
  every (map row_of (filter is_row_line lines)) = Some g ->
  has_empty_row g = false ->
  let kept := filter (fun line => is_data_row line && truthy (row_text line))
                     lines in
  find (fun token => negb (is_integer token)) (List.concat (map row_tokens kept))
  = None
  /\ map (map integer_of) (map row_tokens kept) = g.
Proof.
  cbv zeta. revert g. induction lines as [|line lines IH]; intros g H Hrows.
  - injection H as <-. now split.
  - cbn [filter] in H |- *. rewrite is_row_line_data_row in H.
    destruct (is_data_row line); [|now apply IH].
    cbn [map every] in H. unfold row_of at 1 in H.
    rewrite tokens_of_row_tokens in H.
    destruct (every (map base10 (row_tokens line))) as [row|] eqn:Hrow;
      [|discriminate H].
    destruct (every _) as [g'|]; [|discriminate H].
    injection H as <-. cbn [has_empty_row existsb] in Hrows.
    apply orb_false_iff in Hrows as [Hne Hrows].
    destruct (IH g' eq_refl Hrows) as [Hfind Hmap].
    destruct (every_base10 _ _ Hrow) as [Hfind0 Hmap0].
    assert (Htext : truthy (row_text line) = true).
    { destruct (row_tokens line) as [|t ts] eqn:Htok.
      - cbn in Hmap0. subst row. discriminate Hne.
      - apply (row_tokens_truthy line t). rewrite Htok. now left. }
    rewrite Htext. cbn [andb map List.concat].
    rewrite find_app, Hfind0, Hfind, Hmap0, Hmap. now split.
Qed.

Lemma parse_scad_text_claimed (pre span post : string) (g : list (list Z)) :
  delimits pre span post = true ->
  claimed_rows span = Some g ->
  has_empty_row g = false ->
  parse_scad_text (pre ++ "map=[" ++ span ++ "];" ++ post) = Returned g.
Proof.
  intros Hd Hg Hrows. rewrite (parse_scad_text_delimited _ _ _ Hd).
  unfold claimed_rows, lines_of in Hg. rewrite pieces_split in Hg.
  destruct (claimed_rows_expected _ _ Hg Hrows) as [Hfind Hmap].
  unfold expected_rows, data_rows, LF. now rewrite Hfind, Hmap.
Qed.

(** C2. In a text that has the start marker and, after it, the end marker,
    the first start marker and the first end marker after it delimit a
    span.  When the data rows of that span (the lines that begin with a
    bracket once trimmed) each hold a number and their tokens (the line
    without the brackets and commas at its ends, split on commas, each
    piece trimmed, the empty pieces dropped) are base-10 integers, the
    parser returns the grid of those rows, in the order of the lines; the
    other lines give nothing.  When the text holds the specification's
    example, with no start marker before it, the result is the grid
    [[0,15],[63,59]]. *)
Theorem parse_rows_of_span (content : string) :
  has_marker_pair content ->
  (exists pre span post,
      content = pre ++ "map=[" ++ span ++ "];" ++ post
      /\ delimits pre span post = true)
  /\ (forall pre span post g,
        content = pre ++ "map=[" ++ span ++ "];" ++ post ->
        delimits pre span post = true ->
        claimed_rows span = Some g ->
        has_empty_row g = false ->
        parse_scad_text content = Returned g)
  /\ (forall pre post,
        content = pre ++ example_text ++ post ->
        starts_first "map=[" pre (example_text ++ post) = true ->
        parse_scad_text content = Returned [[0; 15]; [63; 59]]).
Proof.
  intro Hpair. split; [|split].
  - destruct (re_search_complete _ Hpair) as [span Hspan].
    destruct (re_search_sound _ _ Hspan) as (pre & post & E & Hd).
    now exists pre, span, post.
  - intros pre span post g -> Hd Hg Hrows. now apply parse_scad_text_claimed.
  - intros pre post -> Hfirst.
    change (example_text ++ post) with ("map=[" ++ example_span ++ "];" ++ post).
    apply parse_scad_text_claimed;
      [now apply example_span_delimited | reflexivity | reflexivity].
Qed.

Lemma parse_rows_of_span_witness :
  parse_scad_text ("// map" ++ NL ++ "map=[" ++ NL ++ "  [0, 15 ]," ++ NL
                   ++ NL ++ " [63,59] " ++ NL ++ "];" ++ NL)
  = Returned [[0; 15]; [63; 59]].
Proof.
  assert (Hpair : has_marker_pair
                    ("// map" ++ NL ++ "map=[" ++ NL ++ "  [0, 15 ]," ++ NL
                     ++ NL ++ " [63,59] " ++ NL ++ "];" ++ NL))
    by (exists ("// map" ++ NL),
               (NL ++ "  [0, 15 ]," ++ NL ++ NL ++ " [63,59] " ++ NL), NL;
        reflexivity).
  destruct (parse_rows_of_span _ Hpair) as (_ & H & _).
  apply (H ("// map" ++ NL)
           (NL ++ "  [0, 15 ]," ++ NL ++ NL ++ " [63,59] " ++ NL) NL);
    reflexivity.
Defined.

(** C2, as the specification words the example: a text that contains the
    example after an earlier start marker is parsed from that marker on,
    and the grid is not the example's. *)
Theorem example_after_start_marker :
  let content := "map=[" ++ NL ++ "[7]" ++ NL ++ example_text in
  has_marker_pair content
  /\ (exists pre post, content = pre ++ example_text ++ post)
  /\ parse_scad_text content = Returned [[7]; [0; 15]; [63; 59]]
  /\ parse_scad_text content <> Returned [[0; 15]; [63; 59]].
Proof.
  split; [|split; [|split]].
  - now exists "", (NL ++ "[7]" ++ NL ++ "map=[" ++ example_span), "".
  - now exists ("map=[" ++ NL ++ "[7]" ++ NL), "".
  - reflexivity.
  - discriminate.
Qed.

(** A data row that holds nothing but brackets and commas is not appended,
    where the rows of the specification have a row without cells for it:
    the parser skips the line. *)
Lemma bare_brackets_skipped :
  claimed_rows (NL ++ "[]" ++ NL) = Some [[]]
  /\ parse_scad_text ("map=[" ++ NL ++ "[]" ++ NL ++ "];") = Returned [].
Proof. split; reflexivity. Qed.

End Rows.

(** ** Reading back what the encoder writes *)

Section ReadBack.

Lemma slength_app (a b : string) :
  String.length (a ++ b) = (String.length a + String.length b)%nat.
Proof. induction a as [|c a IH]; cbn; [reflexivity | now rewrite IH]. Qed.

Lemma ends_value_tests (rest : string) :
  ends_value rest ->
  match rest with
  | EmptyString => True
  | String c _ =>
      is_digit c = false
      /\ (Ascii.eqb c "." || Ascii.eqb c "e" || Ascii.eqb c "E") = false
  end.
Proof.
  destruct rest as [|c r]; [trivial|]. intros [-> | ->]; split; reflexivity.
Qed.

Lemma span_digits_uint (d : uint) (rest : string) :
  ends_value rest ->
  span_digits (NilEmpty.string_of_uint d ++ rest)
  = (NilEmpty.string_of_uint d, rest).
Proof.
  intro Hr. induction d; cbn [NilEmpty.string_of_uint append];
    try (cbn [span_digits];
         match goal with
         | |- context [is_digit ?c] => change (is_digit c) with true
         end; cbv iota; now rewrite IHd).
  apply ends_value_tests in Hr. destruct rest as [|c r]; [reflexivity|].
  cbn [span_digits]. now rewrite (proj1 Hr).
Qed.

Lemma match_integer_positive (p : positive) (rest : string) :
  ends_value rest ->
  match_integer (NilEmpty.string_of_uint (Pos.to_uint p) ++ rest)
  = Some (NilEmpty.string_of_uint (Pos.to_uint p), rest).
Proof.
  intro Hr. pose proof (to_uint_head p) as Hh.
  destruct (Pos.to_uint p) as [|u|u|u|u|u|u|u|u|u|u]; try contradiction;
    cbn [NilEmpty.string_of_uint append]; unfold match_integer;
    match goal with
    | |- context [Ascii.eqb ?c "-"] => change (Ascii.eqb c "-") with false
    end; cbv iota;
    match goal with
    | |- context [Ascii.eqb ?c "0"] => change (Ascii.eqb c "0") with false
    end; cbv iota;
    match goal with
    | |- context [is_digit ?c] => change (is_digit c) with true
    end; cbv iota;
    now rewrite (span_digits_uint _ _ Hr).
Qed.

Lemma match_integer_repr (z : Z) (rest : string) :
  ends_value rest ->
  match_integer (int_repr z ++ rest) = Some (int_repr z, rest).
Proof.
  intro Hr. destruct z as [|p|p].
  - reflexivity.
  - rewrite int_repr_positive. now apply match_integer_positive.
  - rewrite int_repr_negative. cbn [append].
    pose proof (match_integer_positive p rest Hr) as H.
    pose proof (to_uint_head p) as Hh.
    unfold match_integer in *.
    change (Ascii.eqb "-" "-") with true. cbv iota.
    destruct (Pos.to_uint p) as [|u|u|u|u|u|u|u|u|u|u]; try contradiction;
      cbn [NilEmpty.string_of_uint append] in *;
      match type of H with
      | context [Ascii.eqb ?c "-"] => change (Ascii.eqb c "-") with false in H
      end; cbv iota in H;
      destruct (Ascii.eqb _ "0"); try discriminate H;
      destruct (is_digit _); try discriminate H;
      destruct (span_digits _) as [ds r]; now injection H as -> ->.
Qed.

Lemma scan_number_repr (z : Z) (rest : string) :
  ends_value rest ->
  scan_number (int_repr z ++ rest) = Some (JInt z, rest).
Proof.
  intro Hr. unfold scan_number. rewrite (match_integer_repr _ _ Hr).
  apply ends_value_tests in Hr. rewrite int_value_repr.
  destruct rest as [|c r]; [reflexivity|]. now rewrite (proj2 Hr).
Qed.

Lemma scan_once_numeric (d : nat) (c : ascii) (s : string) :
  numeric_char c = true ->
  scan_once (S d) (String c s) = scan_number (String c s).
Proof.
  intro H. cbn [scan_once].
  destruct c as [[|] [|] [|] [|] [|] [|] [|] [|]]; try discriminate H;
    reflexivity.
Qed.

Lemma reads_back_int (d level : nat) (z : Z) : reads_back (S d) level (JInt z).
Proof.
  intros rest Hr. cbn [encode].
  pose proof (all_chars_int_repr z) as Hall.
  pose proof (int_repr_truthy z) as Hne.
  pose proof (scan_number_repr z rest Hr) as Hscan.
  destruct (int_repr z) as [|c s]; [discriminate|].
  cbn [all_chars] in Hall. apply andb_true_iff in Hall as [Hc _].
  cbn [append] in *. split.
  - now rewrite scan_once_numeric.
  - unfold skip_ws. apply lstrip_by_head. now apply numeric_char_tests.
Qed.

Lemma skip_ws_spaces (n : nat) (s : string) : skip_ws (spaces n ++ s) = skip_ws s.
Proof. induction n as [|n IH]; [reflexivity | exact IH]. Qed.

Lemma skip_ws_newline_indent (level : nat) (s : string) :
  skip_ws (newline_indent level ++ s) = skip_ws s.
Proof. unfold newline_indent. cbn [append]. apply (skip_ws_spaces (2 * level)). Qed.

Lemma scan_once_head (d : nat) (s : string) (v : json) (r : string) :
  scan_once d s = Some (v, r) ->
  exists c s', s = String c s' /\ Ascii.eqb c "]" = false.
Proof.
  destruct d as [|d]; [discriminate|]. destruct s as [|c s']; [discriminate|].
  intro H. exists c, s'. split; [reflexivity|].
  destruct (Ascii.eqb_spec c "]") as [->|]; [discriminate H | reflexivity].
Qed.

Lemma concat_cons (sep x : string) (xs : list string) :
  String.concat sep (x :: xs)
  = match xs with [] => x | _ :: _ => x ++ sep ++ String.concat sep xs end.
Proof. reflexivity. Qed.

Lemma concat_length (sep : string) (ls : list string) :
  (1 <= String.length sep)%nat ->
  (List.length ls <= String.length (String.concat sep ls) + 1)%nat.
Proof.
  intro Hsep. induction ls as [|x [|y ls] IH]; cbn [List.length]; try lia.
  rewrite concat_cons, !slength_app. cbn [List.length] in IH. lia.
Qed.

Lemma parse_array_items_last (scan : string -> option (json * string))
    (fuel : nat) (s r r' : string) (v : json) :
  scan s = Some (v, r) -> skip_ws r = String "]" r' ->
  parse_array_items scan (S fuel) s = Some ([v], r').
Proof. intros Hs Hr. cbn [parse_array_items]. now rewrite Hs, Hr. Qed.

Lemma parse_array_items_more (scan : string -> option (json * string))
    (fuel : nat) (s r r' r'' : string) (v : json) (vs : list json) :
  scan s = Some (v, r) -> skip_ws r = String "," r' ->
  parse_array_items scan fuel (skip_ws r') = Some (vs, r'') ->
  parse_array_items scan (S fuel) s = Some (v :: vs, r'').
Proof. intros Hs Hr Hm. cbn [parse_array_items]. now rewrite Hs, Hr, Hm. Qed.

Lemma parse_array_items_encoded (d level : nat) (rest : string)
    (x : json) (xs : list json) (fuel : nat) :
  Forall (reads_back d (S level)) (x :: xs) ->
  (List.length (x :: xs) <= fuel)%nat ->
  parse_array_items (scan_once d) fuel
    (String.concat ("," ++ newline_indent (S level))
                   (map (encode (S level)) (x :: xs))
     ++ newline_indent level ++ "]" ++ rest)
  = Some (x :: xs, rest).
Proof.
  set (sep := "," ++ newline_indent (S level)).
  set (closing := newline_indent level ++ "]" ++ rest).
  revert x fuel. induction xs as [|y ys IH]; intros x fuel Hall Hfuel;
    (destruct fuel as [|fuel]; [cbn [List.length] in Hfuel; lia|]);
    inversion Hall as [|? ? Hx Hxs]; subst.
  - cbn [map String.concat]. unfold closing.
    destruct (Hx (newline_indent level ++ "]" ++ rest)) as [Hscan _];
      [now right|].
    apply parse_array_items_last with (1 := Hscan).
    now rewrite skip_ws_newline_indent.
  - cbn [map]. rewrite concat_cons. fold (map (encode (S level)) ys).
    rewrite !sapp_assoc.
    set (tail := String.concat sep (encode (S level) y :: map (encode (S level)) ys)
                 ++ closing).
    destruct (Hx (sep ++ tail)) as [Hscan _]; [now left|].
    assert (Htail : skip_ws tail = tail).
    { unfold tail. inversion Hxs as [|? ? Hy _]; subst.
      rewrite concat_cons.
      destruct (map (encode (S level)) ys) as [|e es].
      + apply (Hy closing). now right.
      + rewrite !sapp_assoc. apply (Hy (sep ++ _)). now left. }
    apply parse_array_items_more
      with (1 := Hscan) (r' := newline_indent (S level) ++ tail);
      [reflexivity|].
    rewrite skip_ws_newline_indent, Htail.
    apply (IH y fuel Hxs). cbn [List.length] in *. lia.
Qed.

Lemma encode_list_cons (level : nat) (x : json) (xs : list json) :
  encode level (JList (x :: xs))
  = "[" ++ newline_indent (S level)
    ++ String.concat ("," ++ newline_indent (S level))
                     (map (encode (S level)) (x :: xs))
    ++ newline_indent level ++ "]".
Proof. reflexivity. Qed.

Lemma reads_back_list (d level : nat) (items : list json) :
  Forall (reads_back d (S level)) items ->
  reads_back (S d) level (JList items).
Proof.
  intros Hall rest Hrest. destruct items as [|x xs]; [split; reflexivity|].
  rewrite encode_list_cons. split; [|reflexivity].
  rewrite !sapp_assoc. change ("[" ++ ?s) with (String "[" s).
  cbn [scan_once]. change (Ascii.eqb "[" DQUOTE) with false.
  change (Ascii.eqb "[" "{") with false. change (Ascii.eqb "[" "[") with true.
  cbv iota. unfold parse_array. rewrite skip_ws_newline_indent.
  set (body := String.concat _ _ ++ _).
  assert (Hfirst : skip_ws body = body
                   /\ exists r, scan_once d body = Some (x, r)).
  { unfold body. inversion Hall as [|? ? Hx _]; subst.
    cbn [map]. rewrite concat_cons.
    destruct (map (encode (S level)) xs) as [|e es].
    + destruct (Hx (newline_indent level ++ "]" ++ rest)) as [Hs Hk];
        [now right|]. split; [exact Hk | eexists; exact Hs].
    + rewrite !sapp_assoc.
      destruct (Hx (("," ++ newline_indent (S level)) ++
                    String.concat ("," ++ newline_indent (S level)) (e :: es)
                    ++ newline_indent level ++ "]" ++ rest)) as [Hs Hk];
        [now left|]. split; [exact Hk | eexists; exact Hs]. }
  destruct Hfirst as [Hskip [r Hscan]]. rewrite Hskip.
  assert (Hitems : parse_array_items (scan_once d) (String.length body) body
                   = Some (x :: xs, rest)).
  { unfold body. apply parse_array_items_encoded; [assumption|].
    rewrite <- (length_map (encode (S level)) (x :: xs)).
    pose proof (concat_length ("," ++ newline_indent (S level))
                  (map (encode (S level)) (x :: xs))) as Hlen.
    rewrite !slength_app. cbn [String.length append newline_indent] in *. lia. }
  destruct (scan_once_head d body x r Hscan) as (c & s' & Hbody & Hc).
  rewrite Hbody in *. now rewrite Hc, Hitems.
Qed.


Lemma plain_char_tests (c : ascii) :
  plain_char c = true ->
  escape_char c = String c EmptyString
  /\ Ascii.eqb c DQUOTE = false /\ Ascii.eqb c "\" = false
  /\ (N_of_ascii c <? 32)%N = false.
Proof.
  destruct c as [[|] [|] [|] [|] [|] [|] [|] [|]];
    intro H; try discriminate H; repeat split; reflexivity.
Qed.

Lemma escape_plain (s : string) :
  all_chars plain_char s = true -> escape s = s.
Proof.
  induction s as [|c s IH]; cbn [all_chars escape]; [reflexivity|].
  intro H. apply andb_true_iff in H as [Hc Hs].
  destruct (plain_char_tests c Hc) as [-> _]. now rewrite (IH Hs).
Qed.

Lemma scan_string_plain (s rest : string) :
  all_chars plain_char s = true ->
  scan_string (s ++ String DQUOTE rest) = Some (s, rest).
Proof.
  induction s as [|c s IH]; cbn [all_chars append scan_string].
  - intros _. now rewrite Ascii.eqb_refl.
  - intro H. apply andb_true_iff in H as [Hc Hs].
    destruct (plain_char_tests c Hc) as (_ & -> & -> & ->).
    now rewrite (IH Hs).
Qed.

Lemma encode_string_plain (s rest : string) :
  all_chars plain_char s = true ->
  encode_basestring_ascii s ++ rest = String DQUOTE (s ++ String DQUOTE rest).
Proof.
  intro H. unfold encode_basestring_ascii. rewrite (escape_plain _ H).
  cbn [append]. now rewrite sapp_assoc.
Qed.

Lemma reads_back_string (d level : nat) (s : string) :
  all_chars plain_char s = true -> reads_back (S d) level (JStr s).
Proof.
  intros H rest _. cbn [encode]. rewrite (encode_string_plain _ _ H).
  split; [|reflexivity].
  cbn [scan_once]. rewrite Ascii.eqb_refl. now rewrite (scan_string_plain _ _ H).
Qed.

Lemma parse_object_items_last (scan : string -> option (json * string))
    (fuel : nat) (r r1 r2 r3 r4 key : string) (v : json) :
  scan_string r = Some (key, r1) -> skip_ws r1 = String ":" r2 ->
  scan (skip_ws r2) = Some (v, r3) -> skip_ws r3 = String "}" r4 ->
  parse_object_items scan (S fuel) (String DQUOTE r) = Some ([(key, v)], r4).
Proof.
  intros H1 H2 H3 H4. cbn [parse_object_items].
  rewrite Ascii.eqb_refl. cbn [negb]. now rewrite H1, H2, H3, H4.
Qed.

Lemma parse_object_items_more (scan : string -> option (json * string))
    (fuel : nat) (r r1 r2 r3 r4 r5 key : string) (v : json)
    (pairs : list (string * json)) :
  scan_string r = Some (key, r1) -> skip_ws r1 = String ":" r2 ->
  scan (skip_ws r2) = Some (v, r3) -> skip_ws r3 = String "," r4 ->
  parse_object_items scan fuel (skip_ws r4) = Some (pairs, r5) ->
  parse_object_items scan (S fuel) (String DQUOTE r)
  = Some ((key, v) :: pairs, r5).
Proof.
  intros H1 H2 H3 H4 H5. cbn [parse_object_items].
  rewrite Ascii.eqb_refl. cbn [negb]. now rewrite H1, H2, H3, H4, H5.
Qed.

Lemma encode_pair_plain (level : nat) (kv : string * json) (rest : string) :
  all_chars plain_char (fst kv) = true ->
  (encode_basestring_ascii (fst kv) ++ ": " ++ encode (S level) (snd kv)) ++ rest
  = String DQUOTE (fst kv ++ String DQUOTE
      (String ":" (String " " (encode (S level) (snd kv) ++ rest)))).
Proof.
  intro H. rewrite sapp_assoc, (encode_string_plain _ _ H).
  now rewrite sapp_assoc.
Qed.

Lemma parse_object_items_encoded (d level : nat) (rest : string)
    (kv : string * json) (kvs : list (string * json)) (fuel : nat) :
  Forall (fun kv => all_chars plain_char (fst kv) = true
                    /\ reads_back d (S level) (snd kv)) (kv :: kvs) ->
  (List.length (kv :: kvs) <= fuel)%nat ->
  parse_object_items (scan_once d) fuel
    (String.concat ("," ++ newline_indent (S level))
       (map (fun kv => encode_basestring_ascii (fst kv) ++ ": "
                       ++ encode (S level) (snd kv)) (kv :: kvs))
     ++ newline_indent level ++ "}" ++ rest)
  = Some (kv :: kvs, rest).
Proof.
  set (sep := "," ++ newline_indent (S level)).
  set (closing := newline_indent level ++ "}" ++ rest).
  set (item := fun kv : string * json =>
                 encode_basestring_ascii (fst kv) ++ ": "
                 ++ encode (S level) (snd kv)).
  revert kv fuel. induction kvs as [|kv' kvs IH]; intros kv fuel Hall Hfuel;
    (destruct fuel as [|fuel]; [cbn [List.length] in Hfuel; lia|]);
    inversion Hall as [|? ? [Hk Hv] Hrest]; subst.
  - cbn [map String.concat]. unfold item at 1.
    rewrite (encode_pair_plain _ _ _ Hk). destruct kv as [k v]. cbn [fst snd] in *.
    destruct (Hv closing) as [Hscan Hskip]; [now right|].
    eapply parse_object_items_last.
    + now apply scan_string_plain.
    + reflexivity.
    + change (skip_ws (String " " ?s)) with (skip_ws s). rewrite Hskip.
      exact Hscan.
    + unfold closing. now rewrite skip_ws_newline_indent.
  - cbn [map]. rewrite concat_cons. fold (map item kvs).
    rewrite sapp_assoc. unfold item at 1.
    rewrite (encode_pair_plain _ _ _ Hk). destruct kv as [k v]. cbn [fst snd] in *.
    rewrite sapp_assoc.
    set (tail := String.concat sep (item kv' :: map item kvs) ++ closing).
    destruct (Hv (sep ++ tail)) as [Hscan Hskip]; [now left|].
    assert (Htail : skip_ws tail = tail).
    { unfold tail. inversion Hrest as [|? ? [Hk' _] _]; subst.
      rewrite concat_cons.
      destruct (map item kvs) as [|e es]; unfold item;
        [| rewrite sapp_assoc]; now rewrite (encode_pair_plain _ _ _ Hk'). }
    eapply parse_object_items_more.
    + now apply scan_string_plain.
    + reflexivity.
    + change (skip_ws (String " " ?s)) with (skip_ws s). rewrite Hskip.
      exact Hscan.
    + reflexivity.
    + rewrite skip_ws_newline_indent, Htail.
      apply (IH kv' fuel Hrest). cbn [List.length] in *. lia.
Qed.

Lemma dict_set_fresh (key : string) (value : json) (items : list (string * json)) :
  ~ In key (map fst items) ->
  dict_set key value items = (items ++ [(key, value)])%list.
Proof.
  induction items as [|[k v] items IH]; cbn [dict_set map fst In app];
    [reflexivity|].
  intro H. destruct (String.eqb_spec k key) as [->|_]; [tauto|].
  rewrite IH; tauto.
Qed.

Lemma dict_of_pairs_distinct (pairs : list (string * json)) :
  NoDup (map fst pairs) -> dict_of_pairs pairs = pairs.
Proof.
  unfold dict_of_pairs.
  enough (H : forall acc, NoDup (map fst (acc ++ pairs)) ->
    fold_left (fun items kv => dict_set (fst kv) (snd kv) items) pairs acc
    = (acc ++ pairs)%list) by apply (H []).
  induction pairs as [|[k v] pairs IH]; intros acc Hnd; cbn [fold_left fst snd].
  - now rewrite List.app_nil_r.
  - rewrite dict_set_fresh.
    + rewrite IH; rewrite <- List.app_assoc; [reflexivity | exact Hnd].
    + rewrite map_app in Hnd. cbn [map fst] in Hnd.
      apply NoDup_remove_2 in Hnd. intro Hin. apply Hnd.
      apply in_or_app. now left.
Qed.

Lemma encode_dict_cons (level : nat) (kv : string * json)
    (kvs : list (string * json)) :
  encode level (JDict (kv :: kvs))
  = "{" ++ newline_indent (S level)
    ++ String.concat ("," ++ newline_indent (S level))
         (map (fun kv => encode_basestring_ascii (fst kv) ++ ": "
                         ++ encode (S level) (snd kv)) (kv :: kvs))
    ++ newline_indent level ++ "}".
Proof. reflexivity. Qed.

Lemma reads_back_dict (d level : nat) (items : list (string * json)) :
  Forall (fun kv => all_chars plain_char (fst kv) = true
                    /\ reads_back d (S level) (snd kv)) items ->
  NoDup (map fst items) ->
  reads_back (S d) level (JDict items).
Proof.
  intros Hall Hnd rest Hrest. destruct items as [|kv kvs]; [split; reflexivity|].
  rewrite encode_dict_cons. split; [|reflexivity].
  rewrite !sapp_assoc. change ("{" ++ ?s) with (String "{" s).
  cbn [scan_once]. change (Ascii.eqb "{" DQUOTE) with false.
  change (Ascii.eqb "{" "{") with true.
  cbv iota. unfold parse_object. rewrite skip_ws_newline_indent.
  set (body := String.concat _ _ ++ _).
  assert (Hitems : parse_object_items (scan_once d) (String.length body) body
                   = Some (kv :: kvs, rest)).
  { unfold body. apply parse_object_items_encoded; [assumption|].
    match goal with
    | |- context [map ?f (kv :: kvs)] =>
        rewrite <- (length_map f (kv :: kvs));
        pose proof (concat_length ("," ++ newline_indent (S level))
                      (map f (kv :: kvs))) as Hlen
    end.
    rewrite !slength_app. cbn [String.length append newline_indent] in *. lia. }
  assert (Hhead : exists s', body = String DQUOTE s').
  { unfold body. inversion Hall as [|? ? [Hk _] _]; subst.
    cbn [map]. rewrite concat_cons.
    destruct (map _ kvs) as [|e es]; [| rewrite sapp_assoc];
      rewrite (encode_pair_plain _ _ _ Hk); now eexists. }
  destruct Hhead as [s' Hbody]. rewrite Hbody in *.
  cbn [skip_ws lstrip_by]. change (json_ws DQUOTE) with false. cbv iota.
  change (Ascii.eqb DQUOTE "}") with false. cbv iota.
  rewrite Hitems. cbn [option_map]. now rewrite (dict_of_pairs_distinct _ Hnd).
Qed.

Lemma reads_back_grid (d : nat) (heightmap : list (list Z)) :
  reads_back (S (S (S d))) 1 (grid_json heightmap).
Proof.
  unfold grid_json. apply reads_back_list, Forall_forall.
  intros row Hrow. apply in_map_iff in Hrow as (cells & <- & _).
  apply reads_back_list, Forall_forall.
  intros cell Hcell. apply in_map_iff in Hcell as (z & <- & _).
  apply reads_back_int.
Qed.

Lemma all_some_map {A B} (f : A -> B) (g : B -> option A) (l : list A) :
  (forall a, g (f a) = Some a) -> all_some (map g (map f l)) = Some l.
Proof.
  intro H. induction l as [|a l IH]; cbn [map all_some]; [reflexivity|].
  now rewrite H, IH.
Qed.

Lemma as_grid_grid_json (heightmap : list (list Z)) :
  as_grid (grid_json heightmap) = Some heightmap.
Proof.
  unfold grid_json, as_grid. apply all_some_map.
  intro row. cbn [as_row]. now apply all_some_map.
Qed.

Lemma json_loads_reads_back (d : nat) (v : json) :
  reads_back d 0 v -> String.length (encode 0 v) = d ->
  json_loads (encode 0 v) = Some v.
Proof.
  intros H Hd. destruct (H "" I) as [Hscan Hskip].
  rewrite sapp_nil_r in Hscan, Hskip.
  unfold json_loads. cbv zeta. now rewrite Hskip, Hd, Hscan.
Qed.

(** The document [convert_to_json] writes for a grid with a first row. *)
Lemma json_loads_document (row0 : list Z) (g : list (list Z)) :
  let doc := JDict
       [ ("name", JStr "Ant Attack Original");
         ("width", JInt (len row0));
         ("height", JInt (len (row0 :: g)));
         ("maxLevels", JInt 9);
         ("heightMap", grid_json (row0 :: g));
         ("blocks", JList []);
         ("ramps", JList []);
         ("createdAt", JStr "2025-01-01T00:00:00Z") ] in
  json_loads (encode 0 doc) = Some doc.
Proof.
  intro doc.
  destruct (String.length (encode 0 doc)) as [|[|[|[|d]]]] eqn:Hlen;
    try discriminate Hlen.
  apply json_loads_reads_back with (S (S (S (S d)))); [|exact Hlen].
  apply reads_back_dict.
  - repeat (apply Forall_cons; [split; [reflexivity|]|]);
      [apply reads_back_string; reflexivity
      | apply reads_back_int | apply reads_back_int | apply reads_back_int
      | apply reads_back_grid
      | apply reads_back_list; constructor
      | apply reads_back_list; constructor
      | apply reads_back_string; reflexivity
      | constructor].
  - cbn [map fst].
    repeat (constructor; [cbn [In]; intuition discriminate|]). constructor.
Qed.

End ReadBack.

(** ** The document and the failures of [convert_to_json] *)

Section Document.

Variable out : string.
Variable w : files.

Lemma convert_to_json_non_empty (row0 : list Z) (g : list (list Z)) :
  row0 <> [] ->
  convert_to_json (row0 :: g) out w
  = write_file out (encode 0 (JDict
       [ ("name", JStr "Ant Attack Original");
         ("width", JInt (len row0));
         ("height", JInt (len (row0 :: g)));
         ("maxLevels", JInt 9);
         ("heightMap", grid_json (row0 :: g));
         ("blocks", JList []);
         ("ramps", JList []);
         ("createdAt", JStr "2025-01-01T00:00:00Z") ])) w.
Proof.
  intro Hrow. unfold convert_to_json, io_bind, lift, calculate_statistics,
    print_statistics, percentage, map_data, json_dump, write_file.
  cbn [getitem0 obind total_cells ground_only elevated].
  rewrite (total_cells_non_empty _ _ Hrow). reflexivity.
Qed.

(** C8. For a non-empty grid the conversion writes the encoding of a
    document, which [json.loads] reads back as that document, and
    whose keys are, in this order, [name], [width], [height],
    [maxLevels], [heightMap], [blocks], [ramps] and [createdAt]: [name] is a
    string, [width] the length of the first row, [height] the number of
    rows, [maxLevels] the integer 9, [heightMap] the grid row by row,
    [blocks] and [ramps] empty lists, [createdAt] an ISO 8601 time stamp.
    A grid of 128 rows whose first row has 128 cells gives [width] 128 and
    [height] 128. *)
Theorem document_keys (heightmap : list (list Z)) :
  non_empty heightmap ->
  exists doc,
    convert_to_json heightmap out w = write_file out (encode 0 doc) w
    /\ json_loads (encode 0 doc) = Some doc
    /\ dict_keys doc = ["name"; "width"; "height"; "maxLevels"; "heightMap";
                        "blocks"; "ramps"; "createdAt"]
    /\ (exists s, dict_get "name" doc = Some (JStr s))
    /\ dict_get "width" doc = Some (JInt (len (hd [] heightmap)))
    /\ dict_get "height" doc = Some (JInt (len heightmap))
    /\ dict_get "maxLevels" doc = Some (JInt 9)
    /\ dict_get "heightMap" doc
       = Some (JList (map (fun row => JList (map JInt row)) heightmap))
    /\ dict_get "blocks" doc = Some (JList [])
    /\ dict_get "ramps" doc = Some (JList [])
    /\ (exists s, dict_get "createdAt" doc = Some (JStr s)
                  /\ is_iso8601 s = true)
    /\ (len heightmap = 128 -> len (hd [] heightmap) = 128 ->
        dict_get "width" doc = Some (JInt 128)
        /\ dict_get "height" doc = Some (JInt 128)).
Proof.
  intro Hne. destruct heightmap as [|row0 g]; [contradiction|].
  eexists. split; [apply convert_to_json_non_empty, Hne|].
  split; [apply json_loads_document|].
  cbn [hd]. repeat (split; [first [reflexivity | eexists; reflexivity]|]).
  split; [eexists; split; reflexivity|].
  intros -> ->. split; reflexivity.
Qed.

(** C3. For a non-empty grid (one whose first row has a cell, so that the
    conversion reaches the write) the conversion writes a text to the output
    file; [json.loads] reads that text as a document, and the [heightMap] of
    the document, taken as a grid, is the grid that was converted: the same
    values in the same rows in the same order. *)
Theorem height_map_round_trip (heightmap : list (list Z)) :
  non_empty heightmap ->
  exists text doc grid,
    fst (convert_to_json heightmap out w) = Returned tt
    /\ snd (convert_to_json heightmap out w) out = Some text
    /\ json_loads text = Some doc
    /\ dict_get "heightMap" doc = Some grid
    /\ as_grid grid = Some heightmap.
Proof.
  intro Hne. destruct heightmap as [|row0 g]; [contradiction|].
  rewrite (convert_to_json_non_empty row0 g Hne).
  eexists _, _, _. split; [reflexivity|].
  split; [cbn [write_file snd]; now rewrite String.eqb_refl|].
  split; [apply json_loads_document|].
  split; [reflexivity | apply as_grid_grid_json].
Qed.

(** C7, as the code has it. When the grid has no row, [convert_to_json]
    raises [IndexError] where it reads the first row, before [total_cells]
    is computed; when the grid has a first row and that row has no cell,
    [total_cells] is 0 and it raises [ZeroDivisionError] in the report.  In
    both cases no file is written. *)
Theorem zero_cells_failure (heightmap : list (list Z)) :
  ~ non_empty heightmap ->
  (heightmap = [] ->
   calculate_statistics heightmap = Raised IndexError_list_index
   /\ convert_to_json heightmap out w = (Raised IndexError_list_index, w))
  /\ (heightmap <> [] ->
      (exists st, calculate_statistics heightmap = Returned st
                  /\ total_cells st = 0)
      /\ convert_to_json heightmap out w = (Raised ZeroDivisionError_division, w)).
Proof.
  intro Hne. split.
  - intros ->. split; reflexivity.
  - intro Hrows. destruct heightmap as [|row0 g]; [congruence|].
    destruct row0 as [|c row0].
    + split; [|reflexivity]. eexists. split; [reflexivity|].
      cbn [total_cells]. change (len (@nil Z)) with 0. lia.
    + exfalso. apply Hne. discriminate.
Qed.

End Document.

Lemma document_keys_witness :
  exists doc,
    snd (convert_to_json [[0; 15]; [63; 59]] output_file (fun _ => None))
        output_file = Some (encode 0 doc)
    /\ dict_get "width" doc = Some (JInt 2)
    /\ dict_get "height" doc = Some (JInt 2).
Proof.
  destruct (document_keys output_file (fun _ => None) [[0; 15]; [63; 59]])
    as (doc & Hrun & _ & _ & _ & Hw & Hh & _).
  - discriminate.
  - exists doc. rewrite Hrun. repeat split; assumption.
Defined.

Lemma height_map_round_trip_witness :
  exists text doc grid,
    snd (convert_to_json [[0; 15]; [63; 59]] output_file (fun _ => None))
        output_file = Some text
    /\ json_loads text = Some doc
    /\ dict_get "heightMap" doc = Some grid
    /\ as_grid grid = Some [[0; 15]; [63; 59]].
Proof.
  destruct (height_map_round_trip output_file (fun _ => None)
              [[0; 15]; [63; 59]])
    as (text & doc & grid & _ & H).
  - discriminate.
  - now exists text, doc, grid.
Defined.

Lemma zero_cells_failure_witness :
  convert_to_json [[]] output_file (fun _ => None)
  = (Raised ZeroDivisionError_division, fun _ => None).
Proof.
  apply (zero_cells_failure output_file (fun _ => None) [[]]).
  - intro H. apply H. reflexivity.
  - discriminate.
Defined.

(** C7 as stated fails on a grid without rows: the failure is an
    [IndexError], not a division error. *)
Lemma zero_rows_not_division_error :
  fst (convert_to_json [] output_file (fun _ => None))
  = Raised IndexError_list_index
  /\ fst (convert_to_json [] output_file (fun _ => None))
     <> Raised ZeroDivisionError_division.
Proof. split; [reflexivity | discriminate]. Qed.

(** ** The whole run *)

Section Pipeline.

Lemma main_missing_input (w : files) :
  w scad_file = None -> main w = (Raised (FileNotFoundError scad_file), w).
Proof.
  intro H. unfold main, parse_scad_map, io_bind, read_file. now rewrite H.
Qed.

(** The two ways [main] ends: an exception and the files as they were, or
    the document of the parsed grid written to the output file. *)
Lemma main_outcome (w : files) :
  (exists e, main w = (Raised e, w))
  \/ (exists content row0 g,
        w scad_file = Some content
        /\ parse_scad_text (universal_newlines content) = Returned (row0 :: g)
        /\ row0 <> []
        /\ main w = convert_to_json (row0 :: g) output_file w).
Proof.
  destruct (w scad_file) as [content|] eqn:Hfile.
  - destruct (parse_scad_text (universal_newlines content)) as [g|e] eqn:Hparse.
    + rewrite (main_parse_returns _ _ _ Hfile Hparse).
      destruct g as [|[|c row0] g].
      * left. now eexists.
      * left. now eexists.
      * right. exists content, (c :: row0), g. repeat split; congruence.
    + left. exists e. now apply main_parse_raises with content.
  - left. eexists. now apply main_missing_input.
Qed.

(** X1. Whatever makes [main] fail (no input file, no marker pair, a token
    that is not an integer, a grid without rows or with an empty first row),
    the files are left as they were: nothing is written. *)
Theorem main_failure_writes_nothing (w : files) (e : exn) :
  fst (main w) = Raised e -> snd (main w) = w.
Proof.
  intro H. destruct (main_outcome w) as [[e' ->] | (content & row0 & g & _ & _ & Hrow & Hmain)].
  - reflexivity.
  - rewrite Hmain, (convert_to_json_non_empty _ _ row0 g Hrow) in H. discriminate H.
Qed.

Lemma main_failure_writes_nothing_witness :
  let w := fun p => if String.eqb p scad_file
                    then Some ("map=[" ++ NL ++ "[1,x,3]" ++ NL ++ "];")
                    else None in
  snd (main w) = w.
Proof.
  intro w. apply (main_failure_writes_nothing w (ValueError_invalid_literal "x")).
  reflexivity.
Defined.

(** X2. When [main] ends normally, the input file exists and the text read
    from it (its content with the line ends as text mode gives them) parses
    to a grid, the output file holds a text that [json.loads] reads as a
    document whose [heightMap] is that grid, and every other file, the
    input file among them, is as it was. *)
Theorem main_success_end_to_end (w : files) :
  fst (main w) = Returned tt ->
  exists content g text doc grid,
    w scad_file = Some content
    /\ parse_scad_text (universal_newlines content) = Returned g
    /\ snd (main w) output_file = Some text
    /\ json_loads text = Some doc
    /\ dict_get "heightMap" doc = Some grid
    /\ as_grid grid = Some g
    /\ (forall p, p <> output_file -> snd (main w) p = w p).
Proof.
  intro H. destruct (main_outcome w) as [[e Hmain] | (content & row0 & g & Hfile & Hparse & Hrow & Hmain)].
  - rewrite Hmain in H. discriminate H.
  - rewrite Hmain, (convert_to_json_non_empty _ _ row0 g Hrow).
    exists content, (row0 :: g). eexists _, _, _.
    split; [exact Hfile|]. split; [exact Hparse|].
    split; [cbn [write_file snd]; now rewrite String.eqb_refl|].
    split; [apply json_loads_document|].
    split; [reflexivity|]. split; [apply as_grid_grid_json|].
    intros p Hp. cbn [write_file snd].
    destruct (String.eqb_spec p output_file); [contradiction | reflexivity].
Qed.

Lemma main_success_end_to_end_witness :
  let w := fun p => if String.eqb p scad_file
                    then Some ("map=[" ++ CRLF ++ "[0,15]," ++ CRLF
                               ++ "[63,59]" ++ CRLF ++ "];")
                    else None in
  exists text doc grid,
    snd (main w) output_file = Some text
    /\ json_loads text = Some doc
    /\ dict_get "heightMap" doc = Some grid
    /\ as_grid grid = Some [[0; 15]; [63; 59]].
Proof.
  intro w.
  destruct (main_success_end_to_end w eq_refl)
    as (content & g & text & doc & grid & Hfile & Hparse & Hout & Hload & Hget & Hgrid & _).
  exists text, doc, grid. repeat split; try assumption.
  rewrite Hgrid. f_equal.
  injection Hfile as <-. vm_compute in Hparse. now injection Hparse.
Defined.

(** X3. Running [main] again changes nothing more: the second run ends as
    the first one did and leaves every file as the first run left it. *)
Theorem main_idempotent (w : files) :
  fst (main (snd (main w))) = fst (main w)
  /\ forall p, snd (main (snd (main w))) p = snd (main w) p.
Proof.
  destruct (main_outcome w) as [[e Hmain] | (content & row0 & g & Hfile & Hparse & Hrow & Hmain)].
  - rewrite Hmain. cbn [snd]. rewrite Hmain. now split.
  - rewrite Hmain, (convert_to_json_non_empty _ _ row0 g Hrow).
    cbn [write_file snd fst].
    set (w' := fun p : string => if String.eqb p output_file then _ else w p).
    assert (Hfile' : w' scad_file = Some content) by exact Hfile.
    rewrite (main_parse_returns _ _ _ Hfile' Hparse),
      (convert_to_json_non_empty _ _ row0 g Hrow).
    cbn [write_file snd fst]. split; [reflexivity|].
    intro p. unfold w'. now destruct (String.eqb p output_file).
Qed.

End Pipeline.

(** ** Cell codes and block counts *)

Section CellCodes.

Lemma in_range_512 (c : Z) : 0 <= c <= 511 -> In c (range 512).
Proof.
  intro H. unfold range. apply in_map_iff. exists (Z.to_nat c).
  split; [lia|]. apply in_seq. lia.
Qed.

Lemma cell_codes_checked :
  forallb (fun c => (levels_code (decode c) =? c)
                    && (if c =? 0 then len (decode c) =? 0
                        else (1 <=? len (decode c)) && (len (decode c) <=? 9)))
          (range 512) = true.
Proof. vm_compute. reflexivity. Qed.

Lemma cell_code_facts (c : Z) :
  0 <= c <= 511 ->
  levels_code (decode c) = c
  /\ (c = 0 -> len (decode c) = 0)
  /\ (c <> 0 -> 1 <= len (decode c) <= 9).
Proof.
  intro Hc. pose proof cell_codes_checked as H.
  rewrite forallb_forall in H. specialize (H c (in_range_512 c Hc)).
  apply andb_true_iff in H as [Hcode Hlen]. apply Z.eqb_eq in Hcode.
  split; [exact Hcode|]. split.
  - intros ->. reflexivity.
  - intro Hnz. destruct (Z.eqb_spec c 0) as [|_]; [contradiction|].
    apply andb_true_iff in Hlen as [H1 H9]. lia.
Qed.

(** X4. The decoded levels give the cell code back: on any integer, the
    code rebuilt from [decode] is the integer's low nine bits, so on a cell
    code in [0,511] it is the code itself; and two integers decode to the
    same levels exactly when their low nine bits agree. *)
Theorem decode_round_trip (v : Z) :
  levels_code (decode v) = v mod 512
  /\ (0 <= v <= 511 -> levels_code (decode v) = v)
  /\ (forall v', decode v = decode v' <-> v mod 512 = v' mod 512).
Proof.
  assert (Hcode : forall x, levels_code (decode x) = x mod 512).
  { intro x. rewrite (decode_low_bits x).
    apply cell_code_facts. pose proof (Z.mod_pos_bound x 512). lia. }
  split; [apply Hcode|]. split.
  - intro Hv. rewrite Hcode. apply Z.mod_small. lia.
  - intro v'. split.
    + intro H. rewrite <- !Hcode. now rewrite H.
    + intro H. rewrite (decode_low_bits v), (decode_low_bits v'). now rewrite H.
Qed.

Lemma decode_round_trip_witness :
  0 <= 59 <= 511 /\ levels_code (decode 59) = 59.
Proof.
  split; [lia|]. apply (decode_round_trip 59). lia.
Defined.

Lemma blocks_of_cells (l : list Z) :
  Forall (fun c => 0 <= c <= 511) l ->
  len (filter (fun c => negb (c =? 0)) l)
  <= sum (map (fun c => len (decode c)) l)
  <= 9 * len (filter (fun c => negb (c =? 0)) l).
Proof.
  induction 1 as [|c l Hc _ IH].
  - cbn. unfold sum, len. cbn. lia.
  - cbn [map filter]. rewrite sum_cons.
    destruct (cell_code_facts c Hc) as (_ & Hzero & Hpos).
    destruct (Z.eqb_spec c 0) as [->|Hnz]; cbn [negb].
    + rewrite (Hzero eq_refl). lia.
    + rewrite len_cons. specialize (Hpos Hnz). lia.
Qed.

(** X5. On a grid whose cells are all in [0,511], the number of blocks
    counted lies between the number of cells whose code is not 0 and nine
    times that number; on such a grid that is also rectangular and has rows,
    that number is [elevated]. *)
Theorem block_count_bounds (heightmap : list (list Z)) :
  Forall (fun c => 0 <= c <= 511) (cells heightmap) ->
  (len (filter (fun c => negb (c =? 0)) (cells heightmap))
   <= count_total_blocks heightmap
   <= 9 * len (filter (fun c => negb (c =? 0)) (cells heightmap)))
  /\ (rectangular heightmap ->
      forall st, calculate_statistics heightmap = Returned st ->
                 elevated st <= total_blocks st <= 9 * elevated st).
Proof.
  intro Hcells. pose proof (blocks_of_cells _ Hcells) as Hb.
  rewrite <- count_total_blocks_cells in Hb. split; [exact Hb|].
  intros Hrect st Hst. destruct heightmap as [|row0 g]; [discriminate|].
  unfold calculate_statistics in Hst. cbn [getitem0 obind] in Hst.
  apply (f_equal (fun o => match o with Returned x => x | Raised _ => st end)) in Hst.
  subst st. cbn [elevated total_blocks].
  pose proof (rectangular_cells _ Hrect) as Hn. cbn [hd] in Hn.
  pose proof (filter_partition_len (fun c => c =? 0) (cells (row0 :: g))) as Hp.
  cbv beta in Hp. rewrite count_ground_only_cells. lia.
Qed.

Lemma block_count_bounds_witness :
  let nonzero := len (filter (fun c => negb (c =? 0)) (cells [[0; 15]; [63; 59]])) in
  nonzero <= count_total_blocks [[0; 15]; [63; 59]] <= 9 * nonzero.
Proof.
  apply (block_count_bounds [[0; 15]; [63; 59]]).
  repeat constructor; lia.
Defined.

(** X6. On any grid with a first row, rectangular or not, [elevated] is the
    number of cells whose code is not 0 plus what [total_cells] (rows times
    the length of the first row) has more than the grid has cells: it
    counts the cells that are not 0 exactly when no row is longer or
    shorter on balance than the first. *)
Theorem elevated_on_any_grid (row0 : list Z) (g : list (list Z)) :
  exists st,
    calculate_statistics (row0 :: g) = Returned st
    /\ elevated st
       = len (filter (fun c => negb (c =? 0)) (cells (row0 :: g)))
         + (len (row0 :: g) * len row0 - len (cells (row0 :: g)))
    /\ (elevated st = len (filter (fun c => negb (c =? 0)) (cells (row0 :: g)))
        <-> total_cells st = len (cells (row0 :: g))).
Proof.
  eexists. split; [reflexivity|]. cbn [elevated total_cells].
  pose proof (filter_partition_len (fun c => c =? 0) (cells (row0 :: g))) as Hp.
  cbv beta in Hp. rewrite count_ground_only_cells. lia.
Qed.

End CellCodes.

(** ** Lines and written grids *)

Section Lines.

Lemma lstrip_by_all (p : ascii -> bool) (ws : string) :
  all_chars p ws = true -> lstrip_by p ws = EmptyString.
Proof.
  induction ws as [|c ws IH]; cbn [all_chars lstrip_by]; [reflexivity|].
  intro H. apply andb_true_iff in H as [Hc Hws]. now rewrite Hc, IH.
Qed.

Lemma lstrip_by_padded (p : ascii -> bool) (ws t : string) :
  all_chars p ws = true -> lstrip_by p (ws ++ t) = lstrip_by p t.
Proof.
  induction ws as [|c ws IH]; cbn [all_chars append lstrip_by]; [reflexivity|].
  intro H. apply andb_true_iff in H as [Hc Hws]. now rewrite Hc, IH.
Qed.

Lemma rstrip_by_padded (p : ascii -> bool) (t ws : string) :
  all_chars p ws = true -> rstrip_by p (t ++ ws) = rstrip_by p t.
Proof.
  intro H. induction t as [|c t IH]; cbn [append rstrip_by].
  - now apply rstrip_by_all.
  - now rewrite IH.
Qed.

Lemma strip_by_padded (p : ascii -> bool) (ws1 s ws2 : string) :
  all_chars p ws1 = true -> all_chars p ws2 = true ->
  strip_by p (ws1 ++ s ++ ws2) = strip_by p s.
Proof.
  intros H1 H2. unfold strip_by. rewrite (lstrip_by_padded _ _ _ H1).
  induction s as [|c s IH]; cbn [append lstrip_by].
  - now rewrite (lstrip_by_all _ _ H2).
  - destruct (p c); [exact IH|].
    change (String c (s ++ ws2)) with (String c s ++ ws2).
    now apply rstrip_by_padded.
Qed.

(** X7. White space before and after a line of the map array does not
    count: the line with white space (blanks, tabs, a carriage return, ...)
    added at either end gives the rows, or the failure, that the line
    itself gives. *)
Theorem parse_line_padding (rows : list (list Z)) (ws1 line ws2 : string) :
  all_chars isspace ws1 = true ->
  all_chars isspace ws2 = true ->
  strip (ws1 ++ line ++ ws2) = strip line
  /\ parse_line rows (ws1 ++ line ++ ws2) = parse_line rows line.
Proof.
  intros H1 H2.
  assert (H : strip (ws1 ++ line ++ ws2) = strip line)
    by now apply strip_by_padded.
  split; [exact H|]. unfold parse_line. now rewrite H.
Qed.

Lemma parse_line_padding_witness :
  parse_line [] ("  " ++ "[0,15]," ++ String "013" "") = parse_line [] "[0,15],".
Proof.
  apply (parse_line_padding [] "  " "[0,15]," (String "013" "")); reflexivity.
Defined.

Lemma all_chars_concat (p : ascii -> bool) (sep : string) (ls : list string) :
  all_chars p sep = true -> Forall (fun l => all_chars p l = true) ls ->
  all_chars p (String.concat sep ls) = true.
Proof.
  intros Hsep. induction 1 as [|x [|y ls] Hx Hls IH]; [reflexivity | exact Hx |].
  rewrite concat_cons, !all_chars_app, Hx, Hsep. exact IH.
Qed.

Lemma all_chars_reprs (q : ascii -> bool) (row : list Z) :
  (forall c, numeric_char c = true -> q c = true) ->
  Forall (fun l => all_chars q l = true) (map int_repr row).
Proof.
  intro Hq. apply Forall_forall. intros l Hl.
  apply in_map_iff in Hl as (z & <- & _).
  apply all_chars_weaken with numeric_char; [exact Hq | apply all_chars_int_repr].
Qed.

(** The last character of a decimal form, and of a row of them. *)
Lemma int_repr_last (z : Z) :
  exists s c, int_repr z = s ++ String c EmptyString /\ numeric_char c = true.
Proof.
  pose proof (all_chars_int_repr z) as Hall.
  pose proof (int_repr_truthy z) as Hne.
  induction (int_repr z) as [|a s IH]; [discriminate|].
  cbn [all_chars] in Hall. apply andb_true_iff in Hall as [Ha Hs].
  destruct s as [|b s].
  - now exists "", a.
  - destruct (IH Hs eq_refl) as (s' & c & -> & Hc).
    now exists (String a s'), c.
Qed.

Lemma reprs_last (z : Z) (zs : list Z) :
  exists s c, String.concat "," (map int_repr (z :: zs)) = s ++ String c EmptyString
              /\ numeric_char c = true.
Proof.
  revert z. induction zs as [|y zs IH]; intro z.
  - apply int_repr_last.
  - destruct (IH y) as (s & c & E & Hc). cbn [map] in *. rewrite concat_cons, E.
    exists (int_repr z ++ "," ++ s), c. now rewrite !sapp_assoc.
Qed.

Lemma rstrip_by_last (p : ascii -> bool) (s t : string) (c : ascii) :
  p c = false -> all_chars p t = true ->
  rstrip_by p (s ++ String c t) = s ++ String c EmptyString.
Proof.
  intros Hc Ht. induction s as [|a s IH]; cbn [append rstrip_by].
  - now rewrite (rstrip_by_all _ _ Ht), Hc.
  - rewrite IH. now destruct s.
Qed.

Lemma split_reprs (z : Z) (zs : list Z) :
  split "," (String.concat "," (map int_repr (z :: zs))) = map int_repr (z :: zs).
Proof.
  assert (Hno : forall x, all_chars (fun c => negb (Ascii.eqb c ",")) (int_repr x) = true).
  { intro x. apply numeric_not; [|apply all_chars_int_repr].
    intros c Hc. apply (numeric_char_tests c Hc). }
  revert z. induction zs as [|y zs IH]; intro z.
  - cbn [map String.concat]. now apply split_none.
  - cbn [map] in *. rewrite concat_cons. cbn [append].
    now rewrite split_app, IH.
Qed.

Lemma numbers_of_reprs (row : list Z) :
  numbers_of (map int_repr row) = Returned row.
Proof.
  induction row as [|z row IH]; [reflexivity|].
  cbn [map numbers_of]. unfold strip. rewrite strip_by_none.
  2:{ apply numeric_not; [|apply all_chars_int_repr].
      intros c Hc. apply (numeric_char_tests c Hc). }
  rewrite int_repr_truthy. unfold int. now rewrite int_value_repr, IH.
Qed.

Lemma parse_line_rendered (rows : list (list Z)) (row : list Z) :
  row <> [] ->
  parse_line rows (render_row row) = Returned (rows ++ [row])%list.
Proof.
  destruct row as [|z zs]; [contradiction|]. intros _.
  unfold render_row. set (inner := String.concat "," (map int_repr (z :: zs))).
  assert (Hin : forall q, (forall c, numeric_char c = true -> q c = true) ->
                          q ","%char = true -> all_chars q inner = true).
  { intros q Hq Hcomma. apply all_chars_concat; [cbn; now rewrite Hcomma|].
    now apply all_chars_reprs. }
  assert (Hstrip : strip ("[" ++ inner ++ "],") = "[" ++ inner ++ "],").
  { apply strip_by_none. cbn [append all_chars]. rewrite all_chars_app.
    rewrite (Hin (fun c => negb (isspace c))); [reflexivity | | reflexivity].
    intros c Hc. now rewrite (proj1 (numeric_char_tests c Hc)). }
  assert (Hne : truthy inner = true).
  { destruct (reprs_last z zs) as (s & c & E & _). fold inner in E. rewrite E.
    now destruct s. }
  assert (Hinner : strip_chars ("[" ++ inner ++ "],") "[]," = inner).
  { unfold strip_chars, strip_by. cbn [append lstrip_by].
    change (mem_char "[" "[],") with true. cbv iota.
    destruct (reprs_last z zs) as (s & c & E & Hc). fold inner in E.
    assert (Hc' : mem_char c "[]," = false) by apply (numeric_char_tests c Hc).
    assert (Hl : lstrip_by (fun c => mem_char c "[],") (inner ++ "],")
                 = inner ++ "],").
    { assert (Hz : exists a r, inner = String a r /\ numeric_char a = true).
      { unfold inner. cbn [map]. rewrite concat_cons.
        pose proof (all_chars_int_repr z) as Hall.
        pose proof (int_repr_truthy z) as Hnz.
        destruct (int_repr z) as [|a r]; [discriminate|].
        cbn [all_chars] in Hall. apply andb_true_iff in Hall as [Ha _].
        destruct (map int_repr zs); now eexists _, _. }
      destruct Hz as (a & r & -> & Ha). apply lstrip_by_head.
      apply (numeric_char_tests a Ha). }
    rewrite Hl, E, sapp_assoc. cbn [append].
    now apply rstrip_by_last. }
  unfold parse_line, startswith. rewrite Hstrip, prefix_app, Hinner, Hne.
  unfold inner. now rewrite split_reprs, numbers_of_reprs.
Qed.

Lemma render_row_tests (row : list Z) :
  all_chars (fun c => negb (Ascii.eqb c LF)) (render_row row) = true
  /\ exists inner,
       render_row row = "[" ++ inner ++ "],"
       /\ all_chars (fun c => negb (Ascii.eqb c "]")) inner = true.
Proof.
  unfold render_row.
  set (inner := String.concat "," (map int_repr row)).
  assert (Hin : forall q, (forall c, numeric_char c = true -> q c = true) ->
                          q ","%char = true -> all_chars q inner = true).
  { intros q Hq Hcomma. apply all_chars_concat; [cbn; now rewrite Hcomma|].
    now apply all_chars_reprs. }
  split.
  - cbn [append all_chars]. rewrite all_chars_app.
    rewrite Hin; [reflexivity | | reflexivity].
    intros c Hc. destruct (numeric_char_tests c Hc) as (_ & _ & _ & _ & -> & _).
    reflexivity.
  - exists inner. split; [reflexivity|]. apply Hin; [|reflexivity].
    intros c Hc. destruct (numeric_char_tests c Hc) as (_ & _ & _ & _ & _ & ->).
    reflexivity.
Qed.

Lemma lazy_group_row (row : list Z) (tail : string) :
  match_lazy_group "];" (render_row row ++ NL ++ tail)
  = option_map (append (render_row row ++ NL)) (match_lazy_group "];" tail).
Proof.
  destruct (render_row_tests row) as (_ & inner & -> & Hinner).
  change ("[" ++ inner ++ "],") with (String "[" (inner ++ "],")).
  cbn [append]. cbn [match_lazy_group match_literal].
  change (Ascii.eqb "]" "[") with false. cbv iota.
  rewrite sapp_assoc, (lazy_group_skip _ _ Hinner).
  unfold NL. cbn [append match_lazy_group match_literal].
  change (Ascii.eqb "]" "]") with true. change (Ascii.eqb ";" ",") with false.
  change (Ascii.eqb "]" ",") with false. change (Ascii.eqb "]" LF) with false.
  cbv iota. destruct (match_lazy_group "];" tail) as [g|]; [|reflexivity].
  cbn [option_map]. now rewrite !sapp_assoc.
Qed.

Lemma lazy_group_rendered (heightmap : list (list Z)) :
  match_lazy_group "];"
    (String.concat "" (map (fun row => render_row row ++ NL) heightmap) ++ "];")
  = Some (String.concat "" (map (fun row => render_row row ++ NL) heightmap)).
Proof.
  induction heightmap as [|row [|row' g] IH].
  - reflexivity.
  - cbn [map String.concat]. rewrite sapp_assoc, lazy_group_row.
    cbn. now rewrite sapp_nil_r, sapp_assoc.
  - cbn [map] in *. rewrite concat_cons. cbn [append].
    rewrite !sapp_assoc, lazy_group_row.
    change (String.concat "" (?x :: ?l) ++ "];") with (String.concat "" (x :: l) ++ "];").
    rewrite IH. cbn [option_map]. now rewrite !sapp_assoc.
Qed.

Lemma split_rendered (heightmap : list (list Z)) :
  split LF (String.concat "" (map (fun row => render_row row ++ NL) heightmap))
  = (map render_row heightmap ++ [EmptyString])%list.
Proof.
  induction heightmap as [|row [|row' g] IH].
  - reflexivity.
  - cbn [map String.concat List.app]. unfold NL.
    rewrite split_app; [reflexivity | apply render_row_tests].
  - cbn [map] in *. rewrite concat_cons. cbn [append].
    rewrite sapp_assoc. unfold NL at 1. cbn [append].
    rewrite split_app; [|apply render_row_tests]. now rewrite IH.
Qed.

Lemma for_each_rendered (heightmap rows : list (list Z)) :
  has_empty_row heightmap = false ->
  for_each parse_line (map render_row heightmap ++ [EmptyString])%list rows
  = Returned (rows ++ heightmap)%list.
Proof.
  revert rows. induction heightmap as [|row g IH]; intros rows Hrows.
  - cbn [map List.app for_each].
    change (parse_line rows "") with (Returned rows). cbn [obind].
    now rewrite List.app_nil_r.
  - cbn [has_empty_row existsb] in Hrows.
    apply orb_false_iff in Hrows as [Hrow Hrows].
    cbn [map List.app for_each]. rewrite parse_line_rendered.
    + cbn [obind]. rewrite (IH _ Hrows). now rewrite <- List.app_assoc.
    + intros ->. discriminate Hrow.
Qed.

(** X8. Every grid whose rows have cells is the parse of a text: whatever
    the integers within the limit of [int] (negative ones and ones above
    511, too) and whatever the lengths of the rows, the grid written one
    row per line between the markers is parsed back as that grid. *)
Theorem parse_rendered_grid (heightmap : list (list Z)) :
  has_empty_row heightmap = false ->
  forallb within_int_limit (cells heightmap) = true ->
  has_marker_pair (render_grid heightmap)
  /\ parse_scad_text (render_grid heightmap) = Returned heightmap.
Proof.
  intros Hrows _. split.
  - exists "", (NL ++ String.concat ""
                 (map (fun row => render_row row ++ NL) heightmap)), "".
    unfold render_grid, NL. cbn [append]. reflexivity.
  - unfold parse_scad_text, render_grid.
    rewrite (re_search_here _ (NL ++ String.concat ""
               (map (fun row => render_row row ++ NL) heightmap))).
    + unfold NL at 1. cbn [append split]. rewrite Ascii.eqb_refl.
      rewrite split_rendered. cbn [for_each].
      change (parse_line [] "") with (Returned (@nil (list Z))). cbn [obind].
      now apply for_each_rendered.
    + unfold match_here. rewrite match_literal_app. unfold NL at 1.
      cbn [append match_lazy_group match_literal].
      change (Ascii.eqb "]" LF) with false. cbv iota.
      now rewrite lazy_group_rendered.
Qed.

Lemma parse_rendered_grid_witness :
  parse_scad_text (render_grid [[-5; 600]; [1]]) = Returned [[-5; 600]; [1]].
Proof.
  apply (parse_rendered_grid [[-5; 600]; [1]]); vm_compute; reflexivity.
Defined.

End Lines.

(** ** Slices and [str.find] *)

Section Slices.

Lemma take_drop (n : nat) (s : string) : take n s ++ drop n s = s.
Proof.
  revert s. induction n as [|n IH]; intro s; [reflexivity|].
  destruct s as [|c s]; [reflexivity|]. cbn [take drop append]. now rewrite IH.
Qed.

Lemma take_app (a b : string) : take (String.length a) (a ++ b) = a.
Proof. induction a as [|c a IH]; cbn; [now destruct b | now rewrite IH]. Qed.

Lemma drop_app (a b : string) : drop (String.length a) (a ++ b) = b.
Proof. induction a as [|c a IH]; cbn; [now destruct b | exact IH]. Qed.

Lemma take_length (n : nat) (s : string) :
  String.length (take n s) = Nat.min n (String.length s).
Proof.
  revert s. induction n as [|n IH]; intro s; [reflexivity|].
  destruct s as [|c s]; [reflexivity|]. cbn [take String.length]. now rewrite IH.
Qed.

Lemma slice_bound_of_nat (s : string) (n : nat) :
  (n <= String.length s)%nat -> slice_bound s (Z.of_nat n) = n.
Proof.
  intro H. unfold slice_bound.
  destruct (Z.ltb_spec (Z.of_nat n) 0); lia.
Qed.

Lemma slice_append (s : string) (i : Z) : slice_to s i ++ slice_from s i = s.
Proof. apply take_drop. Qed.

Lemma insert_at_length (content : string) (pos : Z) (text : string) :
  String.length (insert_at content pos text)
  = (String.length content + String.length text)%nat.
Proof.
  unfold insert_at. rewrite !slength_app.
  rewrite <- (slice_append content pos) at 3. rewrite slength_app. lia.
Qed.

Lemma insert_at_app (a b text : string) :
  insert_at (a ++ b) (Z.of_nat (String.length a)) text = a ++ text ++ b.
Proof.
  unfold insert_at, slice_to, slice_from.
  rewrite slice_bound_of_nat by (rewrite slength_app; lia).
  now rewrite take_app, drop_app.
Qed.

Lemma prefix_length (sub s : string) :
  String.prefix sub s = true -> (String.length sub <= String.length s)%nat.
Proof.
  revert s. induction sub as [|a sub IH]; intros s H; cbn; [lia|].
  destruct s as [|b s]; [discriminate H|]. cbn in *.
  destruct (ascii_dec a b); [|discriminate H]. specialize (IH _ H). lia.
Qed.

Lemma index_first (sub pre rest : string) :
  starts_first sub pre rest = true ->
  String.index 0 sub (pre ++ rest) = Some (String.length pre).
Proof.
  induction pre as [|c pre IH]; cbn [starts_first append String.length]; intro H.
  - destruct rest as [|b rest]; cbn [String.index].
    + destruct sub; [reflexivity | discriminate H].
    + now rewrite H.
  - apply andb_true_iff in H as [Hno Hfirst]. apply negb_true_iff in Hno.
    cbn [String.index]. cbn [append] in Hno. now rewrite Hno, (IH Hfirst).
Qed.

Lemma index_skip (sub a t : string) (n : nat) :
  String.index (String.length a + n) sub (a ++ t)
  = option_map (Nat.add (String.length a)) (String.index n sub t).
Proof.
  induction a as [|c a IH]; cbn [String.length append Nat.add].
  - now destruct (String.index n sub t).
  - cbn [String.index]. rewrite IH. now destruct (String.index n sub t).
Qed.

Lemma index_short (sub s : string) (n : nat) :
  (String.length s < n + String.length sub)%nat -> String.index n sub s = None.
Proof.
  revert n. induction s as [|c s IH]; intros n H; cbn [String.length] in H.
  - destruct n; [|reflexivity]. destruct sub; [cbn in H; lia | reflexivity].
  - destruct n as [|n]; cbn [String.index].
    + destruct (String.prefix sub (String c s)) eqn:Hp.
      * apply prefix_length in Hp. cbn [String.length] in Hp. lia.
      * rewrite IH; [reflexivity | lia].
    + rewrite IH; [reflexivity | lia].
Qed.

Lemma index_found (sub x y : string) :
  exists i, String.index 0 sub (x ++ sub ++ y) = Some i.
Proof.
  induction x as [|c x [i IH]].
  - exists O. apply (index_first sub "" (sub ++ y)). apply prefix_app.
  - cbn [append String.index].
    destruct (String.prefix sub _); [now eexists|]. rewrite IH. now eexists.
Qed.

Lemma starts_first_char (x : ascii) (pre rest : string) :
  all_chars (fun c => negb (Ascii.eqb c x)) pre = true ->
  starts_first (String x EmptyString) pre (String x rest) = true.
Proof.
  induction pre as [|c pre IH]; cbn [all_chars starts_first append]; intro H.
  - cbn. destruct (ascii_dec x x); [now destruct rest | contradiction].
  - apply andb_true_iff in H as [Hc Hpre]. rewrite (IH Hpre), andb_true_r.
    cbn. destruct (ascii_dec x c) as [->|]; [|reflexivity].
    now rewrite Ascii.eqb_refl in Hc.
Qed.

Lemma index_no_char (x : ascii) (s : string) :
  all_chars (fun c => negb (Ascii.eqb c x)) s = true ->
  String.index 0 (String x EmptyString) s = None.
Proof.
  induction s as [|c s IH]; cbn [all_chars]; intro H; [reflexivity|].
  apply andb_true_iff in H as [Hc Hs]. cbn [String.index]. rewrite (IH Hs).
  cbn. destruct (ascii_dec x c) as [->|]; [|reflexivity].
  now rewrite Ascii.eqb_refl in Hc.
Qed.

Lemma find_of_nat (s sub : string) (n : nat) :
  str_find s sub (Z.of_nat n)
  = match String.index n sub s with Some i => Z.of_nat i | None => -1 end.
Proof.
  unfold str_find. destruct (Z.ltb_spec (Z.of_nat n) 0); [lia|].
  now rewrite Nat2Z.id.
Qed.

Lemma find_first (sub pre rest : string) :
  starts_first sub pre rest = true ->
  str_find (pre ++ rest) sub 0 = Z.of_nat (String.length pre).
Proof.
  intro H. rewrite (find_of_nat _ _ 0). now rewrite (index_first _ _ _ H).
Qed.

Lemma find_first_from (sub a pre rest : string) :
  starts_first sub pre rest = true ->
  str_find (a ++ pre ++ rest) sub (Z.of_nat (String.length a))
  = Z.of_nat (String.length (a ++ pre)).
Proof.
  intro H. rewrite find_of_nat.
  rewrite <- (Nat.add_0_r (String.length a)), index_skip, (index_first _ _ _ H).
  cbn [option_map]. now rewrite slength_app.
Qed.

Lemma find_from_last (s sub : string) :
  (2 <= String.length sub)%nat -> str_find s sub (-1) = -1.
Proof.
  intro H. unfold str_find. change (-1 <? 0) with true. cbv iota.
  rewrite index_short; [reflexivity | lia].
Qed.

End Slices.

(** ** The blocks of [add_files_to_xcode] *)

Section Blocks.

Lemma insert_before_closing_continue (content marker opener : string)
    (text : flow string) (content' : string) :
  insert_before_closing content marker opener text = Continue content' ->
  exists t pos, text = Continue t /\ content' = insert_at content pos t.
Proof.
  unfold insert_before_closing. destruct (_ =? -1); [discriminate|].
  destruct text as [t| |key]; cbn [flow_bind]; try discriminate.
  intro H. injection H as <-. now eexists _, _.
Qed.

Lemma insert_after_line_continue (content marker : string)
    (text : flow string) (content' : string) :
  insert_after_line content marker text = Continue content' ->
  exists t pos, text = Continue t /\ content' = insert_at content pos t.
Proof.
  unfold insert_after_line. destruct (_ =? -1); [discriminate|].
  destruct text as [t| |key]; cbn [flow_bind]; try discriminate.
  intro H. injection H as <-. now eexists _, _.
Qed.

(** X12. The block that adds to a list: when the marker, then the opener of
    the list, then the closing of the list follow one another in the
    content (each the first one from where the search for it starts), the
    text is put in just before that closing, after what the list held. *)
Theorem insert_before_closing_in_list
    (a marker b opener c d text : string) :
  starts_first marker a (marker ++ b ++ opener ++ c ++ ");" ++ d) = true ->
  starts_first opener (marker ++ b) (opener ++ c ++ ");" ++ d) = true ->
  starts_first ");" (opener ++ c) (");" ++ d) = true ->
  insert_before_closing (a ++ marker ++ b ++ opener ++ c ++ ");" ++ d)
    marker opener (Continue text)
  = Continue (a ++ marker ++ b ++ opener ++ c ++ text ++ ");" ++ d).
Proof.
  intros Hm Ho Hc. unfold insert_before_closing.
  rewrite (find_first _ _ _ Hm).
  destruct (Z.eqb_spec (Z.of_nat (String.length a)) (-1)) as [E|_]; [lia|].
  replace (marker ++ b ++ opener ++ c ++ ");" ++ d)
    with ((marker ++ b) ++ opener ++ c ++ ");" ++ d) by now rewrite sapp_assoc.
  rewrite (find_first_from _ a _ _ Ho).
  replace (a ++ (marker ++ b) ++ opener ++ c ++ ");" ++ d)
    with ((a ++ marker ++ b) ++ (opener ++ c) ++ ");" ++ d)
    by now rewrite !sapp_assoc.
  rewrite (find_first_from _ _ _ _ Hc). cbn [flow_bind].
  replace ((a ++ marker ++ b) ++ (opener ++ c) ++ ");" ++ d)
    with (((a ++ marker ++ b) ++ opener ++ c) ++ ");" ++ d)
    by now rewrite !sapp_assoc.
  rewrite insert_at_app. now rewrite !sapp_assoc.
Qed.

Lemma insert_before_closing_in_list_witness :
  insert_before_closing
    ("x /* G */ = {" ++ NL ++ "children = (" ++ NL ++ "A," ++ NL ++ ");" ++ NL)
    "/* G */ = {" "children = (" (Continue ("B," ++ NL))
  = Continue ("x /* G */ = {" ++ NL ++ "children = (" ++ NL ++ "A," ++ NL
              ++ "B," ++ NL ++ ");" ++ NL).
Proof.
  apply (insert_before_closing_in_list "x " "/* G */ = {" NL "children = ("
           (NL ++ "A," ++ NL) NL ("B," ++ NL)); reflexivity.
Defined.

(** X13. The same block when the list is not found: if the marker is in the
    content but the opener does not follow it, or no closing follows the
    opener, nothing is reported and the text is put in before the last
    character of the content. *)
Theorem insert_before_closing_fallback
    (body : string) (last : ascii) (marker opener text : string) :
  let content := body ++ String last EmptyString in
  str_find content marker 0 <> -1 ->
  str_find content opener (str_find content marker 0) = -1
  \/ str_find content ");" (str_find content opener (str_find content marker 0)) = -1 ->
  insert_before_closing content marker opener (Continue text)
  = Continue (body ++ text ++ String last EmptyString).
Proof.
  intros content Hm Hno. unfold insert_before_closing.
  destruct (Z.eqb_spec (str_find content marker 0) (-1)) as [E|_]; [contradiction|].
  assert (Hend : str_find content ");" (str_find content opener (str_find content marker 0)) = -1).
  { destruct Hno as [-> | H]; [|exact H]. apply find_from_last. cbn. lia. }
  rewrite Hend. cbn [flow_bind]. f_equal.
  unfold insert_at, slice_to, slice_from, slice_bound, content.
  change (-1 <? 0) with true. cbv iota.
  rewrite slength_app. cbn [String.length].
  replace (Z.to_nat (Z.max 0 (-1 + Z.of_nat (String.length body + 1))))
    with (String.length body) by lia.
  now rewrite take_app, drop_app.
Qed.

Lemma insert_before_closing_fallback_witness :
  insert_before_closing "x /* G */ = {}" "/* G */ = {" "children = ("
    (Continue "NEW")
  = Continue "x /* G */ = {NEW}".
Proof.
  apply (insert_before_closing_fallback "x /* G */ = {" "}" "/* G */ = {"
           "children = (" "NEW").
  - discriminate.
  - left. reflexivity.
Defined.

(** X14. The block that adds to a section: when the marker is in the
    content and a line break follows it, the text is put in right after the
    first line break that follows the first marker, so it begins the line
    after the marker's. *)
Theorem insert_after_line_in_section (a marker b c text : string) :
  starts_first marker a (marker ++ b ++ NL ++ c) = true ->
  all_chars (fun ch => negb (Ascii.eqb ch LF)) (marker ++ b) = true ->
  insert_after_line (a ++ marker ++ b ++ NL ++ c) marker (Continue text)
  = Continue (a ++ marker ++ b ++ NL ++ text ++ c).
Proof.
  intros Hm Hline. unfold insert_after_line.
  rewrite (find_first _ _ _ Hm).
  destruct (Z.eqb_spec (Z.of_nat (String.length a)) (-1)) as [E|_]; [lia|].
  cbn [flow_bind].
  replace (marker ++ b ++ NL ++ c) with ((marker ++ b) ++ NL ++ c)
    by now rewrite sapp_assoc.
  rewrite (find_first_from NL a (marker ++ b) (NL ++ c)
             (starts_first_char LF _ c Hline)).
  replace (a ++ (marker ++ b) ++ NL ++ c) with (((a ++ marker ++ b) ++ NL) ++ c)
    by now rewrite !sapp_assoc.
  replace (Z.of_nat (String.length (a ++ marker ++ b)) + 1)
    with (Z.of_nat (String.length ((a ++ marker ++ b) ++ NL)))
    by (rewrite (slength_app _ NL); cbn [String.length NL]; lia).
  rewrite insert_at_app. now rewrite !sapp_assoc.
Qed.

Lemma insert_after_line_in_section_witness :
  insert_after_line ("/* Begin S */" ++ NL ++ "old" ++ NL) "/* Begin S */"
    (Continue ("new" ++ NL))
  = Continue ("/* Begin S */" ++ NL ++ "new" ++ NL ++ "old" ++ NL).
Proof.
  apply (insert_after_line_in_section "" "/* Begin S */" "" ("old" ++ NL)
           ("new" ++ NL)); reflexivity.
Defined.

(** X15. The same block when no line break follows the marker (the marker is
    on the last line and the content does not end with a line break):
    nothing is reported and the text is put in at the very beginning of the
    content. *)
Theorem insert_after_line_no_line_break (a marker b text : string) :
  starts_first marker a (marker ++ b) = true ->
  all_chars (fun ch => negb (Ascii.eqb ch LF)) (marker ++ b) = true ->
  insert_after_line (a ++ marker ++ b) marker (Continue text)
  = Continue (text ++ a ++ marker ++ b).
Proof.
  intros Hm Hline. unfold insert_after_line.
  rewrite (find_first _ _ _ Hm).
  destruct (Z.eqb_spec (Z.of_nat (String.length a)) (-1)) as [E|_]; [lia|].
  cbn [flow_bind]. rewrite find_of_nat.
  rewrite <- (Nat.add_0_r (String.length a)), index_skip.
  unfold NL. rewrite (index_no_char _ _ Hline). cbn [option_map].
  change (-1 + 1) with (Z.of_nat (String.length "")).
  apply (f_equal Continue). exact (insert_at_app "" (a ++ marker ++ b) text).
Qed.

Lemma insert_after_line_no_line_break_witness :
  insert_after_line ("x" ++ NL ++ "/* Begin S */") "/* Begin S */"
    (Continue "new")
  = Continue ("new" ++ "x" ++ NL ++ "/* Begin S */").
Proof.
  apply (insert_after_line_no_line_break ("x" ++ NL) "/* Begin S */" "" "new");
    reflexivity.
Defined.

End Blocks.

(** ** The call of [add_files_to_xcode] *)

Section AddFiles.

Variable generate_uuid : nat -> string.

Lemma inserted_refl (s : string) : inserted s s.
Proof. induction s; constructor; assumption. Qed.

Lemma inserted_prepend (x s t : string) : inserted s t -> inserted s (x ++ t).
Proof. intro H. induction x; cbn [append]; [assumption | now constructor]. Qed.

Lemma inserted_app (a s t : string) : inserted s t -> inserted (a ++ s) (a ++ t).
Proof. intro H. induction a; cbn [append]; [assumption | now constructor]. Qed.

Lemma inserted_trans (s t u : string) :
  inserted s t -> inserted t u -> inserted s u.
Proof.
  intros Hst Htu. revert s Hst. induction Htu as [|c t u _ IH|c t u _ IH];
    intros s Hst.
  - exact Hst.
  - inversion Hst; subst; constructor; now apply IH.
  - constructor. now apply IH.
Qed.

Lemma insert_at_inserted (content : string) (pos : Z) (text : string) :
  inserted content (insert_at content pos text).
Proof.
  unfold insert_at. rewrite <- (slice_append content pos) at 1.
  apply inserted_app, inserted_prepend, inserted_refl.
Qed.

Lemma table_set_has_key (key key' value : string) (d : table) :
  key = key' \/ has_key key d -> has_key key (table_set key' value d).
Proof.
  induction d as [|[k v] d IH]; cbn [table_set].
  - intros [-> | [v H]]; [|discriminate H].
    exists value. cbn. now rewrite String.eqb_refl.
  - intros H. destruct (String.eqb_spec k key') as [->|Hk].
    + destruct (String.eqb_spec key' key) as [->|Hne].
      * exists value. cbn. now rewrite String.eqb_refl.
      * destruct H as [-> | [v' H]]; [congruence|]. cbn in H.
        destruct (String.eqb_spec key' key); [congruence|].
        exists v'. cbn. destruct (String.eqb_spec key' key); [congruence | exact H].
    + destruct (String.eqb_spec k key) as [->|Hne].
      * exists v. cbn. now rewrite String.eqb_refl.
      * destruct IH as [v' Hv'].
        { destruct H as [-> | [v' H]]; [now left | right]. cbn in H.
          destruct (String.eqb_spec k key); [congruence|]. now exists v'. }
        exists v'. cbn. destruct (String.eqb_spec k key); [congruence | exact Hv'].
Qed.

Lemma draw_ids_has_keys (files_to_add : list string) (k : nat)
    (file_refs build_files : table) (filepath : string) :
  In filepath files_to_add
  \/ (has_key filepath file_refs /\ has_key filepath build_files) ->
  has_key filepath (fst (draw_ids generate_uuid k files_to_add file_refs build_files))
  /\ has_key filepath (snd (draw_ids generate_uuid k files_to_add file_refs build_files)).
Proof.
  revert k file_refs build_files.
  induction files_to_add as [|f rest IH]; intros k file_refs build_files H.
  - cbn. destruct H as [[] | H]. exact H.
  - cbn [draw_ids]. apply IH. destruct H as [[-> | Hin] | [Hr Hb]].
    + right. split; apply table_set_has_key; now left.
    + now left.
    + right. split; apply table_set_has_key; now right.
Qed.

Lemma add_lines_continue (line : string -> flow string)
    (files_to_add : list string) (text : string) :
  (forall filepath, In filepath files_to_add ->
                    exists l, line filepath = Continue l) ->
  exists text', add_lines line files_to_add text = Continue text'.
Proof.
  revert text. induction files_to_add as [|f rest IH]; intros text H.
  - now eexists.
  - cbn [add_lines]. destruct (H f (or_introl eq_refl)) as [l ->].
    cbn [flow_bind]. apply IH. intros g Hg. apply H. now right.
Qed.

Lemma insert_before_closing_no_raise (content marker opener : string)
    (text : flow string) (key : string) :
  (exists t, text = Continue t) ->
  insert_before_closing content marker opener text <> RaiseKeyError key.
Proof.
  intros [t ->]. unfold insert_before_closing.
  destruct (_ =? -1); discriminate.
Qed.

Lemma insert_after_line_no_raise (content marker : string)
    (text : flow string) (key : string) :
  (exists t, text = Continue t) ->
  insert_after_line content marker text <> RaiseKeyError key.
Proof.
  intros [t ->]. unfold insert_after_line.
  destruct (_ =? -1); discriminate.
Qed.

Lemma updated_content_no_raise (files_to_add : list string)
    (group_name content key : string) :
  updated_content generate_uuid files_to_add group_name content
  <> RaiseKeyError key.
Proof.
  unfold updated_content.
  pose proof (fun f (H : In f files_to_add) =>
    draw_ids_has_keys files_to_add 1 [] [] f (or_introl H)) as Hkeys.
  destruct (draw_ids generate_uuid 1 files_to_add [] []) as [file_refs build_files].
  cbn [fst snd] in Hkeys.
  assert (Hp : exists t, print_ids file_refs build_files files_to_add = Continue t).
  { apply add_lines_continue. intros f Hf.
    destruct (Hkeys f Hf) as [[r ->] [b ->]]. now eexists. }
  assert (Hs : exists t, file_refs_str file_refs files_to_add = Continue t).
  { apply add_lines_continue. intros f Hf.
    destruct (Hkeys f Hf) as [[r ->] _]. now eexists. }
  assert (Hr : exists t, file_refs_entries file_refs files_to_add = Continue t).
  { apply add_lines_continue. intros f Hf.
    destruct (Hkeys f Hf) as [[r ->] _]. now eexists. }
  assert (Hb : exists t, build_files_entries file_refs build_files files_to_add
                         = Continue t).
  { apply add_lines_continue. intros f Hf.
    destruct (Hkeys f Hf) as [[r ->] [b ->]]. now eexists. }
  assert (Hc : exists t, sources_entries build_files files_to_add = Continue t).
  { apply add_lines_continue. intros f Hf.
    destruct (Hkeys f Hf) as [_ [b ->]]. now eexists. }
  destruct Hp as [p ->]. cbn [flow_bind].
  destruct (insert_before_closing content _ _ _) as [c1| |k1] eqn:E1;
    cbn [flow_bind]; [|discriminate|].
  2:{ exfalso. revert E1. apply insert_before_closing_no_raise. now eexists. }
  destruct (insert_after_line c1 _ _) as [c2| |k2] eqn:E2;
    cbn [flow_bind]; [|discriminate|].
  2:{ exfalso. revert E2. apply insert_after_line_no_raise.
      destruct Hs as [t ->]. now eexists. }
  destruct (insert_after_line c2 _ _) as [c3| |k3] eqn:E3;
    cbn [flow_bind]; [|discriminate|].
  2:{ exfalso. revert E3. now apply insert_after_line_no_raise. }
  destruct (insert_after_line c3 _ _) as [c4| |k4] eqn:E4;
    cbn [flow_bind]; [|discriminate|].
  2:{ exfalso. revert E4. now apply insert_after_line_no_raise. }
  now apply insert_before_closing_no_raise.
Qed.

Lemma updated_content_no_main_group (files_to_add : list string)
    (group_name content : string) :
  str_find content "/* AntAttack3D */ = {" 0 = -1 ->
  updated_content generate_uuid files_to_add group_name content = ReturnFalse.
Proof.
  intro H. pose proof (updated_content_no_raise files_to_add group_name content) as Hno.
  unfold updated_content in *.
  destruct (draw_ids generate_uuid 1 files_to_add [] []) as [file_refs build_files].
  destruct (print_ids file_refs build_files files_to_add) as [p| |key];
    cbn [flow_bind] in *; [| reflexivity | now elim (Hno key)].
  unfold insert_before_closing at 1. now rewrite H.
Qed.

(** X9. [add_files_to_xcode] writes all or nothing, and to the project file
    only: unless it returns [True] the files are as they were, and whatever
    it returns every file other than the project file is as it was. *)
Theorem add_files_all_or_nothing (project_path : string)
    (files_to_add : list string) (group_name : string) (w : disk) :
  let run := add_files_to_xcode generate_uuid project_path files_to_add
                                group_name w in
  (fst run <> Returns true -> snd run = w)
  /\ (forall p, p <> project_path -> snd run p = w p).
Proof.
  unfold add_files_to_xcode. destruct (w project_path) as [[content|e]|];
    [|now split|now split].
  cbv zeta.
  destruct (updated_content _ _ _ _) as [content'| |key]; try now split.
  cbn [fst snd]. unfold write_text. split; [congruence|].
  intros p Hp. destruct (String.eqb_spec p project_path); [contradiction | reflexivity].
Qed.

(** X10. No lookup of an identifier raises [KeyError], whatever the list of
    files (a file given twice, too).  [add_files_to_xcode] returns [False]
    when the project file does not exist; when the path exists and cannot
    be read as text, the failure of the reading is raised; when the file is
    read, the call returns a boolean, and that is [False] when the text
    read does not have the marker of the main group.  In each of these
    cases nothing is written. *)
Theorem add_files_returns (project_path : string)
    (files_to_add : list string) (group_name : string) (w : disk) :
  let run := add_files_to_xcode generate_uuid project_path files_to_add
                                group_name w in
  (forall key, fst run <> Raises_KeyError key)
  /\ (w project_path = None -> run = (Returns false, w))
  /\ (forall e, w project_path = Some (Unreadable e) ->
                run = (Raises_read_failure e, w))
  /\ (forall content,
        w project_path = Some (Text content) ->
        (exists b, fst run = Returns b)
        /\ ((forall a b, universal_newlines content
                         <> a ++ "/* AntAttack3D */ = {" ++ b) ->
            run = (Returns false, w))).
Proof.
  cbv zeta. unfold add_files_to_xcode. split; [|split; [|split]].
  - intro key0. destruct (w project_path) as [[content|e]|]; try discriminate.
    pose proof (updated_content_no_raise files_to_add group_name
                  (universal_newlines content)) as Hno.
    destruct (updated_content _ _ _ _) as [content'| |key];
      [discriminate | discriminate | now elim (Hno key)].
  - now intros ->.
  - now intros e ->.
  - intros stored ->. set (content := universal_newlines stored). split.
    + pose proof (updated_content_no_raise files_to_add group_name content) as Hno.
      destruct (updated_content _ _ _ _) as [content'| |key];
        [now eexists | now eexists | now elim (Hno key)].
    + intro Hno. rewrite updated_content_no_main_group; [reflexivity|].
      rewrite (find_of_nat _ _ 0).
      destruct (String.index 0 "/* AntAttack3D */ = {" content) as [i|] eqn:E;
        [exfalso | reflexivity].
      pose proof (index_correct1 0 i "/* AntAttack3D */ = {" content E) as Hsub.
      apply (Hno (take i content)
                 (drop (i + String.length "/* AntAttack3D */ = {") content)).
      rewrite <- Hsub. generalize content as text. clear. intro content.
      revert content.
      induction i as [|i IH]; intro content.
      * cbn [take append Nat.add].
        generalize (String.length "/* AntAttack3D */ = {") as n. intro n.
        revert content. induction n as [|n IHn]; intro content.
        -- now destruct content.
        -- destruct content as [|c content]; [reflexivity|].
           cbn [substring drop append]. now rewrite <- IHn.
      * destruct content as [|c content].
        -- cbn. reflexivity.
        -- cbn [take drop append substring Nat.add]. now rewrite <- IH.
Qed.

Lemma updated_content_inserted (files_to_add : list string)
    (group_name content content' : string) :
  updated_content generate_uuid files_to_add group_name content
  = Continue content' ->
  let ids := draw_ids generate_uuid 1 files_to_add [] [] in
  exists children refs builds sources,
    file_refs_str (fst ids) files_to_add = Continue children
    /\ file_refs_entries (fst ids) files_to_add = Continue refs
    /\ build_files_entries (fst ids) (snd ids) files_to_add = Continue builds
    /\ sources_entries (snd ids) files_to_add = Continue sources
    /\ inserted content content'
    /\ String.length content'
       = (String.length content
          + String.length (new_group_ref (generate_uuid O) group_name)
          + String.length (new_group (generate_uuid O) group_name children)
          + String.length refs + String.length builds
          + String.length sources)%nat.
Proof.
  unfold updated_content.
  destruct (draw_ids generate_uuid 1 files_to_add [] []) as [file_refs build_files].
  cbn [fst snd]. cbv zeta.
  destruct (print_ids file_refs build_files files_to_add) as [p| |key];
    cbn [flow_bind]; try discriminate.
  destruct (insert_before_closing content _ _ _) as [c1| |k1] eqn:E1;
    cbn [flow_bind]; try discriminate.
  destruct (insert_after_line c1 _ _) as [c2| |k2] eqn:E2;
    cbn [flow_bind]; try discriminate.
  destruct (insert_after_line c2 _ _) as [c3| |k3] eqn:E3;
    cbn [flow_bind]; try discriminate.
  destruct (insert_after_line c3 _ _) as [c4| |k4] eqn:E4;
    cbn [flow_bind]; try discriminate.
  intro E5.
  apply insert_before_closing_continue in E1 as (t1 & p1 & Ht1 & ->).
  apply insert_after_line_continue in E2 as (t2 & p2 & Ht2 & ->).
  apply insert_after_line_continue in E3 as (t3 & p3 & Ht3 & ->).
  apply insert_after_line_continue in E4 as (t4 & p4 & Ht4 & ->).
  apply insert_before_closing_continue in E5 as (t5 & p5 & Ht5 & ->).
  injection Ht1 as <-.
  destruct (file_refs_str file_refs files_to_add) as [children| |];
    cbn [flow_bind] in Ht2; try discriminate Ht2. injection Ht2 as <-.
  exists children, t3, t4, t5. repeat (split; [assumption || reflexivity|]).
  split.
  - repeat (eapply inserted_trans; [|apply insert_at_inserted]).
    apply inserted_refl.
  - rewrite !insert_at_length. lia.
Qed.

(** X11. [add_files_to_xcode] only adds text: when it returns [True], the
    content it writes is the text it read (the old content, with the line
    ends as text mode gives them) with characters inserted, nothing of that
    text is lost or changed, and it is longer by the lengths of the five
    texts the script builds: the line of the group, the entry of the group,
    the entries of the two sections and the lines of the build phase.  An
    old content without carriage returns is itself kept. *)
Theorem add_files_keeps_text (project_path : string)
    (files_to_add : list string) (group_name content : string) (w : disk) :
  let run := add_files_to_xcode generate_uuid project_path files_to_add
                                group_name w in
  let ids := draw_ids generate_uuid 1 files_to_add [] [] in
  w project_path = Some (Text content) ->
  fst run = Returns true ->
  exists content' children refs builds sources,
    snd run project_path = Some (Text content')
    /\ inserted (universal_newlines content) content'
    /\ file_refs_str (fst ids) files_to_add = Continue children
    /\ file_refs_entries (fst ids) files_to_add = Continue refs
    /\ build_files_entries (fst ids) (snd ids) files_to_add = Continue builds
    /\ sources_entries (snd ids) files_to_add = Continue sources
    /\ String.length content'
       = (String.length (universal_newlines content)
          + String.length (new_group_ref (generate_uuid O) group_name)
          + String.length (new_group (generate_uuid O) group_name children)
          + String.length refs + String.length builds
          + String.length sources)%nat
    /\ (all_chars (fun c => negb (Ascii.eqb c "013")) content = true ->
        inserted content content').
Proof.
  cbv zeta. unfold add_files_to_xcode. intros ->.
  destruct (updated_content _ _ _ _) as [content'| |key] eqn:E;
    cbn [fst]; try discriminate.
  intros _. destruct (updated_content_inserted _ _ _ _ E)
    as (children & refs & builds & sources & H1 & H2 & H3 & H4 & Hins & Hlen).
  exists content', children, refs, builds, sources.
  cbn [snd]. unfold write_text. rewrite String.eqb_refl.
  repeat (split; [assumption || reflexivity|]).
  intro Hplain. now rewrite <- (universal_newlines_plain _ Hplain).
Qed.

End AddFiles.

(** ** [reorganize_xcode_folders] *)

Section Reorganize.

Lemma occurs_cons (sub : string) (c : ascii) (s : string) :
  occurs sub (String c s) = false ->
  String.prefix sub (String c s) = false /\ occurs sub s = false.
Proof.
  unfold occurs. cbn [String.index].
  destruct (String.prefix sub (String c s)); [discriminate|].
  destruct (String.index 0 sub s); [discriminate | now split].
Qed.

Lemma occurs_app (sub x y : string) : occurs sub (x ++ sub ++ y) = true.
Proof. unfold occurs. now destruct (index_found sub x y) as [i ->]. Qed.

Lemma match_here_sound (filename t attrs rest : string) :
  option_map (pair EmptyString) (match_literal (path_attribute filename) t)
  = Some (attrs, rest) ->
  t = attrs ++ path_attribute filename ++ rest
  /\ all_chars (fun c => negb (Ascii.eqb c "}")) attrs = true.
Proof.
  destruct (match_literal _ t) as [r|] eqn:E; [|discriminate].
  intro H. injection H as <- <-. split; [|reflexivity].
  exact (match_literal_some _ _ _ E).
Qed.

Lemma match_attributes_sound (filename s attrs rest : string) :
  match_attributes filename s = Some (attrs, rest) ->
  s = attrs ++ path_attribute filename ++ rest
  /\ all_chars (fun c => negb (Ascii.eqb c "}")) attrs = true.
Proof.
  revert attrs rest. induction s as [|c s IH]; intros attrs rest H;
    cbn [match_attributes] in H.
  - now apply match_here_sound.
  - destruct (Ascii.eqb c "}") eqn:Hc; [now apply match_here_sound|].
    destruct (match_attributes filename s) as [[attrs' rest']|] eqn:E;
      [|now apply match_here_sound].
    injection H as <- <-. destruct (IH attrs' rest' eq_refl) as [-> Hall].
    split; [reflexivity|]. cbn [all_chars]. now rewrite Hc, Hall.
Qed.

Lemma match_entry_sound (filename s group1 rest : string) :
  match_entry filename s = Some (group1, rest) ->
  exists attrs,
    group1 = entry_head filename ++ attrs ++ "path = "
    /\ s = group1 ++ filename ++ ";" ++ rest
    /\ s = entry_head filename ++ attrs ++ path_attribute filename ++ rest.
Proof.
  unfold match_entry. generalize (entry_head filename) as h. intro h.
  destruct (match_literal h s) as [s1|] eqn:E1; [|discriminate].
  destruct (match_attributes filename s1) as [[attrs r]|] eqn:E2; [|discriminate].
  intro H. apply match_literal_some in E1.
  apply match_attributes_sound in E2 as [E2 _].
  assert (Hg : group1 = h ++ attrs ++ "path = ") by congruence.
  assert (Hr : rest = r) by congruence.
  exists attrs. subst. unfold path_attribute. split; [reflexivity|].
  split; now rewrite !sapp_assoc.
Qed.

Lemma match_entry_head (filename s : string) :
  String.prefix (entry_head filename) s = false -> match_entry filename s = None.
Proof.
  intro H. unfold match_entry. rewrite prefix_match_literal in H.
  now destruct (match_literal (entry_head filename) s).
Qed.

Lemma re_sub_inserted (fuel : nat) (filename folder s : string) :
  inserted s (re_sub fuel filename folder s).
Proof.
  revert s. induction fuel as [|fuel IH]; intro s; [apply inserted_refl|].
  cbn [re_sub]. destruct (match_entry filename s) as [[group1 rest]|] eqn:E.
  - destruct (match_entry_sound _ _ _ _ E) as (attrs & _ & -> & _).
    apply inserted_app.
    replace (folder ++ "/" ++ filename ++ ";" ++ re_sub fuel filename folder rest)
      with ((folder ++ "/") ++ filename ++ ";" ++ re_sub fuel filename folder rest)
      by now rewrite sapp_assoc.
    apply inserted_prepend.
    replace (filename ++ ";" ++ rest) with ((filename ++ ";") ++ rest)
      by now rewrite sapp_assoc.
    replace (filename ++ ";" ++ re_sub fuel filename folder rest)
      with ((filename ++ ";") ++ re_sub fuel filename folder rest)
      by now rewrite sapp_assoc.
    apply inserted_app, IH.
  - destruct s as [|c s]; [constructor | constructor; apply IH].
Qed.

Lemma re_sub_no_attribute (fuel : nat) (filename folder s : string) :
  occurs (path_attribute filename) s = false ->
  re_sub fuel filename folder s = s.
Proof.
  revert s. induction fuel as [|fuel IH]; intros s H; [reflexivity|].
  cbn [re_sub]. destruct (match_entry filename s) as [[group1 rest]|] eqn:E.
  - destruct (match_entry_sound _ _ _ _ E) as (attrs & _ & _ & Hs).
    rewrite Hs in H.
    replace (entry_head filename ++ attrs ++ path_attribute filename ++ rest)
      with ((entry_head filename ++ attrs) ++ path_attribute filename ++ rest) in H
      by now rewrite sapp_assoc.
    now rewrite occurs_app in H.
  - destruct s as [|c s]; [reflexivity|].
    now rewrite (IH s (proj2 (occurs_cons _ _ _ H))).
Qed.

Lemma re_sub_no_head (fuel : nat) (filename folder s : string) :
  occurs (entry_head filename) s = false ->
  re_sub fuel filename folder s = s.
Proof.
  revert s. induction fuel as [|fuel IH]; intros s H; [reflexivity|].
  cbn [re_sub]. destruct s as [|c s].
  - unfold match_entry. cbn. reflexivity.
  - destruct (occurs_cons _ _ _ H) as [Hp Hs].
    now rewrite (match_entry_head _ _ Hp), (IH s Hs).
Qed.

Lemma updates_inserted (mappings : list (string * string)) (content : string) :
  inserted content (fold_left update_path mappings content).
Proof.
  revert content. induction mappings as [|m mappings IH]; intro content.
  - apply inserted_refl.
  - cbn [fold_left]. eapply inserted_trans; [|apply IH].
    apply re_sub_inserted.
Qed.

(** X16. [reorganize_xcode_folders] does not test that the project file
    exists: without it the call raises [FileNotFoundError], and on a path
    that cannot be read as text it raises the failure of the reading; in
    both cases nothing is written.  When the file is read, the call
    returns [True], writes the project file and no other, and what it
    writes is the text it read (the old content, with the line ends as
    text mode gives them) with characters inserted: nothing of that text
    is lost or changed. *)
Theorem reorganize_only_inserts (project_path : string) (w : disk) :
  (w project_path = None ->
   reorganize_xcode_folders project_path w
   = (Raises_FileNotFoundError project_path, w))
  /\ (forall e,
        w project_path = Some (Unreadable e) ->
        reorganize_xcode_folders project_path w = (Raises_read_failure e, w))
  /\ (forall content,
        w project_path = Some (Text content) ->
        exists content',
          fst (reorganize_xcode_folders project_path w) = Returns true
          /\ snd (reorganize_xcode_folders project_path w) project_path
             = Some (Text content')
          /\ inserted (universal_newlines content) content'
          /\ (forall p, p <> project_path ->
                        snd (reorganize_xcode_folders project_path w) p = w p)).
Proof.
  unfold reorganize_xcode_folders. split; [|split].
  - now intros ->.
  - now intros e ->.
  - intros content ->. eexists. split; [reflexivity|].
    cbn [snd]. unfold write_text. rewrite String.eqb_refl.
    split; [reflexivity|]. split; [apply updates_inserted|].
    intros p Hp. destruct (String.eqb_spec p project_path); [contradiction | reflexivity].
Qed.

(** X17. When the text read has the path attribute of none of the twelve
    files, nothing is replaced: the project file is written with the text
    read, which is the content it had but for the line ends (a carriage
    return, alone or before a line feed, is written back as a line feed).
    A content without carriage returns is written back as it was. *)
Theorem reorganize_nothing_to_update (project_path content : string) (w : disk) :
  w project_path = Some (Text content) ->
  forallb (fun m => negb (occurs (path_attribute (fst m))
                                 (universal_newlines content)))
          folder_mappings = true ->
  snd (reorganize_xcode_folders project_path w) project_path
  = Some (Text (universal_newlines content))
  /\ fst (reorganize_xcode_folders project_path w) = Returns true
  /\ (all_chars (fun c => negb (Ascii.eqb c "013")) content = true ->
      snd (reorganize_xcode_folders project_path w) project_path
      = Some (Text content)).
Proof.
  intros Hfile Hnone.
  assert (Hsame : fold_left update_path folder_mappings
                    (universal_newlines content)
                  = universal_newlines content).
  { revert Hnone. generalize (universal_newlines content) as text.
    generalize folder_mappings as mappings.
    induction mappings as [|m mappings IH]; intros text H; [reflexivity|].
    cbn [forallb] in H. apply andb_true_iff in H as [Hm Hrest].
    apply negb_true_iff in Hm. cbn [fold_left]. unfold update_path at 2.
    rewrite (re_sub_no_attribute _ _ _ _ Hm). now apply IH. }
  unfold reorganize_xcode_folders. rewrite Hfile. cbv zeta. rewrite Hsame.
  cbn [fst snd]. unfold write_text. rewrite String.eqb_refl.
  split; [reflexivity|]. split; [reflexivity|].
  intro Hplain. now rewrite (universal_newlines_plain _ Hplain).
Qed.

End Reorganize.

Section Entry.

Lemma prefix_before_brace (lit x y : string) :
  all_chars (fun c => negb (Ascii.eqb c "}")) lit = true ->
  String.prefix lit (x ++ String "}" y) = true -> String.prefix lit x = true.
Proof.
  revert x. induction lit as [|a lit IH]; intros x Hlit H.
  - now destruct x.
  - cbn [all_chars] in Hlit. apply andb_true_iff in Hlit as [Ha Hlit].
    destruct x as [|b x]; cbn [append] in H; cbn in H |- *.
    + destruct (ascii_dec a "}") as [->|]; [discriminate Ha | discriminate H].
    + destruct (ascii_dec a b); [now apply IH | discriminate H].
Qed.

Lemma path_attribute_no_brace (filename : string) :
  all_chars (fun c => negb (Ascii.eqb c "}")) filename = true ->
  all_chars (fun c => negb (Ascii.eqb c "}")) (path_attribute filename) = true.
Proof.
  intro H. unfold path_attribute. rewrite !all_chars_app, H. reflexivity.
Qed.

Lemma match_attributes_cons (filename : string) (c : ascii) (s : string) :
  match_attributes filename (String c s)
  = if Ascii.eqb c "}"
    then option_map (pair EmptyString)
           (match_literal (path_attribute filename) (String c s))
    else match match_attributes filename s with
         | Some (attrs, rest) => Some (String c attrs, rest)
         | None => option_map (pair EmptyString)
                     (match_literal (path_attribute filename) (String c s))
         end.
Proof. reflexivity. Qed.

Lemma match_attributes_none (filename x y : string) :
  all_chars (fun c => negb (Ascii.eqb c "}")) filename = true ->
  all_chars (fun c => negb (Ascii.eqb c "}")) x = true ->
  occurs (path_attribute filename) x = false ->
  match_attributes filename (x ++ String "}" y) = None.
Proof.
  intros Hfn. induction x as [|c x IH]; intros Hx Hocc; cbn [append];
    rewrite match_attributes_cons.
  - rewrite Ascii.eqb_refl. reflexivity.
  - cbn [all_chars] in Hx. apply andb_true_iff in Hx as [Hc Hx].
    apply negb_true_iff in Hc. rewrite Hc.
    destruct (occurs_cons _ _ _ Hocc) as [Hp Ho]. rewrite (IH Hx Ho).
    destruct (match_literal (path_attribute filename) (String c (x ++ String "}" y)))
      eqn:E; [exfalso | reflexivity].
    assert (Hp' : String.prefix (path_attribute filename)
                    (String c x ++ String "}" y) = true)
      by (cbn [append]; now rewrite prefix_match_literal, E).
    apply prefix_before_brace in Hp'; [congruence|].
    now apply path_attribute_no_brace.
Qed.

Lemma match_attributes_entry (filename attrs r1 r2 : string) :
  all_chars (fun c => negb (Ascii.eqb c "}")) filename = true ->
  all_chars (fun c => negb (Ascii.eqb c "}")) (attrs ++ r1) = true ->
  occurs (path_attribute filename) (drop 1 (path_attribute filename ++ r1)) = false ->
  match_attributes filename (attrs ++ path_attribute filename ++ r1 ++ String "}" r2)
  = Some (attrs, r1 ++ String "}" r2).
Proof.
  intros Hfn Hall Hocc. rewrite all_chars_app in Hall.
  apply andb_true_iff in Hall as [Hattrs Hr1].
  induction attrs as [|c attrs IH]; cbn [append].
  - set (t := drop 1 (path_attribute filename ++ r1)) in *.
    assert (Es : path_attribute filename ++ r1 ++ String "}" r2
                 = String "p" (t ++ String "}" r2)).
    { unfold t, path_attribute. cbn [append drop]. now rewrite !sapp_assoc. }
    rewrite Es, match_attributes_cons. change (Ascii.eqb "p" "}") with false.
    cbv iota. rewrite match_attributes_none; [| exact Hfn | | exact Hocc].
    + rewrite <- Es, match_literal_app. reflexivity.
    + replace t with (("ath = " ++ filename ++ ";") ++ r1)
        by (unfold t, path_attribute; cbn [append drop]; now rewrite !sapp_assoc).
      rewrite !all_chars_app. now rewrite Hfn, Hr1.
  - cbn [all_chars] in Hattrs. apply andb_true_iff in Hattrs as [Hc Hattrs].
    apply negb_true_iff in Hc. rewrite match_attributes_cons, Hc.
    now rewrite (IH Hattrs).
Qed.

Lemma re_sub_skip (filename folder a t : string) (fuel : nat) :
  starts_first (entry_head filename) a t = true ->
  re_sub (String.length a + fuel) filename folder (a ++ t)
  = a ++ re_sub fuel filename folder t.
Proof.
  induction a as [|c a IH]; intro H; [reflexivity|].
  cbn [starts_first] in H. apply andb_true_iff in H as [Hno Hfirst].
  apply negb_true_iff in Hno. cbn [append] in Hno |- *.
  cbn [String.length Nat.add re_sub].
  now rewrite (match_entry_head _ _ Hno), (IH Hfirst).
Qed.

(** X18. One substitution on one entry, for each of the twelve files and
    its folder.  When the content has the entry of the file once (its
    comment, the equals sign and the brace, attributes without a closing
    brace, the path attribute with the bare file name, more attributes, the
    closing brace), with no second path attribute of the file inside the
    entry, the substitution puts the folder and a slash before the file
    name in that attribute and changes nothing else. *)
Theorem update_path_entry (filename folder a attrs r1 r2 : string) :
  let entry := entry_head filename ++ attrs ++ path_attribute filename
               ++ r1 ++ String "}" r2 in
  In (filename, folder) folder_mappings ->
  all_chars (fun c => negb (Ascii.eqb c "}")) (attrs ++ r1) = true ->
  starts_first (entry_head filename) a entry = true ->
  occurs (entry_head filename) (r1 ++ String "}" r2) = false ->
  occurs (path_attribute filename) (drop 1 (path_attribute filename ++ r1)) = false ->
  update_path (a ++ entry) (filename, folder)
  = a ++ entry_head filename ++ attrs
    ++ "path = " ++ folder ++ "/" ++ filename ++ ";" ++ r1 ++ String "}" r2.
Proof.
  intros entry Hin Hall Hfirst Hafter Hone.
  assert (Hfn : all_chars (fun c => negb (Ascii.eqb c "}")) filename = true).
  { unfold folder_mappings in Hin. cbn [In] in Hin.
    repeat (destruct Hin as [Hin | Hin];
            [injection Hin as <- _; reflexivity |]).
    contradiction. }
  unfold update_path. cbn [fst snd].
  rewrite slength_app, <- Nat.add_succ_r, (re_sub_skip _ _ _ _ _ Hfirst).
  f_equal.
  assert (Hmatch : match_entry filename entry
                   = Some (entry_head filename ++ attrs ++ "path = ",
                           r1 ++ String "}" r2)).
  { unfold entry, match_entry.
    now rewrite match_literal_app, (match_attributes_entry _ _ _ _ Hfn Hall Hone). }
  cbn [re_sub]. rewrite Hmatch, (re_sub_no_head _ _ _ _ Hafter).
  now rewrite !sapp_assoc.
Qed.

Lemma update_path_entry_witness :
  update_path
    ("AA /* Hostage.swift */ = {isa = PBXFileReference; path = Hostage.swift; sourceTree = x; };")
    ("Hostage.swift", "Entities")
  = "AA /* Hostage.swift */ = {isa = PBXFileReference; path = Entities/Hostage.swift; sourceTree = x; };".
Proof.
  apply (update_path_entry "Hostage.swift" "Entities" "AA "
           "isa = PBXFileReference; " " sourceTree = x; " ";");
    [simpl; tauto | reflexivity ..].
Defined.

End Entry.

(** ** The scripts on a small project *)

Lemma add_files_all_or_nothing_witness :
  snd (add_files_to_xcode sample_uuid "project.pbxproj" ["Input/A.swift"]
         "Input" (sample_files "no group here"))
  = sample_files "no group here".
Proof.
  apply (add_files_all_or_nothing sample_uuid "project.pbxproj"
           ["Input/A.swift"] "Input" (sample_files "no group here")).
  vm_compute. discriminate.
Defined.

Lemma add_files_returns_witness :
  add_files_to_xcode sample_uuid "project.pbxproj" ["Input/A.swift"] "Input"
    sample_bundle
  = (Raises_read_failure IsADirectoryError, sample_bundle)
  /\ add_files_to_xcode sample_uuid "project.pbxproj" ["Input/A.swift"] "Input"
       (sample_files "no group here")
     = (Returns false, sample_files "no group here").
Proof.
  split.
  - destruct (add_files_returns sample_uuid "project.pbxproj" ["Input/A.swift"]
                "Input" sample_bundle) as (_ & _ & H & _).
    apply (H IsADirectoryError). reflexivity.
  - destruct (add_files_returns sample_uuid "project.pbxproj" ["Input/A.swift"]
                "Input" (sample_files "no group here")) as (_ & _ & _ & H).
    apply (H "no group here"); [reflexivity|].
    intros a b E. apply (f_equal String.length) in E.
    rewrite !slength_app in E. cbn in E. lia.
Defined.

Lemma add_files_keeps_text_witness :
  exists content',
    snd (add_files_to_xcode sample_uuid "project.pbxproj"
           ["Input/A.swift"; "Input/B.swift"] "Input"
           (sample_files sample_project)) "project.pbxproj"
    = Some (Text content')
    /\ inserted sample_project content'.
Proof.
  assert (Hrun : fst (add_files_to_xcode sample_uuid "project.pbxproj"
                        ["Input/A.swift"; "Input/B.swift"] "Input"
                        (sample_files sample_project)) = Returns true)
    by (vm_compute; reflexivity).
  destruct (add_files_keeps_text sample_uuid "project.pbxproj"
              ["Input/A.swift"; "Input/B.swift"] "Input" sample_project
              (sample_files sample_project) eq_refl Hrun)
    as (content' & children & refs & builds & sources & Hw & Hins & _).
  exists content'. split; assumption.
Defined.

Lemma reorganize_only_inserts_witness :
  exists content',
    snd (reorganize_xcode_folders "project.pbxproj"
           (sample_files ("a" ++ CRLF ++ "b" ++ CRLF))) "project.pbxproj"
    = Some (Text content')
    /\ inserted ("a" ++ NL ++ "b" ++ NL) content'.
Proof.
  destruct (reorganize_only_inserts "project.pbxproj"
              (sample_files ("a" ++ CRLF ++ "b" ++ CRLF)))
    as (_ & _ & H).
  destruct (H ("a" ++ CRLF ++ "b" ++ CRLF) eq_refl)
    as (content' & _ & Hw & Hins & _).
  exists content'. split; assumption.
Defined.

Lemma reorganize_nothing_to_update_witness :
  snd (reorganize_xcode_folders "project.pbxproj"
         (sample_files ("a" ++ CRLF ++ "b" ++ CRLF))) "project.pbxproj"
  = Some (Text ("a" ++ NL ++ "b" ++ NL)).
Proof.
  apply (reorganize_nothing_to_update "project.pbxproj"
           ("a" ++ CRLF ++ "b" ++ CRLF)
           (sample_files ("a" ++ CRLF ++ "b" ++ CRLF)));
    vm_compute; reflexivity.
Defined.
